(** * Caffe layers: PowerLayer and CuDNNConvolutionLayer

    A shallow embedding of

      - src/caffe/layers/power_layer.cpp       (module [Power])
      - src/caffe/layers/cudnn_conv_layer.cpp  (module [CuDNNConv])

    Buffers are lists, the layers' members are record fields, and every
    member function is a function from the state it reads to the state it
    leaves behind. *)

From stdpp Require Import base option list gmap strings.
From Stdlib Require Import ZArith Floats QArith Qcanon Field Lia Bool.

(* ===================================================================== *)
(** * PowerLayer                                                          *)
(* ===================================================================== *)

Module Power.

(** ** The numeric type

    The layer is a template over the storage type [Dtype] and the math type
    [Mtype]; the embedding covers the instantiations in which both are the
    same type [M] (float/float and double/double), so [Get<Dtype>] is the
    identity.  [Arith] collects what the source uses of [M]: the constants
    [Mtype(0)], [Mtype(1)], [Mtype(2)], the operators [+], [*], [/] and the
    comparison [==] ([x != y] is its negation). *)
Class Arith (M : Type) := {
  M0 : M;
  M1 : M;
  M2 : M;
  madd : M -> M -> M;
  mmul : M -> M -> M;
  mdiv : M -> M -> M;
  meq : M -> M -> bool;
}.

(** [pow] of <cmath>, called by [Forward_cpu] directly and through
    [caffe_powx]. *)
Class Libm (M : Type) := {
  pow : M -> M -> M;
}.

Declare Scope mtype_scope.
Delimit Scope mtype_scope with M.
Notation "x + y" := (madd x y) : mtype_scope.
Notation "x * y" := (mmul x y) : mtype_scope.
Notation "x / y" := (mdiv x y) : mtype_scope.
Notation "x == y" := (meq x y) (at level 70, no associativity) : mtype_scope.
Notation "x != y" := (negb (meq x y)) (at level 70, no associativity) : mtype_scope.

Section Layer.
Context {M : Type} {A : Arith M}.
Local Open Scope mtype_scope.

(** ** Blobs

    A blob owns a data buffer and a diff buffer of [count] elements each. *)
Record Blob := {
  cpu_data : list M;
  cpu_diff : list M;
}.

Definition count (b : Blob) : nat := length (cpu_data b).

Definition set_cpu_data (b : Blob) (d : list M) : Blob :=
  {| cpu_data := d; cpu_diff := cpu_diff b |}.

Definition set_cpu_diff (b : Blob) (d : list M) : Blob :=
  {| cpu_data := cpu_data b; cpu_diff := d |}.

(** The shape invariant the framework maintains for a neuron layer: each
    blob's two buffers have [count] elements, and the top blob is reshaped
    like the bottom blob. *)
Definition blob_wf (b : Blob) : Prop := length (cpu_diff b) = count b.

Definition shaped_like (top bottom : Blob) : Prop :=
  blob_wf top /\ blob_wf bottom /\ count top = count bottom.

(** ** The helpers of caffe/util/math_functions

    Each helper walks the first [N] elements of its buffers.  [vec_unary f N
    a y] stores [f a[i]] in [y[i]] and [vec_binary f N a b y] stores
    [f a[i] b[i]] in [y[i]], for [i < N]; elements of [y] from [N] on are
    kept.  The callers pass [N = count], the size of every buffer; where a
    buffer is shorter than [N] (undefined behaviour in the source) the walk
    stops at its end. *)
Fixpoint vec_unary (f : M -> M) (N : nat) (a y : list M) : list M :=
  match N, a, y with
  | S n, x :: a', _ :: y' => f x :: vec_unary f n a' y'
  | _, _, _ => y
  end.

Fixpoint vec_binary (f : M -> M -> M) (N : nat) (a b y : list M) : list M :=
  match N, a, b, y with
  | S n, x :: a', x' :: b', _ :: y' => f x x' :: vec_binary f n a' b' y'
  | _, _, _, _ => y
  end.

(** Modelled from the spec: [caffe_set(N, alpha, Y)] of math_functions is
    not among the sources; it broadcasts the constant [alpha] to every
    element, [Y[i] = alpha]. *)
Fixpoint caffe_set (N : nat) (alpha : M) (Y : list M) : list M :=
  match N, Y with
  | S n, _ :: Y' => alpha :: caffe_set n alpha Y'
  | _, _ => Y
  end.

(** Modelled from the spec: [caffe_copy(N, X, Y)] copies the input,
    [Y[i] = X[i]]. *)
Definition caffe_copy (N : nat) (X Y : list M) : list M :=
  vec_unary (fun x => x) N X Y.

(** Modelled from the spec: [caffe_scal(N, alpha, X)] multiplies in place
    by the scalar, [X[i] = alpha * X[i]]. *)
Definition caffe_scal (N : nat) (alpha : M) (X : list M) : list M :=
  vec_unary (fun x => alpha * x) N X X.

(** Modelled from the spec: [caffe_add_scalar(N, alpha, Y)] adds the scalar
    in place, [Y[i] += alpha]. *)
Definition caffe_add_scalar (N : nat) (alpha : M) (Y : list M) : list M :=
  vec_unary (fun y => y + alpha) N Y Y.

(** Modelled from the spec: [caffe_div(N, a, b, y)] divides elementwise,
    [y[i] = a[i] / b[i]]; a zero divisor is not guarded. *)
Definition caffe_div (N : nat) (a b y : list M) : list M :=
  vec_binary (fun u v => u / v) N a b y.

(** Modelled from the spec: [caffe_mul(N, a, b, y)] multiplies elementwise,
    [y[i] = a[i] * b[i]]. *)
Definition caffe_mul (N : nat) (a b y : list M) : list M :=
  vec_binary (fun u v => u * v) N a b y.

(** Modelled from the spec: [caffe_cpu_axpby(N, alpha, X, beta, Y)] is the
    BLAS update [Y[i] = alpha * X[i] + beta * Y[i]]. *)
Definition caffe_cpu_axpby (N : nat) (alpha : M) (X : list M) (beta : M)
    (Y : list M) : list M :=
  vec_binary (fun x y => alpha * x + beta * y) N X Y Y.

(** Modelled from the spec: [caffe_powx(N, a, b, y)] raises to the power,
    [y[i] = pow(a[i], b)]. *)
Definition caffe_powx {P : Libm M} (N : nat) (a : list M) (b : M)
    (y : list M) : list M :=
  vec_unary (fun x => pow x b) N a y.

(** ** The layer *)

(** [PowerParameter] of the layer's configuration. *)
Record PowerParameter := {
  power : M;
  scale : M;
  shift : M;
}.

Record PowerLayer := {
  power_ : M;
  scale_ : M;
  shift_ : M;
  diff_scale_ : M;
}.

(** power_layer.cpp, lines 10-18. *)
Definition LayerSetUp (p : PowerParameter) : PowerLayer :=
  {| power_ := power p;
     scale_ := scale p;
     shift_ := shift p;
     diff_scale_ := power p * scale p |}.

(** power_layer.cpp, lines 21-43.  [bottom] and [top] are [bottom[0]] and
    [top[0]]; the result is [top[0]] after the call. *)
Definition Forward_cpu {P : Libm M} (L : PowerLayer) (bottom top : Blob) : Blob :=
  let top_data := cpu_data top in
  let count := count bottom in
  if diff_scale_ L == M0 then
    let value := if power_ L == M0 then M1 else pow (shift_ L) (power_ L) in
    set_cpu_data top (caffe_set count value top_data)
  else
    let bottom_data := cpu_data bottom in
    let top_data := caffe_copy count bottom_data top_data in
    let top_data :=
      if scale_ L != M1 then caffe_scal count (scale_ L) top_data
      else top_data in
    let top_data :=
      if shift_ L != M0 then caffe_add_scalar count (shift_ L) top_data
      else top_data in
    let top_data :=
      if power_ L != M1 then caffe_powx count top_data (power_ L) top_data
      else top_data in
    set_cpu_data top top_data.

(** The same pipeline with no step skipped: copy, scale, shift, pow. *)
Definition Forward_unconditional {P : Libm M} (L : PowerLayer)
    (bottom top : Blob) : Blob :=
  let count := count bottom in
  let top_data := caffe_copy count (cpu_data bottom) (cpu_data top) in
  let top_data := caffe_scal count (scale_ L) top_data in
  let top_data := caffe_add_scalar count (shift_ L) top_data in
  let top_data := caffe_powx count top_data (power_ L) top_data in
  set_cpu_data top top_data.

(** power_layer.cpp, lines 59-67: the branch [power_ == 2] of
    [Backward_cpu], which leaves dy/dx in [bottom_diff]. *)
Definition dydx_power2 (L : PowerLayer) (count : nat)
    (bottom_data bottom_diff : list M) : list M :=
  let bottom_diff :=
    caffe_cpu_axpby count (diff_scale_ L * scale_ L) bottom_data M0 bottom_diff in
  if shift_ L != M0 then
    caffe_add_scalar count (diff_scale_ L * shift_ L) bottom_diff
  else bottom_diff.

(** power_layer.cpp, lines 68-75: the branch [shift_ == 0]. *)
Definition dydx_shift0 (L : PowerLayer) (count : nat)
    (top_data bottom_data bottom_diff : list M) : list M :=
  let bottom_diff := caffe_div count top_data bottom_data bottom_diff in
  caffe_scal count (power_ L) bottom_diff.

(** power_layer.cpp, lines 76-89: the general branch. *)
Definition dydx_general (L : PowerLayer) (count : nat)
    (top_data bottom_data bottom_diff : list M) : list M :=
  let bottom_diff := caffe_copy count bottom_data bottom_diff in
  let bottom_diff :=
    if scale_ L != M1 then caffe_scal count (scale_ L) bottom_diff
    else bottom_diff in
  let bottom_diff :=
    if shift_ L != M0 then caffe_add_scalar count (shift_ L) bottom_diff
    else bottom_diff in
  let bottom_diff := caffe_div count top_data bottom_diff bottom_diff in
  if diff_scale_ L != M1 then caffe_scal count (diff_scale_ L) bottom_diff
  else bottom_diff.

(** power_layer.cpp, lines 45-95.  [top] and [bottom] are [top[0]] and
    [bottom[0]]; the result is [bottom[0]] after the call.  An empty
    [propagate_down] (an out-of-range read in the source) is treated as
    "do not propagate". *)
Definition Backward_cpu (L : PowerLayer) (top : Blob)
    (propagate_down : list bool) (bottom : Blob) : Blob :=
  match propagate_down !! 0%nat with
  | Some true =>
      let bottom_diff := cpu_diff bottom in
      let count := count bottom in
      let top_diff := cpu_diff top in
      let bottom_diff :=
        if (diff_scale_ L == M0) || (power_ L == M1) then
          caffe_set count (diff_scale_ L) bottom_diff
        else
          let bottom_data := cpu_data bottom in
          if power_ L == M2 then
            dydx_power2 L count bottom_data bottom_diff
          else if shift_ L == M0 then
            dydx_shift0 L count (cpu_data top) bottom_data bottom_diff
          else
            dydx_general L count (cpu_data top) bottom_data bottom_diff in
      let bottom_diff :=
        if diff_scale_ L != M0 then
          caffe_mul count top_diff bottom_diff bottom_diff
        else bottom_diff in
      set_cpu_diff bottom bottom_diff
  | _ => bottom
  end.

(** ** Elementwise reading of the pipelines

    What one element goes through in [Forward_cpu] (lines 33-42) and in the
    branches of [Backward_cpu], skips included. *)
Definition scale_step (L : PowerLayer) (x : M) : M :=
  if scale_ L != M1 then scale_ L * x else x.

Definition shift_step (L : PowerLayer) (z : M) : M :=
  if shift_ L != M0 then z + shift_ L else z.

Definition pow_step {P : Libm M} (L : PowerLayer) (z : M) : M :=
  if power_ L != M1 then pow z (power_ L) else z.

Definition forward_elem {P : Libm M} (L : PowerLayer) (x : M) : M :=
  pow_step L (shift_step L (scale_step L x)).

Definition power2_elem (L : PowerLayer) (x d : M) : M :=
  let g := diff_scale_ L * scale_ L * x + M0 * d in
  if shift_ L != M0 then g + diff_scale_ L * shift_ L else g.

Definition shift0_elem (L : PowerLayer) (y x : M) : M :=
  power_ L * (y / x).

Definition general_elem (L : PowerLayer) (y x : M) : M :=
  let q := y / shift_step L (scale_step L x) in
  if diff_scale_ L != M1 then diff_scale_ L * q else q.

(** ** Arithmetic laws

    [pow_one_exact] and [pow_two_exact] are properties of the external
    [pow]: raising to the power 1 returns the base, raising to the power 2
    returns the product of the base with itself. *)
Definition pow_one_exact (P : Libm M) : Prop :=
  forall p x, (p == M1) = true -> pow x p = x.

Definition pow_two_exact (P : Libm M) : Prop :=
  forall p x, (p == M2) = true -> pow x p = x * x.

(** Ideal (exact) arithmetic: [M] is a field under the layer's operators,
    [Mtype(2)] is [1 + 1], and [==] decides equality. *)
Class ExactArith := {
  mopp : M -> M;
  exact_field :
    field_theory M0 M1 madd mmul (fun x y => x + mopp y) mopp mdiv
      (fun x => M1 / x) eq;
  exact_two : M2 = M1 + M1;
  exact_eq : forall x y, (x == y) = true <-> x = y;
}.

End Layer.

Arguments Blob M : clear implicits.
Arguments PowerParameter M : clear implicits.
Arguments PowerLayer M : clear implicits.
Arguments ExactArith M {A}.

(** ** IEEE binary64 instance ([Mtype = double]) *)

#[export] Instance f64 : Arith float := {|
  M0 := 0%float;
  M1 := 1%float;
  M2 := 2%float;
  madd := PrimFloat.add;
  mmul := PrimFloat.mul;
  mdiv := PrimFloat.div;
  meq := PrimFloat.eqb;
|}.

(** *** [pow] on binary64

    C (Annex F.10.4.4) fixes the result of [pow] at zeros, ones, infinities
    and NaNs; [pow_special] lists these cases.  On the remaining arguments
    the library returns an approximation of x^y that the standard does not
    pin down: [c_pow] takes it as the parameter [approx]. *)

Section Binary64.
Local Open Scope float_scope.

Definition is_integer (y : float) : bool :=
  match Prim2SF y with
  | S754_zero _ => true
  | S754_finite _ m e => (0 <=? e)%Z || (Z.pos m mod 2 ^ (- e) =? 0)%Z
  | _ => false
  end.

Definition is_odd_integer (y : float) : bool :=
  match Prim2SF y with
  | S754_finite _ m e =>
      (e =? 0)%Z && Z.odd (Z.pos m)
      || (e <? 0)%Z && (Z.pos m mod 2 ^ (- e) =? 0)%Z
         && Z.odd (Z.pos m / 2 ^ (- e))
  | _ => false
  end.

Definition pow_special (x y : float) : option float :=
  if is_zero y then Some 1
  else if x =? 1 then Some 1
  else if is_nan x || is_nan y then Some nan
  else if is_zero x then
    Some (if y <? 0 then
            if is_odd_integer y
            then (if get_sign x then neg_infinity else infinity)
            else infinity
          else
            if is_odd_integer y then x else 0)
  else if is_infinity y then
    Some (if abs x =? 1 then 1
          else if abs x <? 1 then (if y <? 0 then infinity else 0)
          else (if y <? 0 then 0 else infinity))
  else if is_infinity x then
    Some (if y <? 0 then
            if (x <? 0) && is_odd_integer y then (-0) else 0
          else
            if (x <? 0) && is_odd_integer y then neg_infinity else infinity)
  else if (x <? 0) && negb (is_integer y) then Some nan
  else None.

Definition c_pow (approx : float -> float -> float) (x y : float) : float :=
  match pow_special x y with
  | Some r => r
  | None => approx x y
  end.

(** The approximation used to evaluate the layer on concrete inputs:
    products for an integral exponent, the square root for 0.5.  Other
    exponents are outside this evaluator (it answers [nan]); no statement
    below evaluates [pow] there. *)
Definition pow_finite (x y : float) : float :=
  match Prim2SF y with
  | S754_finite s m e =>
      if is_integer y then
        let n := Z.to_pos (if (0 <=? e)%Z then Z.pos m * 2 ^ e
                           else Z.pos m / 2 ^ (- e))%Z in
        let p := Pos.iter_op PrimFloat.mul n x in
        if s then 1 / p else p
      else if y =? 0.5 then sqrt x
      else nan
  | _ => nan
  end.

Definition libm_of (approx : float -> float -> float) : Libm float :=
  {| pow := c_pow approx |}.

End Binary64.

#[export] Instance libm_f64 : Libm float := libm_of pow_finite.

(** ** Exact rational instance (ideal arithmetic that computes) *)

#[export] Instance Qc_arith : Arith Qc := {|
  M0 := 0%Qc;
  M1 := 1%Qc;
  M2 := Q2Qc 2;
  madd := Qcplus;
  mmul := Qcmult;
  mdiv := Qcdiv;
  meq := Qc_eq_bool;
|}.

(** Integral powers of a rational; a non-integral exponent has no rational
    result in general and is outside this evaluator (it answers 0). *)
Definition Qc_pow (x y : Qc) : Qc :=
  match Qden y, Qnum y with
  | 1%positive, Z0 => 1%Qc
  | 1%positive, Z.pos n => Qcpower x (Pos.to_nat n)
  | 1%positive, Z.neg n => Qcinv (Qcpower x (Pos.to_nat n))
  | _, _ => 0%Qc
  end.

#[export] Instance libm_Qc : Libm Qc := {| pow := Qc_pow |}.

(** ** A further law of [pow]

    Raising to the power 0 returns 1, whatever the base (C, Annex
    F.10.4.4: [pow(x, +-0)] is 1 for every [x], a NaN included). *)
Definition pow_zero_exact {M : Type} {A : Arith M} (P : Libm M) : Prop :=
  forall p x, (p == M0)%M = true -> pow x p = M1.

End Power.

(* ===================================================================== *)
(** * CuDNNConvolutionLayer                                               *)
(* ===================================================================== *)

Module CuDNNConv.

(** ** The world outside the layer

    Descriptors of the kernel provider, host arrays obtained with [new[]]
    and device memory are resources identified by a number; the world
    records which of them are live, the next fresh identity, and the trace
    of the calls made so far. *)
Inductive Kind :=
| TensorDescriptor
| FilterDescriptor
| ConvolutionDescriptor
| HostArray
| DeviceMemory.

#[export] Instance Kind_eq_dec : EqDecision Kind.
Proof. solve_decision. Defined.

Inductive Event :=
| New (a : nat) (n : nat)
| Delete (a : nat)
| CreateFilterDesc (h : nat) (n c kh kw : Z)
| CreateTensor4dDesc (h : nat)
| CreateConvolutionDesc (h : nat)
| SetTensor4dDesc (h : nat) (n c hh w stride_n stride_c stride_h stride_w : Z)
| SetConvolutionDesc (conv bottom filter : nat) (pad_h pad_w stride_h stride_w : Z)
| GetConvolutionForwardAlgorithm (i : nat) (limit : N) (algo : nat)
| GetConvolutionForwardWorkspaceSize (i : nat) (algo : nat) (size : N)
| GetConvolutionBackwardFilterAlgorithm (i : nat) (limit : N) (algo : nat)
| GetConvolutionBackwardFilterWorkspaceSize (i : nat) (algo : nat) (size : N)
| GetConvolutionBackwardDataAlgorithm (i : nat) (limit : N) (algo : nat)
| GetConvolutionBackwardDataWorkspaceSize (i : nat) (algo : nat) (size : N)
| DestroyTensorDescriptor (h : nat)
| DestroyConvolutionDescriptor (h : nat)
| DestroyFilterDescriptor (h : nat)
| GetInfo (free total : N)
| Deallocate (p : option nat).

Record World := {
  live : gmap nat Kind;
  next : nat;
  trace : list Event;
}.

(** Every live resource was handed out before [next]. *)
Definition world_wf (w : World) : Prop :=
  forall h, is_Some (live w !! h) -> (h < next w)%nat.

(** The kernel provider and the device: whether the provider call issued
    in a world succeeds ([CUDNN_STATUS_SUCCESS]), the algorithm and the
    workspace size it answers for input [i], and the device's free and
    total memory. *)
Class Provider := {
  cudnn_ok : World -> bool;
  forward_algorithm : World -> nat -> N -> nat;
  forward_workspace : World -> nat -> nat -> N;
  backward_filter_algorithm : World -> nat -> N -> nat;
  backward_filter_workspace : World -> nat -> nat -> N;
  backward_data_algorithm : World -> nat -> N -> nat;
  backward_data_workspace : World -> nat -> nat -> N;
  memory_info : World -> N * N;
}.

(** ** Fatal errors and the monad of layer calls *)

Inductive Error :=
| CheckFailed (msg : string)   (* a CHECK of this layer *)
| BaseFailed                   (* a CHECK of the base ConvolutionLayer *)
| ShapeIndexFailed             (* a CHECK of Blob::shape *)
| ProviderFailed (e : Event)   (* CUDNN_CHECK *)
| Undefined.                   (* outside the language: stray pointer or index *)

Inductive Outcome (A : Type) :=
| Done (a : A) (w : World)
| Fatal (e : Error) (w : World).
Arguments Done {A} a w.
Arguments Fatal {A} e w.

Definition Run (A : Type) : Type := World -> Outcome A.

Definition ret {A} (a : A) : Run A := fun w => Done a w.

Definition bind {A B} (m : Run A) (f : A -> Run B) : Run B :=
  fun w => match m w with
           | Done a w' => f a w'
           | Fatal e w' => Fatal e w'
           end.

Definition fatal {A} (e : Error) : Run A := fun w => Fatal e w.

Notation "x <- m ;; k" := (bind m (fun x => k))
  (at level 100, m at next level, right associativity).
Notation "m ;;; k" := (bind m (fun _ : unit => k))
  (at level 100, right associativity).

(** [for (i = 0; i < n; i++) body], threading the state [S] the body
    updates. *)
Fixpoint for_each {S} (indices : list nat) (body : nat -> S -> Run S) (s : S)
    : Run S :=
  match indices with
  | [] => ret s
  | i :: rest => s' <- body i s ;; for_each rest body s'
  end.

Definition for_loop {S} (n : nat) (body : nat -> S -> Run S) (s : S) : Run S :=
  for_each (seq 0 n) body s.

Definition log (e : Event) : Run unit :=
  fun w => Done tt {| live := live w; next := next w; trace := trace w ++ [e] |}.

(** Hand out a fresh resource of kind [k]; [e] is the call that does. *)
Definition acquire (k : Kind) (e : nat -> Event) : Run nat :=
  fun w => Done (next w)
             {| live := <[next w := k]> (live w);
                next := S (next w);
                trace := trace w ++ [e (next w)] |}.

(** Give back the resource [h] of kind [k]; giving back what is not live
    (never created, or given back before) is outside the language. *)
Definition release (k : Kind) (h : nat) (e : Event) : Run unit :=
  fun w => if decide (live w !! h = Some k)
           then Done tt {| live := delete h (live w);
                           next := next w;
                           trace := trace w ++ [e] |}
           else Fatal Undefined w.

(** [CUDNN_CHECK(call)]: fatal unless the provider reports success. *)
Definition CUDNN_CHECK {P : Provider} {A} (e : Event) (call : Run A) : Run A :=
  fun w => if cudnn_ok w then call w else Fatal (ProviderFailed e) w.

(** [CHECK_EQ(a, b) << msg]. *)
Definition CHECK_EQ {A} `{EqDecision A} (a b : A) (msg : string) : Run unit :=
  if decide (a = b) then ret tt else fatal (CheckFailed msg).

(** An element of a vector or array; an index out of range is outside the
    language. *)
Definition at_index {A} (v : list A) (i : nat) : Run A :=
  match v !! i with
  | Some x => ret x
  | None => fatal Undefined
  end.

Definition deref {A} (p : option A) : Run A :=
  match p with
  | Some x => ret x
  | None => fatal Undefined
  end.

(** ** Host arrays

    [new T[n]] yields [n] indeterminate elements ([None]) at a fresh
    address. *)
Record Array (A : Type) := {
  addr : nat;
  elems : list (option A);
}.
Arguments addr {A} a.
Arguments elems {A} a.

Definition new_array {A} (n : nat) : Run (Array A) :=
  a <- acquire HostArray (fun a => New a n) ;;
  ret {| addr := a; elems := replicate n None |}.

Definition delete_array {A} (p : option (Array A)) : Run unit :=
  a <- deref p ;;
  release HostArray (addr a) (Delete (addr a)).

Definition store {A} (a : Array A) (i : nat) (v : A) : Array A :=
  {| addr := addr a; elems := <[i := Some v]> (elems a) |}.

(** ** The helpers of caffe/util/cudnn.hpp and caffe/util/gpu_memory.hpp *)

(** Modelled from the spec: [cudnn::createFilterDesc] is not among the
    sources; it creates a filter descriptor for the given shape, and a
    provider failure is fatal. *)
Definition createFilterDesc {P : Provider} (n c kh kw : Z) : Run nat :=
  CUDNN_CHECK (CreateFilterDesc 0 n c kh kw)
    (acquire FilterDescriptor (fun h => CreateFilterDesc h n c kh kw)).

(** Modelled from the spec: [cudnn::createTensor4dDesc] creates a tensor
    shape descriptor. *)
Definition createTensor4dDesc {P : Provider} : Run nat :=
  CUDNN_CHECK (CreateTensor4dDesc 0)
    (acquire TensorDescriptor CreateTensor4dDesc).

(** Modelled from the spec: [cudnn::createConvolutionDesc] creates a
    convolution-operation descriptor. *)
Definition createConvolutionDesc {P : Provider} : Run nat :=
  CUDNN_CHECK (CreateConvolutionDesc 0)
    (acquire ConvolutionDescriptor CreateConvolutionDesc).

(** Modelled from the spec: [cudnn::setTensor4dDesc] configures a tensor
    descriptor with the concrete shape and strides. *)
Definition setTensor4dDesc {P : Provider} (h : nat)
    (n c hh w stride_n stride_c stride_h stride_w : Z) : Run unit :=
  let e := SetTensor4dDesc h n c hh w stride_n stride_c stride_h stride_w in
  CUDNN_CHECK e (log e).

(** Modelled from the spec: the overload of [cudnn::setTensor4dDesc]
    without strides describes a packed tensor. *)
Definition setTensor4dDesc_packed {P : Provider} (h : nat) (n c hh w : Z)
    : Run unit :=
  setTensor4dDesc h n c hh w (c * hh * w) (hh * w) w 1.

(** Modelled from the spec: [cudnn::setConvolutionDesc] configures the
    convolution descriptor from padding and stride. *)
Definition setConvolutionDesc {P : Provider} (conv bottom filter : nat)
    (pad_h pad_w stride_h stride_w : Z) : Run unit :=
  let e := SetConvolutionDesc conv bottom filter pad_h pad_w stride_h stride_w in
  CUDNN_CHECK e (log e).

(** Modelled from the spec: [gpu_memory::getInfo] reports the available
    and the total device memory. *)
Definition getInfo {P : Provider} : Run (N * N) :=
  fun w => let '(free, total) := memory_info w in
           bind (log (GetInfo free total)) (fun _ => ret (free, total)) w.

(** Modelled from the spec: [gpu_memory::deallocate] releases the scratch
    buffer; a null pointer has nothing to release. *)
Definition deallocate (p : option nat) : Run unit :=
  match p with
  | None => log (Deallocate None)
  | Some a => release DeviceMemory a (Deallocate (Some a))
  end.

(** The provider's queries, each under [CUDNN_CHECK]. *)
Definition cudnnGetConvolutionForwardAlgorithm {P : Provider} (i : nat)
    (limit : N) : Run nat :=
  fun w => let algo := forward_algorithm w i limit in
           let e := GetConvolutionForwardAlgorithm i limit algo in
           CUDNN_CHECK e (bind (log e) (fun _ => ret algo)) w.

Definition cudnnGetConvolutionForwardWorkspaceSize {P : Provider} (i : nat)
    (algo : nat) : Run N :=
  fun w => let size := forward_workspace w i algo in
           let e := GetConvolutionForwardWorkspaceSize i algo size in
           CUDNN_CHECK e (bind (log e) (fun _ => ret size)) w.

Definition cudnnGetConvolutionBackwardFilterAlgorithm {P : Provider} (i : nat)
    (limit : N) : Run nat :=
  fun w => let algo := backward_filter_algorithm w i limit in
           let e := GetConvolutionBackwardFilterAlgorithm i limit algo in
           CUDNN_CHECK e (bind (log e) (fun _ => ret algo)) w.

Definition cudnnGetConvolutionBackwardFilterWorkspaceSize {P : Provider}
    (i : nat) (algo : nat) : Run N :=
  fun w => let size := backward_filter_workspace w i algo in
           let e := GetConvolutionBackwardFilterWorkspaceSize i algo size in
           CUDNN_CHECK e (bind (log e) (fun _ => ret size)) w.

Definition cudnnGetConvolutionBackwardDataAlgorithm {P : Provider} (i : nat)
    (limit : N) : Run nat :=
  fun w => let algo := backward_data_algorithm w i limit in
           let e := GetConvolutionBackwardDataAlgorithm i limit algo in
           CUDNN_CHECK e (bind (log e) (fun _ => ret algo)) w.

Definition cudnnGetConvolutionBackwardDataWorkspaceSize {P : Provider}
    (i : nat) (algo : nat) : Run N :=
  fun w => let size := backward_data_workspace w i algo in
           let e := GetConvolutionBackwardDataWorkspaceSize i algo size in
           CUDNN_CHECK e (bind (log e) (fun _ => ret size)) w.

(** The provider's destructors; the layer ignores their status. *)
Definition cudnnDestroyTensorDescriptor (h : nat) : Run unit :=
  release TensorDescriptor h (DestroyTensorDescriptor h).

Definition cudnnDestroyConvolutionDescriptor (h : nat) : Run unit :=
  release ConvolutionDescriptor h (DestroyConvolutionDescriptor h).

Definition cudnnDestroyFilterDescriptor (h : nat) : Run unit :=
  release FilterDescriptor h (DestroyFilterDescriptor h).

(** ** The layer *)

Definition Shape := list Z.

(** Members of the base class [ConvolutionLayer] that this layer reads or
    writes. *)
Record ConvolutionLayer := {
  num_spatial_axes_ : Z;
  channel_axis_ : Z;
  num_ : Z;
  channels_ : Z;
  group_ : Z;
  num_output_ : Z;
  out_spatial_dim_ : Z;
  bottom_dim_ : Z;
  top_dim_ : Z;
  bias_term_ : bool;
  kernel_shape_ : list Z;
  pad_ : list Z;
  stride_ : list Z;
  weight_offset_ : Z;
}.

Definition set_weight_offset_ (b : ConvolutionLayer) (v : Z) : ConvolutionLayer :=
  {| num_spatial_axes_ := num_spatial_axes_ b;
     channel_axis_ := channel_axis_ b;
     num_ := num_ b;
     channels_ := channels_ b;
     group_ := group_ b;
     num_output_ := num_output_ b;
     out_spatial_dim_ := out_spatial_dim_ b;
     bottom_dim_ := bottom_dim_ b;
     top_dim_ := top_dim_ b;
     bias_term_ := bias_term_ b;
     kernel_shape_ := kernel_shape_ b;
     pad_ := pad_ b;
     stride_ := stride_ b;
     weight_offset_ := v |}.

(** The base class's [LayerSetUp] and [Reshape] are not among the sources:
    they are parameters.  Each answers the base members it leaves behind
    ([Reshape] also the reshaped top blobs), or [None] when one of its
    CHECKs fails. *)
Class Base := {
  base_LayerSetUp :
    ConvolutionLayer -> list Shape -> list Shape -> option ConvolutionLayer;
  base_Reshape :
    ConvolutionLayer -> list Shape -> list Shape ->
    option (ConvolutionLayer * list Shape);
}.

Definition call_base {A} (r : option A) : Run A :=
  match r with
  | Some a => ret a
  | None => fatal BaseFailed
  end.

Record CuDNNConvolutionLayer := {
  conv : ConvolutionLayer;
  handles_setup_ : bool;
  fwd_algo_ : option (Array nat);
  bwd_filter_algo_ : option (Array nat);
  bwd_data_algo_ : option (Array nat);
  workspace_fwd_sizes_ : option (Array N);
  workspace_bwd_filter_sizes_ : option (Array N);
  workspace_bwd_data_sizes_ : option (Array N);
  workspaceSizeInBytes : N;
  workspaceData : option nat;
  bottom_descs_ : list nat;
  top_descs_ : list nat;
  fwd_conv_descs_ : list nat;
  bwd_conv_descs_ : list nat;
  fwd_filter_desc_ : option nat;
  bwd_filter_desc_ : option nat;
  bias_desc_ : option nat;
  bias_offset_ : Z;
  bottom_offset_ : Z;
  top_offset_ : Z;
}.

Definition set_handles_setup_ (l : CuDNNConvolutionLayer) (v : bool)
    : CuDNNConvolutionLayer :=
  {| conv := conv l;
     handles_setup_ := v;
     fwd_algo_ := fwd_algo_ l;
     bwd_filter_algo_ := bwd_filter_algo_ l;
     bwd_data_algo_ := bwd_data_algo_ l;
     workspace_fwd_sizes_ := workspace_fwd_sizes_ l;
     workspace_bwd_filter_sizes_ := workspace_bwd_filter_sizes_ l;
     workspace_bwd_data_sizes_ := workspace_bwd_data_sizes_ l;
     workspaceSizeInBytes := workspaceSizeInBytes l;
     workspaceData := workspaceData l;
     bottom_descs_ := bottom_descs_ l;
     top_descs_ := top_descs_ l;
     fwd_conv_descs_ := fwd_conv_descs_ l;
     bwd_conv_descs_ := bwd_conv_descs_ l;
     fwd_filter_desc_ := fwd_filter_desc_ l;
     bwd_filter_desc_ := bwd_filter_desc_ l;
     bias_desc_ := bias_desc_ l;
     bias_offset_ := bias_offset_ l;
     bottom_offset_ := bottom_offset_ l;
     top_offset_ := top_offset_ l |}.

Definition set_workspaceData (l : CuDNNConvolutionLayer) (v : option nat)
    : CuDNNConvolutionLayer :=
  {| conv := conv l;
     handles_setup_ := handles_setup_ l;
     fwd_algo_ := fwd_algo_ l;
     bwd_filter_algo_ := bwd_filter_algo_ l;
     bwd_data_algo_ := bwd_data_algo_ l;
     workspace_fwd_sizes_ := workspace_fwd_sizes_ l;
     workspace_bwd_filter_sizes_ := workspace_bwd_filter_sizes_ l;
     workspace_bwd_data_sizes_ := workspace_bwd_data_sizes_ l;
     workspaceSizeInBytes := workspaceSizeInBytes l;
     workspaceData := v;
     bottom_descs_ := bottom_descs_ l;
     top_descs_ := top_descs_ l;
     fwd_conv_descs_ := fwd_conv_descs_ l;
     bwd_conv_descs_ := bwd_conv_descs_ l;
     fwd_filter_desc_ := fwd_filter_desc_ l;
     bwd_filter_desc_ := bwd_filter_desc_ l;
     bias_desc_ := bias_desc_ l;
     bias_offset_ := bias_offset_ l;
     bottom_offset_ := bottom_offset_ l;
     top_offset_ := top_offset_ l |}.

(** Modelled from the spec: the constructor is declared in
    vision_layers.hpp, which is not among the sources.  A layer on which
    [LayerSetUp] has not run has [handles_setup_] false and empty
    descriptor vectors; its other members are indeterminate. *)
Definition constructed (l : CuDNNConvolutionLayer) : Prop :=
  handles_setup_ l = false
  /\ bottom_descs_ l = [] /\ top_descs_ l = []
  /\ fwd_conv_descs_ l = [] /\ bwd_conv_descs_ l = [].

(** The six per-input arrays, as the loops of [LayerSetUp] and [Reshape]
    update them. *)
Record PerInput := {
  fwd_algo : Array nat;
  bwd_filter_algo : Array nat;
  bwd_data_algo : Array nat;
  workspace_fwd_sizes : Array N;
  workspace_bwd_filter_sizes : Array N;
  workspace_bwd_data_sizes : Array N;
}.

(** The four descriptor vectors, as the loop of [LayerSetUp] extends
    them. *)
Record Descs := {
  bottom_descs : list nat;
  top_descs : list nat;
  fwd_conv_descs : list nat;
  bwd_conv_descs : list nat;
}.

Section Members.
Context {P : Provider} {B : Base}.
Local Open Scope Z_scope.

(** cudnn_conv_layer.cpp, lines 37-46: the body of the first loop. *)
Definition init_input (a : PerInput) (i : nat) : PerInput :=
  {| fwd_algo := store (fwd_algo a) i 0%nat;
     bwd_filter_algo := store (bwd_filter_algo a) i 0%nat;
     bwd_data_algo := store (bwd_data_algo a) i 0%nat;
     workspace_fwd_sizes := store (workspace_fwd_sizes a) i 0%N;
     workspace_bwd_data_sizes := store (workspace_bwd_data_sizes a) i 0%N;
     workspace_bwd_filter_sizes := store (workspace_bwd_filter_sizes a) i 0%N |}.

(** cudnn_conv_layer.cpp, lines 66-79: the body of the second loop. *)
Definition create_input_descs (i : nat) (d : Descs) : Run Descs :=
  bottom_desc <- createTensor4dDesc ;;
  top_desc <- createTensor4dDesc ;;
  fwd_conv_desc <- createConvolutionDesc ;;
  bwd_conv_desc <- createConvolutionDesc ;;
  ret {| bottom_descs := bottom_descs d ++ [bottom_desc];
         top_descs := top_descs d ++ [top_desc];
         fwd_conv_descs := fwd_conv_descs d ++ [fwd_conv_desc];
         bwd_conv_descs := bwd_conv_descs d ++ [bwd_conv_desc] |}.

(** cudnn_conv_layer.cpp, lines 18-84: everything [LayerSetUp] does before
    it sets [handles_setup_]. *)
Definition LayerSetUp_resources (l : CuDNNConvolutionLayer)
    (bottom top : list Shape) : Run CuDNNConvolutionLayer :=
  b <- call_base (base_LayerSetUp (conv l) bottom top) ;;
  let size := length bottom in
  fwd_algo_' <- new_array size ;;
  bwd_filter_algo_' <- new_array size ;;
  bwd_data_algo_' <- new_array size ;;
  workspace_fwd_sizes_' <- new_array size ;;
  workspace_bwd_filter_sizes_' <- new_array size ;;
  workspace_bwd_data_sizes_' <- new_array size ;;
  let a := foldl init_input
             {| fwd_algo := fwd_algo_';
                bwd_filter_algo := bwd_filter_algo_';
                bwd_data_algo := bwd_data_algo_';
                workspace_fwd_sizes := workspace_fwd_sizes_';
                workspace_bwd_filter_sizes := workspace_bwd_filter_sizes_';
                workspace_bwd_data_sizes := workspace_bwd_data_sizes_' |}
             (seq 0 size) in
  let bias_offset := num_output_ b `quot` group_ b in
  kernel_h <- at_index (kernel_shape_ b) 0 ;;
  kernel_w <- at_index (kernel_shape_ b) 1 ;;
  fwd_filter_desc <-
    createFilterDesc (num_output_ b `quot` group_ b)
      (channels_ b `quot` group_ b) kernel_h kernel_w ;;
  bwd_filter_desc <-
    createFilterDesc (num_output_ b `quot` group_ b)
      (channels_ b `quot` group_ b) kernel_h kernel_w ;;
  let weight_offset :=
    (num_output_ b `quot` group_ b) * (channels_ b `quot` group_ b)
    * kernel_h * kernel_w in
  d <- for_loop size create_input_descs
         {| bottom_descs := bottom_descs_ l;
            top_descs := top_descs_ l;
            fwd_conv_descs := fwd_conv_descs_ l;
            bwd_conv_descs := bwd_conv_descs_ l |} ;;
  bias_desc <-
    (if bias_term_ b
     then h <- createTensor4dDesc ;; ret (Some h)
     else ret (bias_desc_ l)) ;;
  ret {| conv := set_weight_offset_ b weight_offset;
         handles_setup_ := handles_setup_ l;
         fwd_algo_ := Some (fwd_algo a);
         bwd_filter_algo_ := Some (bwd_filter_algo a);
         bwd_data_algo_ := Some (bwd_data_algo a);
         workspace_fwd_sizes_ := Some (workspace_fwd_sizes a);
         workspace_bwd_filter_sizes_ := Some (workspace_bwd_filter_sizes a);
         workspace_bwd_data_sizes_ := Some (workspace_bwd_data_sizes a);
         workspaceSizeInBytes := 0%N;
         workspaceData := None;
         bottom_descs_ := bottom_descs d;
         top_descs_ := top_descs d;
         fwd_conv_descs_ := fwd_conv_descs d;
         bwd_conv_descs_ := bwd_conv_descs d;
         fwd_filter_desc_ := Some fwd_filter_desc;
         bwd_filter_desc_ := Some bwd_filter_desc;
         bias_desc_ := bias_desc;
         bias_offset_ := bias_offset;
         bottom_offset_ := bottom_offset_ l;
         top_offset_ := top_offset_ l |}.

(** cudnn_conv_layer.cpp, lines 18-87. *)
Definition LayerSetUp (l : CuDNNConvolutionLayer) (bottom top : list Shape)
    : Run CuDNNConvolutionLayer :=
  l' <- LayerSetUp_resources l bottom top ;;
  ret (set_handles_setup_ l' true).

(** The message of the CHECK in [Reshape]. *)
Definition spatial_axes_message : string :=
  "CuDNNConvolution input must have 2 spatial axes (e.g., height and width). Use 'engine: CAFFE' for general ND convolution.".

(** Modelled from the spec: [Blob::shape(index)] is declared in blob.hpp,
    which is not among the sources; it answers the extent of one axis, a
    negative index counting from the end, and an index out of range is
    fatal. *)
Definition Blob_shape (s : Shape) (index : Z) : Run Z :=
  let n := Z.of_nat (length s) in
  if decide (- n <= index < n) then
    at_index s (Z.to_nat (if decide (index < 0) then index + n else index))
  else fatal ShapeIndexFailed.

(** The six array pointers, as the loop of [Reshape] writes through
    them. *)
Record PerInputPtrs := {
  fwd_algo_p : option (Array nat);
  bwd_filter_algo_p : option (Array nat);
  bwd_data_algo_p : option (Array nat);
  workspace_fwd_sizes_p : option (Array N);
  workspace_bwd_filter_sizes_p : option (Array N);
  workspace_bwd_data_sizes_p : option (Array N);
}.

Definition store_at {A} (p : option (Array A)) (i : nat) (v : A)
    : Run (option (Array A)) :=
  a <- deref p ;; ret (Some (store a i v)).

(** cudnn_conv_layer.cpp, lines 115-177: the body of the loop of
    [Reshape], for the layer [l] whose base members are [b]. *)
Definition reshape_input (l : CuDNNConvolutionLayer) (b : ConvolutionLayer)
    (height width height_out width_out pad_h pad_w stride_h stride_w : Z)
    (workspace_limit_bytes : N) (i : nat) (a : PerInputPtrs)
    : Run PerInputPtrs :=
  bottom_desc <- at_index (bottom_descs_ l) i ;;
  setTensor4dDesc bottom_desc (num_ b) (channels_ b `quot` group_ b)
    height width (channels_ b * height * width) (height * width) width 1 ;;;
  top_desc <- at_index (top_descs_ l) i ;;
  setTensor4dDesc top_desc (num_ b) (num_output_ b `quot` group_ b)
    height_out width_out (num_output_ b * out_spatial_dim_ b)
    (out_spatial_dim_ b) width_out 1 ;;;
  fwd_conv_desc <- at_index (fwd_conv_descs_ l) i ;;
  fwd_filter_desc <- deref (fwd_filter_desc_ l) ;;
  setConvolutionDesc fwd_conv_desc bottom_desc fwd_filter_desc
    pad_h pad_w stride_h stride_w ;;;
  algo <- cudnnGetConvolutionForwardAlgorithm i workspace_limit_bytes ;;
  fwd_algo' <- store_at (fwd_algo_p a) i algo ;;
  size <- cudnnGetConvolutionForwardWorkspaceSize i algo ;;
  workspace_fwd_sizes' <- store_at (workspace_fwd_sizes_p a) i size ;;
  bwd_conv_desc <- at_index (bwd_conv_descs_ l) i ;;
  bwd_filter_desc <- deref (bwd_filter_desc_ l) ;;
  setConvolutionDesc bwd_conv_desc bottom_desc bwd_filter_desc
    pad_h pad_w stride_h stride_w ;;;
  algo_f <- cudnnGetConvolutionBackwardFilterAlgorithm i workspace_limit_bytes ;;
  bwd_filter_algo' <- store_at (bwd_filter_algo_p a) i algo_f ;;
  size_f <- cudnnGetConvolutionBackwardFilterWorkspaceSize i algo_f ;;
  workspace_bwd_filter_sizes' <-
    store_at (workspace_bwd_filter_sizes_p a) i size_f ;;
  algo_d <- cudnnGetConvolutionBackwardDataAlgorithm i workspace_limit_bytes ;;
  bwd_data_algo' <- store_at (bwd_data_algo_p a) i algo_d ;;
  size_d <- cudnnGetConvolutionBackwardDataWorkspaceSize i algo_d ;;
  workspace_bwd_data_sizes' <-
    store_at (workspace_bwd_data_sizes_p a) i size_d ;;
  ret {| fwd_algo_p := fwd_algo';
         bwd_filter_algo_p := bwd_filter_algo';
         bwd_data_algo_p := bwd_data_algo';
         workspace_fwd_sizes_p := workspace_fwd_sizes';
         workspace_bwd_filter_sizes_p := workspace_bwd_filter_sizes';
         workspace_bwd_data_sizes_p := workspace_bwd_data_sizes' |}.

(** cudnn_conv_layer.cpp, lines 97-183: what [Reshape] does once the
    CHECK on the spatial axes has passed; [b] and [top] are what the base
    class's [Reshape] left. *)
Definition Reshape_configure (l : CuDNNConvolutionLayer) (b : ConvolutionLayer)
    (bottom top : list Shape) : Run CuDNNConvolutionLayer :=
  let bottom_offset := bottom_dim_ b `quot` group_ b in
  let top_offset := top_dim_ b `quot` group_ b in
  bottom0 <- at_index bottom 0 ;;
  height <- Blob_shape bottom0 (channel_axis_ b + 1) ;;
  width <- Blob_shape bottom0 (channel_axis_ b + 2) ;;
  top0 <- at_index top 0 ;;
  height_out <- Blob_shape top0 (channel_axis_ b + 1) ;;
  width_out <- Blob_shape top0 (channel_axis_ b + 2) ;;
  pad_h <- at_index (pad_ b) 0 ;;
  pad_w <- at_index (pad_ b) 1 ;;
  stride_h <- at_index (stride_ b) 0 ;;
  stride_w <- at_index (stride_ b) 1 ;;
  info <- getInfo ;;
  let workspace_limit_bytes := fst info in
  a <- for_loop (length bottom)
         (reshape_input l b height width height_out width_out
            pad_h pad_w stride_h stride_w workspace_limit_bytes)
         {| fwd_algo_p := fwd_algo_ l;
            bwd_filter_algo_p := bwd_filter_algo_ l;
            bwd_data_algo_p := bwd_data_algo_ l;
            workspace_fwd_sizes_p := workspace_fwd_sizes_ l;
            workspace_bwd_filter_sizes_p := workspace_bwd_filter_sizes_ l;
            workspace_bwd_data_sizes_p := workspace_bwd_data_sizes_ l |} ;;
  (if bias_term_ b
   then bias_desc <- deref (bias_desc_ l) ;;
        setTensor4dDesc_packed bias_desc 1 (num_output_ b `quot` group_ b) 1 1
   else ret tt) ;;;
  ret {| conv := b;
         handles_setup_ := handles_setup_ l;
         fwd_algo_ := fwd_algo_p a;
         bwd_filter_algo_ := bwd_filter_algo_p a;
         bwd_data_algo_ := bwd_data_algo_p a;
         workspace_fwd_sizes_ := workspace_fwd_sizes_p a;
         workspace_bwd_filter_sizes_ := workspace_bwd_filter_sizes_p a;
         workspace_bwd_data_sizes_ := workspace_bwd_data_sizes_p a;
         workspaceSizeInBytes := workspaceSizeInBytes l;
         workspaceData := workspaceData l;
         bottom_descs_ := bottom_descs_ l;
         top_descs_ := top_descs_ l;
         fwd_conv_descs_ := fwd_conv_descs_ l;
         bwd_conv_descs_ := bwd_conv_descs_ l;
         fwd_filter_desc_ := fwd_filter_desc_ l;
         bwd_filter_desc_ := bwd_filter_desc_ l;
         bias_desc_ := bias_desc_ l;
         bias_offset_ := bias_offset_ l;
         bottom_offset_ := bottom_offset;
         top_offset_ := top_offset |}.

(** cudnn_conv_layer.cpp, lines 89-184.  The result is the layer and the
    top blobs' shapes after the call. *)
Definition Reshape (l : CuDNNConvolutionLayer) (bottom top : list Shape)
    : Run (CuDNNConvolutionLayer * list Shape) :=
  r <- call_base (base_Reshape (conv l) bottom top) ;;
  let b := fst r in
  let top := snd r in
  CHECK_EQ 2 (num_spatial_axes_ b) spatial_axes_message ;;;
  l' <- Reshape_configure l b bottom top ;;
  ret (l', top).

(** cudnn_conv_layer.cpp, lines 191-196: the body of the destructor's
    loop. *)
Definition destroy_input_descs (l : CuDNNConvolutionLayer) (i : nat) (_ : unit)
    : Run unit :=
  bottom_desc <- at_index (bottom_descs_ l) i ;;
  cudnnDestroyTensorDescriptor bottom_desc ;;;
  top_desc <- at_index (top_descs_ l) i ;;
  cudnnDestroyTensorDescriptor top_desc ;;;
  fwd_conv_desc <- at_index (fwd_conv_descs_ l) i ;;
  cudnnDestroyConvolutionDescriptor fwd_conv_desc ;;;
  bwd_conv_desc <- at_index (bwd_conv_descs_ l) i ;;
  cudnnDestroyConvolutionDescriptor bwd_conv_desc.

(** cudnn_conv_layer.cpp, lines 186-212: [~CuDNNConvolutionLayer].  The
    result is the layer's members as the destructor leaves them. *)
Definition Destructor (l : CuDNNConvolutionLayer) : Run CuDNNConvolutionLayer :=
  if negb (handles_setup_ l) then ret l
  else
    for_loop (length (bottom_descs_ l)) (destroy_input_descs l) tt ;;;
    (if bias_term_ (conv l)
     then bias_desc <- deref (bias_desc_ l) ;;
          cudnnDestroyTensorDescriptor bias_desc
     else ret tt) ;;;
    fwd_filter_desc <- deref (fwd_filter_desc_ l) ;;
    cudnnDestroyFilterDescriptor fwd_filter_desc ;;;
    bwd_filter_desc <- deref (bwd_filter_desc_ l) ;;
    cudnnDestroyFilterDescriptor bwd_filter_desc ;;;
    delete_array (fwd_algo_ l) ;;;
    delete_array (bwd_filter_algo_ l) ;;;
    delete_array (bwd_data_algo_ l) ;;;
    delete_array (workspace_fwd_sizes_ l) ;;;
    delete_array (workspace_bwd_data_sizes_ l) ;;;
    delete_array (workspace_bwd_filter_sizes_ l) ;;;
    deallocate (workspaceData l) ;;;
    ret (set_workspaceData l None).

(** ** What a layer owns

    The descriptors and arrays the destructor gives back, in its order;
    the scratch buffer is kept apart, since it may be null. *)
Fixpoint input_descs (bd td fc bc : list nat) : list (nat * Kind) :=
  match bd, td, fc, bc with
  | b :: bd', t :: td', f :: fc', c :: bc' =>
      (b, TensorDescriptor) :: (t, TensorDescriptor)
      :: (f, ConvolutionDescriptor) :: (c, ConvolutionDescriptor)
      :: input_descs bd' td' fc' bc'
  | _, _, _, _ => []
  end.

Definition handle_of (k : Kind) (p : option nat) : list (nat * Kind) :=
  match p with
  | Some h => [(h, k)]
  | None => []
  end.

Definition array_of {A} (p : option (Array A)) : list (nat * Kind) :=
  match p with
  | Some a => [(addr a, HostArray)]
  | None => []
  end.

Definition owned (l : CuDNNConvolutionLayer) : list (nat * Kind) :=
  input_descs (bottom_descs_ l) (top_descs_ l)
    (fwd_conv_descs_ l) (bwd_conv_descs_ l)
  ++ (if bias_term_ (conv l) then handle_of TensorDescriptor (bias_desc_ l)
      else [])
  ++ handle_of FilterDescriptor (fwd_filter_desc_ l)
  ++ handle_of FilterDescriptor (bwd_filter_desc_ l)
  ++ array_of (fwd_algo_ l)
  ++ array_of (bwd_filter_algo_ l)
  ++ array_of (bwd_data_algo_ l)
  ++ array_of (workspace_fwd_sizes_ l)
  ++ array_of (workspace_bwd_data_sizes_ l)
  ++ array_of (workspace_bwd_filter_sizes_ l).

(** The call that gives a resource back. *)
Definition release_event (r : nat * Kind) : Event :=
  match snd r with
  | TensorDescriptor => DestroyTensorDescriptor (fst r)
  | ConvolutionDescriptor => DestroyConvolutionDescriptor (fst r)
  | FilterDescriptor => DestroyFilterDescriptor (fst r)
  | HostArray => Delete (fst r)
  | DeviceMemory => Deallocate (Some (fst r))
  end.

(** The descriptors a trace creates and destroys. *)
Definition created (e : Event) : list (nat * Kind) :=
  match e with
  | CreateFilterDesc h _ _ _ _ => [(h, FilterDescriptor)]
  | CreateTensor4dDesc h => [(h, TensorDescriptor)]
  | CreateConvolutionDesc h => [(h, ConvolutionDescriptor)]
  | New a _ => [(a, HostArray)]
  | _ => []
  end.

Definition destroyed (e : Event) : list (nat * Kind) :=
  match e with
  | DestroyTensorDescriptor h => [(h, TensorDescriptor)]
  | DestroyConvolutionDescriptor h => [(h, ConvolutionDescriptor)]
  | DestroyFilterDescriptor h => [(h, FilterDescriptor)]
  | Delete a => [(a, HostArray)]
  | Deallocate (Some a) => [(a, DeviceMemory)]
  | _ => []
  end.

(** The value of [p[i]], when the array is allocated, [i] is in range and
    the element is determinate. *)
Definition array_get {A} (p : option (Array A)) (i : nat) : option A :=
  match p with
  | Some a => match elems a !! i with
              | Some (Some v) => Some v
              | _ => None
              end
  | None => None
  end.

(** [grows rs w w']: from [w] to [w'] exactly the resources [rs] were
    handed out, in this order, by the calls the trace gained; nothing else
    changed. *)
Definition grows (rs : list (nat * Kind)) (w w' : World) : Prop :=
  rs.*1 = seq (next w) (length rs)
  /\ next w' = (next w + length rs)%nat
  /\ (forall h k, (h, k) ∈ rs -> live w' !! h = Some k)
  /\ (forall x, x ∉ rs.*1 -> live w' !! x = live w !! x)
  /\ exists evs, trace w' = trace w ++ evs /\ evs ≫= created = rs.

(** Give back the resources of a list, in order. *)
Fixpoint release_all (rs : list (nat * Kind)) : Run unit :=
  match rs with
  | [] => ret tt
  | r :: rest => release (snd r) (fst r) (release_event r) ;;; release_all rest
  end.

(** A layer whose members are all set up, and the resources it owns in a
    world: they are distinct and live. *)
Definition complete (l : CuDNNConvolutionLayer) : Prop :=
  length (top_descs_ l) = length (bottom_descs_ l)
  /\ length (fwd_conv_descs_ l) = length (bottom_descs_ l)
  /\ length (bwd_conv_descs_ l) = length (bottom_descs_ l)
  /\ (bias_term_ (conv l) = true -> is_Some (bias_desc_ l))
  /\ is_Some (fwd_filter_desc_ l) /\ is_Some (bwd_filter_desc_ l)
  /\ is_Some (fwd_algo_ l) /\ is_Some (bwd_filter_algo_ l)
  /\ is_Some (bwd_data_algo_ l) /\ is_Some (workspace_fwd_sizes_ l)
  /\ is_Some (workspace_bwd_data_sizes_ l)
  /\ is_Some (workspace_bwd_filter_sizes_ l).

Definition owns (l : CuDNNConvolutionLayer) (w : World) : Prop :=
  complete l
  /\ NoDup ((owned l ++ handle_of DeviceMemory (workspaceData l)).*1)
  /\ (forall h k, (h, k) ∈ owned l ++ handle_of DeviceMemory (workspaceData l) ->
        live w !! h = Some k).

End Members.

(** ** Predicates on runs and on the per-input arrays *)

(** [errors_in E m]: whenever [m] is fatal, its error satisfies [E]. *)
Definition errors_in {X} (E : Error -> Prop) (m : Run X) : Prop :=
  forall w e w', m w = Fatal e w' -> E e.

(** An error other than a failed [CHECK] of this layer. *)
Definition not_check_failure (e : Error) : Prop :=
  forall msg, e <> CheckFailed msg.

(** Element [i] of each of the six arrays holds its default. *)
Definition initialised (a : PerInput) (i : nat) : Prop :=
  elems (fwd_algo a) !! i = Some (Some 0%nat)
  /\ elems (bwd_filter_algo a) !! i = Some (Some 0%nat)
  /\ elems (bwd_data_algo a) !! i = Some (Some 0%nat)
  /\ elems (workspace_fwd_sizes a) !! i = Some (Some 0%N)
  /\ elems (workspace_bwd_filter_sizes a) !! i = Some (Some 0%N)
  /\ elems (workspace_bwd_data_sizes a) !! i = Some (Some 0%N).

(** Each of the six arrays has [n] elements. *)
Definition sized (a : PerInput) (n : nat) : Prop :=
  length (elems (fwd_algo a)) = n
  /\ length (elems (bwd_filter_algo a)) = n
  /\ length (elems (bwd_data_algo a)) = n
  /\ length (elems (workspace_fwd_sizes a)) = n
  /\ length (elems (workspace_bwd_filter_sizes a)) = n
  /\ length (elems (workspace_bwd_data_sizes a)) = n.

(** The six arrays of [a'] are those of [a], possibly written to. *)
Definition same_addrs (a a' : PerInput) : Prop :=
  addr (fwd_algo a') = addr (fwd_algo a)
  /\ addr (bwd_filter_algo a') = addr (bwd_filter_algo a)
  /\ addr (bwd_data_algo a') = addr (bwd_data_algo a)
  /\ addr (workspace_fwd_sizes a') = addr (workspace_fwd_sizes a)
  /\ addr (workspace_bwd_filter_sizes a') = addr (workspace_bwd_filter_sizes a)
  /\ addr (workspace_bwd_data_sizes a') = addr (workspace_bwd_data_sizes a).

(** ** A concrete provider, base class and layer

    Used to run the layer on concrete inputs: a provider that always
    succeeds, a base class that keeps its members, an empty world and a
    freshly constructed layer. *)
Definition steady_provider : Provider := {|
  cudnn_ok := fun _ => true;
  forward_algorithm := fun _ _ _ => 1%nat;
  forward_workspace := fun _ _ _ => 4096%N;
  backward_filter_algorithm := fun _ _ _ => 1%nat;
  backward_filter_workspace := fun _ _ _ => 2048%N;
  backward_data_algorithm := fun _ _ _ => 1%nat;
  backward_data_workspace := fun _ _ _ => 1024%N;
  memory_info := fun _ => (1048576%N, 8388608%N);
|}.

Definition plain_base : Base := {|
  base_LayerSetUp := fun b _ _ => Some b;
  base_Reshape := fun b _ top => Some (b, top);
|}.

Definition empty_world : World := {| live := ∅; next := 0; trace := [] |}.

Definition example_conv (axes : Z) (bias : bool) : ConvolutionLayer := {|
  num_spatial_axes_ := axes;
  channel_axis_ := 1;
  num_ := 1;
  channels_ := 3;
  group_ := 1;
  num_output_ := 8;
  out_spatial_dim_ := 36;
  bottom_dim_ := 192;
  top_dim_ := 288;
  bias_term_ := bias;
  kernel_shape_ := [3; 3]%Z;
  pad_ := [0; 0]%Z;
  stride_ := [1; 1]%Z;
  weight_offset_ := 0;
|}.

Definition new_layer (b : ConvolutionLayer) : CuDNNConvolutionLayer := {|
  conv := b;
  handles_setup_ := false;
  fwd_algo_ := None;
  bwd_filter_algo_ := None;
  bwd_data_algo_ := None;
  workspace_fwd_sizes_ := None;
  workspace_bwd_filter_sizes_ := None;
  workspace_bwd_data_sizes_ := None;
  workspaceSizeInBytes := 0;
  workspaceData := None;
  bottom_descs_ := [];
  top_descs_ := [];
  fwd_conv_descs_ := [];
  bwd_conv_descs_ := [];
  fwd_filter_desc_ := None;
  bwd_filter_desc_ := None;
  bias_desc_ := None;
  bias_offset_ := 0;
  bottom_offset_ := 0;
  top_offset_ := 0;
|}.

(** ** Predicates on worlds, providers and layers *)

(** The world an outcome leaves, returned or fatal. *)
Definition world_of {X} (o : Outcome X) : World :=
  match o with
  | Done _ w => w
  | Fatal _ w => w
  end.

(** A call that neither hands out nor gives back a resource. *)
Definition silent (e : Event) : Prop := created e = [] /\ destroyed e = [].

(** [same_resources w w']: from [w] to [w'] the live resources and the
    next fresh identity are unchanged, and the trace gained silent calls
    only. *)
Definition same_resources (w w' : World) : Prop :=
  live w' = live w /\ next w' = next w
  /\ exists evs, trace w' = trace w ++ evs /\ Forall silent evs.

(** [quiet m]: [m] leaves the resources as they are, whether it returns or
    fails. *)
Definition quiet {X} (m : Run X) : Prop :=
  forall w, same_resources w (world_of (m w)).

(** A provider none of whose calls fails. *)
Definition never_fails (P : Provider) : Prop :=
  forall w, cudnn_ok w = true.

(** [Blob::shape] accepts the axis [index] of a blob of shape [s]. *)
Definition valid_axis (s : Shape) (index : Z) : Prop :=
  (- Z.of_nat (length s) <= index < Z.of_nat (length s))%Z.

(** The array behind [p] is allocated with at least [n] elements. *)
Definition allocated {A} (p : option (Array A)) (n : nat) : Prop :=
  exists a, p = Some a /\ (n <= length (elems a))%nat.

(** A layer with descriptors and arrays for [n] inputs. *)
Definition ready (l : CuDNNConvolutionLayer) (n : nat) : Prop :=
  (n <= length (bottom_descs_ l))%nat
  /\ (n <= length (top_descs_ l))%nat
  /\ (n <= length (fwd_conv_descs_ l))%nat
  /\ (n <= length (bwd_conv_descs_ l))%nat
  /\ is_Some (fwd_filter_desc_ l)
  /\ is_Some (bwd_filter_desc_ l)
  /\ allocated (fwd_algo_ l) n
  /\ allocated (bwd_filter_algo_ l) n
  /\ allocated (bwd_data_algo_ l) n
  /\ allocated (workspace_fwd_sizes_ l) n
  /\ allocated (workspace_bwd_filter_sizes_ l) n
  /\ allocated (workspace_bwd_data_sizes_ l) n.

(** The failures of [Reshape] that are CHECKs on its arguments: of the
    base class, of this layer, of [Blob::shape]. *)
Definition argument_check (e : Error) : Prop :=
  e = BaseFailed \/ (exists msg, e = CheckFailed msg) \/ e = ShapeIndexFailed.

(** The failures that arise once provider calls are under way. *)
Definition late_failure (e : Error) : Prop :=
  (exists ev, e = ProviderFailed ev) \/ e = Undefined.

(** [chosen algos sizes algo_call size_call evs i]: element [i] of the two
    arrays holds an algorithm and a workspace size that the provider
    answered in the calls [evs], the size being the one asked for that
    algorithm. *)
Definition chosen (algos : option (Array nat)) (sizes : option (Array N))
    (algo_call : nat -> Event) (size_call : nat -> N -> Event)
    (evs : list Event) (i : nat) : Prop :=
  exists algo size,
    array_get algos i = Some algo
    /\ array_get sizes i = Some size
    /\ In (algo_call algo) evs
    /\ In (size_call algo size) evs.

(** The six arrays behind the pointers are allocated for [n] inputs. *)
Definition ptrs_allocated (a : PerInputPtrs) (n : nat) : Prop :=
  allocated (fwd_algo_p a) n
  /\ allocated (bwd_filter_algo_p a) n
  /\ allocated (bwd_data_algo_p a) n
  /\ allocated (workspace_fwd_sizes_p a) n
  /\ allocated (workspace_bwd_filter_sizes_p a) n
  /\ allocated (workspace_bwd_data_sizes_p a) n.

(** The pointers of [a'] point where those of [a] do. *)
Definition same_arrays (a a' : PerInputPtrs) : Prop :=
  array_of (fwd_algo_p a') = array_of (fwd_algo_p a)
  /\ array_of (bwd_filter_algo_p a') = array_of (bwd_filter_algo_p a)
  /\ array_of (bwd_data_algo_p a') = array_of (bwd_data_algo_p a)
  /\ array_of (workspace_fwd_sizes_p a') = array_of (workspace_fwd_sizes_p a)
  /\ array_of (workspace_bwd_filter_sizes_p a')
     = array_of (workspace_bwd_filter_sizes_p a)
  /\ array_of (workspace_bwd_data_sizes_p a')
     = array_of (workspace_bwd_data_sizes_p a).

(** Element [i] of each array of [a'] is what it is in [a]. *)
Definition same_at (a a' : PerInputPtrs) (i : nat) : Prop :=
  array_get (fwd_algo_p a') i = array_get (fwd_algo_p a) i
  /\ array_get (bwd_filter_algo_p a') i = array_get (bwd_filter_algo_p a) i
  /\ array_get (bwd_data_algo_p a') i = array_get (bwd_data_algo_p a) i
  /\ array_get (workspace_fwd_sizes_p a') i = array_get (workspace_fwd_sizes_p a) i
  /\ array_get (workspace_bwd_filter_sizes_p a') i
     = array_get (workspace_bwd_filter_sizes_p a) i
  /\ array_get (workspace_bwd_data_sizes_p a') i
     = array_get (workspace_bwd_data_sizes_p a) i.

(** The three choices [Reshape] makes for input [i] under the workspace
    limit [limit]. *)
Definition chosen_all (a : PerInputPtrs) (limit : N) (evs : list Event)
    (i : nat) : Prop :=
  chosen (fwd_algo_p a) (workspace_fwd_sizes_p a)
    (GetConvolutionForwardAlgorithm i limit)
    (GetConvolutionForwardWorkspaceSize i) evs i
  /\ chosen (bwd_filter_algo_p a) (workspace_bwd_filter_sizes_p a)
       (GetConvolutionBackwardFilterAlgorithm i limit)
       (GetConvolutionBackwardFilterWorkspaceSize i) evs i
  /\ chosen (bwd_data_algo_p a) (workspace_bwd_data_sizes_p a)
       (GetConvolutionBackwardDataAlgorithm i limit)
       (GetConvolutionBackwardDataWorkspaceSize i) evs i.

(** The array pointers of a layer. *)
Definition ptrs_of (l : CuDNNConvolutionLayer) : PerInputPtrs :=
  {| fwd_algo_p := fwd_algo_ l;
     bwd_filter_algo_p := bwd_filter_algo_ l;
     bwd_data_algo_p := bwd_data_algo_ l;
     workspace_fwd_sizes_p := workspace_fwd_sizes_ l;
     workspace_bwd_filter_sizes_p := workspace_bwd_filter_sizes_ l;
     workspace_bwd_data_sizes_p := workspace_bwd_data_sizes_ l |}.

(** [returns m w]: run in the world [w], [m] returns. *)
Definition returns {X} (m : Run X) (w : World) : Prop :=
  exists a w', m w = Done a w'.

(** [pure m]: [m] leaves the world as it is, whether it returns or
    fails. *)
Definition pure {X} (m : Run X) : Prop :=
  forall w, world_of (m w) = w.

(** [classified m]: a failure of [m] is either a CHECK on the arguments,
    raised in the world the call started in, or a late failure. *)
Definition classified {X} (m : Run X) : Prop :=
  forall w e w',
    m w = Fatal e w' -> (argument_check e /\ w' = w) \/ late_failure e.

(** A value that fits the 32-bit [int] of the source. *)
Definition fits_int (z : Z) : Prop := (- 2 ^ 31 <= z < 2 ^ 31)%Z.

(** [configured l b height width height_out width_out pad_h pad_w stride_h
    stride_w evs i]: among the calls [evs], the descriptors of input [i]
    were configured as the loop of [Reshape] does (lines 116-128 and
    148-149). *)
Definition configured (l : CuDNNConvolutionLayer) (b : ConvolutionLayer)
    (height width height_out width_out pad_h pad_w stride_h stride_w : Z)
    (evs : list Event) (i : nat) : Prop :=
  exists bd td fc bc ff bf,
    bottom_descs_ l !! i = Some bd /\ top_descs_ l !! i = Some td
    /\ fwd_conv_descs_ l !! i = Some fc /\ bwd_conv_descs_ l !! i = Some bc
    /\ fwd_filter_desc_ l = Some ff /\ bwd_filter_desc_ l = Some bf
    /\ In (SetTensor4dDesc bd (num_ b) (channels_ b `quot` group_ b)
             height width (channels_ b * height * width) (height * width)
             width 1) evs
    /\ In (SetTensor4dDesc td (num_ b) (num_output_ b `quot` group_ b)
             height_out width_out (num_output_ b * out_spatial_dim_ b)
             (out_spatial_dim_ b) width_out 1) evs
    /\ In (SetConvolutionDesc fc bd ff pad_h pad_w stride_h stride_w) evs
    /\ In (SetConvolutionDesc bc bd bf pad_h pad_w stride_h stride_w) evs.

End CuDNNConv.

(* ===================================================================== *)
(** * PowerLayer: properties                                              *)
(* ===================================================================== *)

Module PowerTheory.
Import Power.

(** *** The helpers on buffers of [N] elements *)

Section Buffers.
Context {M : Type}.

Lemma vec_unary_length (f : M -> M) N a y :
  length (vec_unary f N a y) = length y.
Proof.
  revert a y. induction N as [|n IH]; intros [|x a] [|y0 y]; simpl; auto.
Qed.

Lemma vec_binary_length (f : M -> M -> M) N a b y :
  length (vec_binary f N a b y) = length y.
Proof.
  revert a b y.
  induction N as [|n IH]; intros [|x a] [|x' b] [|y0 y]; simpl; auto.
Qed.

Lemma vec_unary_map (f : M -> M) N a y :
  length a = N -> length y = N -> vec_unary f N a y = map f a.
Proof.
  revert a y. induction N as [|n IH]; intros [|x a] [|y0 y]; simpl;
    try discriminate; auto.
  intros [= Ha] [= Hy]. f_equal. auto.
Qed.

Lemma vec_binary_zip_with (f : M -> M -> M) N a b y :
  length a = N -> length b = N -> length y = N ->
  vec_binary f N a b y = zip_with f a b.
Proof.
  revert a b y.
  induction N as [|n IH]; intros [|x a] [|x' b] [|y0 y]; simpl;
    try discriminate; auto.
  intros [= Ha] [= Hb] [= Hy]. f_equal. auto.
Qed.

Lemma caffe_set_replicate N (alpha : M) Y :
  length Y = N -> caffe_set N alpha Y = replicate N alpha.
Proof.
  revert Y. induction N as [|n IH]; intros [|y0 Y]; simpl;
    try discriminate; auto.
  intros [= HY]. f_equal. auto.
Qed.

Lemma zip_with_replicate_r (f : M -> M -> M) (a : list M) (c : M) :
  zip_with f a (replicate (length a) c) = map (fun t => f t c) a.
Proof. induction a as [|x a IH]; simpl; [|rewrite IH]; reflexivity. Qed.

End Buffers.

(** Side conditions on buffer lengths. *)
Ltac buffer_length :=
  repeat first
    [ rewrite vec_unary_length | rewrite vec_binary_length
    | rewrite length_zip_with | rewrite List.length_map
    | rewrite length_replicate ];
  unfold shaped_like, blob_wf, count in *; lia.

Section Generic.
Context {M : Type} {A : Arith M}.
Local Open Scope mtype_scope.

(** *** [Forward_cpu], element by element *)

Section Forward.
Context {P : Libm M}.

Lemma Forward_cpu_constant_data (L : PowerLayer M) bottom top :
  (diff_scale_ L == M0) = true ->
  count top = count bottom ->
  cpu_data (Forward_cpu L bottom top) =
    replicate (count bottom)
      (if power_ L == M0 then M1 else pow (shift_ L) (power_ L)).
Proof.
  intros Hd Hc. unfold Forward_cpu. rewrite Hd. simpl.
  by apply caffe_set_replicate.
Qed.

Lemma Forward_cpu_data (L : PowerLayer M) bottom top :
  (diff_scale_ L == M0) = false ->
  count top = count bottom ->
  cpu_data (Forward_cpu L bottom top) = map (forward_elem L) (cpu_data bottom).
Proof.
  intros Hd Hc. unfold Forward_cpu, forward_elem, pow_step, shift_step, scale_step.
  rewrite Hd. unfold count in *.
  unfold caffe_copy, caffe_scal, caffe_add_scalar, caffe_powx.
  rewrite (vec_unary_map _ _ (cpu_data bottom) (cpu_data top)) by buffer_length.
  rewrite List.map_id.
  destruct (scale_ L != M1), (shift_ L != M0), (power_ L != M1);
    cbn [cpu_data set_cpu_data];
    rewrite ?vec_unary_map by buffer_length;
    rewrite ?List.map_map, ?List.map_id; reflexivity.
Qed.

Lemma Forward_unconditional_data (L : PowerLayer M) bottom top :
  count top = count bottom ->
  cpu_data (Forward_unconditional L bottom top) =
    map (fun x => pow (scale_ L * x + shift_ L) (power_ L)) (cpu_data bottom).
Proof.
  intros Hc. unfold Forward_unconditional. unfold count in *.
  unfold caffe_copy, caffe_scal, caffe_add_scalar, caffe_powx.
  cbn [cpu_data set_cpu_data].
  rewrite (vec_unary_map _ _ (cpu_data bottom) (cpu_data top)) by buffer_length.
  rewrite List.map_id.
  rewrite !vec_unary_map by buffer_length.
  rewrite !List.map_map. reflexivity.
Qed.

Lemma Forward_cpu_frame (L : PowerLayer M) bottom top :
  cpu_diff (Forward_cpu L bottom top) = cpu_diff top.
Proof. unfold Forward_cpu. by destruct (diff_scale_ L == M0). Qed.

Lemma Forward_unconditional_frame (L : PowerLayer M) bottom top :
  cpu_diff (Forward_unconditional L bottom top) = cpu_diff top.
Proof. reflexivity. Qed.

End Forward.

(** *** [Backward_cpu], element by element *)

Lemma map_zip_with (g : M -> M) (f : M -> M -> M) a b :
  map g (zip_with f a b) = zip_with (fun u v => g (f u v)) a b.
Proof.
  revert b. induction a as [|x a IH]; intros [|x' b]; simpl; auto.
  by rewrite IH.
Qed.

Lemma zip_with_map_r (f : M -> M -> M) (g : M -> M) a b :
  zip_with f a (map g b) = zip_with (fun u v => f u (g v)) a b.
Proof.
  revert b. induction a as [|x a IH]; intros [|x' b]; simpl; auto.
  by rewrite IH.
Qed.

Lemma dydx_power2_data (L : PowerLayer M) N bottom_data bottom_diff :
  length bottom_data = N -> length bottom_diff = N ->
  dydx_power2 L N bottom_data bottom_diff =
    zip_with (power2_elem L) bottom_data bottom_diff.
Proof.
  intros Hx Hd. unfold dydx_power2, power2_elem, caffe_cpu_axpby, caffe_add_scalar.
  rewrite vec_binary_zip_with by buffer_length.
  destruct (shift_ L != M0); [|done].
  rewrite vec_unary_map by buffer_length.
  by rewrite map_zip_with.
Qed.

Lemma dydx_shift0_data (L : PowerLayer M) N top_data bottom_data bottom_diff :
  length top_data = N -> length bottom_data = N -> length bottom_diff = N ->
  dydx_shift0 L N top_data bottom_data bottom_diff =
    zip_with (shift0_elem L) top_data bottom_data.
Proof.
  intros Hy Hx Hd. unfold dydx_shift0, shift0_elem, caffe_div, caffe_scal.
  rewrite vec_binary_zip_with by buffer_length.
  rewrite vec_unary_map by buffer_length.
  by rewrite map_zip_with.
Qed.

Lemma dydx_general_data (L : PowerLayer M) N top_data bottom_data bottom_diff :
  length top_data = N -> length bottom_data = N -> length bottom_diff = N ->
  dydx_general L N top_data bottom_data bottom_diff =
    zip_with (general_elem L) top_data bottom_data.
Proof.
  intros Hy Hx Hd.
  unfold dydx_general, general_elem, shift_step, scale_step.
  unfold caffe_copy, caffe_scal, caffe_add_scalar, caffe_div.
  rewrite (vec_unary_map _ _ bottom_data bottom_diff) by buffer_length.
  rewrite List.map_id.
  destruct (scale_ L != M1), (shift_ L != M0), (diff_scale_ L != M1);
    rewrite ?vec_unary_map by buffer_length;
    rewrite ?List.map_map;
    rewrite vec_binary_zip_with by buffer_length;
    rewrite ?map_zip_with, ?zip_with_map_r; reflexivity.
Qed.

Lemma Backward_cpu_frame (L : PowerLayer M) top pd bottom :
  cpu_data (Backward_cpu L top pd bottom) = cpu_data bottom.
Proof. unfold Backward_cpu. by destruct (pd !! 0%nat) as [[]|]. Qed.

Lemma Backward_cpu_constant_diff (L : PowerLayer M) top pd bottom :
  pd !! 0%nat = Some true ->
  (diff_scale_ L == M0) = true ->
  blob_wf bottom ->
  cpu_diff (Backward_cpu L top pd bottom) =
    replicate (count bottom) (diff_scale_ L).
Proof.
  intros Hpd Hd Hwf. unfold Backward_cpu. rewrite Hpd, Hd. simpl.
  by apply caffe_set_replicate.
Qed.

Lemma Backward_cpu_power_one_diff (L : PowerLayer M) top pd bottom :
  pd !! 0%nat = Some true ->
  (power_ L == M1) = true ->
  (diff_scale_ L == M0) = false ->
  blob_wf bottom ->
  length (cpu_diff top) = count bottom ->
  cpu_diff (Backward_cpu L top pd bottom) =
    map (fun t => t * diff_scale_ L) (cpu_diff top).
Proof.
  intros Hpd Hp Hd Hwf Ht. unfold Backward_cpu. rewrite Hpd, Hp, Hd. simpl.
  unfold caffe_mul. rewrite caffe_set_replicate by buffer_length.
  rewrite vec_binary_zip_with by buffer_length.
  rewrite <- Ht. apply zip_with_replicate_r.
Qed.

Lemma Blob_eq (b b' : Blob M) :
  cpu_data b = cpu_data b' -> cpu_diff b = cpu_diff b' -> b = b'.
Proof. destruct b, b'; simpl; congruence. Qed.

End Generic.

(** ** Binary64 arithmetic

    What the skips of [Forward_cpu] rely on, read off the specification of
    the primitive floating-point operations (SpecFloat). *)

Section Binary64Facts.
Local Open Scope Z_scope.

Lemma SFeqb_true (a b : spec_float) :
  SFeqb a b = true ->
  a = b \/ exists s s', a = S754_zero s /\ b = S754_zero s'.
Proof.
  unfold SFeqb.
  destruct a as [s|s| |s m e], b as [s'|s'| |s' m' e']; simpl;
    try discriminate; try (destruct s; discriminate);
    try (destruct s'; discriminate).
  - right; eauto.
  - destruct s, s'; try discriminate; auto.
  - intros H. left.
    assert (e = e' /\ m = m') as [-> ->]; [|by destruct s, s'].
    destruct s, s'; try discriminate;
      destruct (Z.compare_spec e e') as [->| |]; try discriminate;
      split; auto;
      destruct (Pos.compare_cont Eq m m') eqn:Hc; try discriminate;
      by apply Pos.compare_eq in Hc.
Qed.

Lemma SFeqb_refl (a : spec_float) : a <> S754_nan -> SFeqb a a = true.
Proof.
  unfold SFeqb. destruct a as [s|s| |s m e]; simpl; try done.
  - by destruct s.
  - intros _. rewrite Z.compare_refl.
    change (Pos.compare_cont Eq m m) with (Pos.compare m m).
    rewrite Pos.compare_refl. by destruct s.
Qed.

(** [x == y] holds only for equal numbers, +0 and -0 counting as equal. *)
Lemma f64_eq_true (x y : float) :
  (x =? y)%float = true ->
  x = y \/ exists s s', Prim2SF x = S754_zero s /\ Prim2SF y = S754_zero s'.
Proof.
  rewrite FloatAxioms.eqb_spec. intros [H|H]%SFeqb_true; [left|right]; auto.
  by apply Prim2SF_inj.
Qed.

Lemma f64_eq_one (x : float) : (x =? 1)%float = true -> x = 1%float.
Proof.
  intros [H|(s & s' & _ & H)]%f64_eq_true; [done|].
  vm_compute in H. discriminate.
Qed.

Lemma f64_eq_zero (x : float) :
  (x =? 0)%float = true -> x = 0%float \/ x = (-0)%float.
Proof.
  intros [H|(s & s' & H & _)]%f64_eq_true; [by left|].
  destruct s; [right|left]; by apply Prim2SF_inj.
Qed.

Lemma f64_is_nan (x : float) : is_nan x = true -> x = nan.
Proof.
  unfold is_nan. rewrite FloatAxioms.eqb_spec. intros H.
  apply Prim2SF_inj. change (Prim2SF nan) with S754_nan.
  destruct (Prim2SF x) as [s|s| |s m e] eqn:Hx; try done;
    rewrite SFeqb_refl in H by done; discriminate.
Qed.

Lemma f64_is_infinity (x : float) :
  is_infinity x = true ->
  ((x <? 0)%float = true /\ x = neg_infinity)
  \/ ((x <? 0)%float = false /\ x = infinity).
Proof.
  unfold is_infinity.
  rewrite FloatAxioms.eqb_spec, abs_spec, ltb_spec.
  change (Prim2SF infinity) with (S754_infinity false).
  change (Prim2SF 0%float) with (S754_zero false).
  destruct (Prim2SF x) as [s|s| |s m e] eqn:Hx; try done.
  intros _. destruct s; [left|right]; (split; [done|]);
    by apply Prim2SF_inj.
Qed.

(** Multiplying by 1 is exact: the product of the mantissa with 2^52 is
    shifted back by 52 bits with nothing lost, so rounding has nothing to
    do. *)
Lemma SFmul_one_l (x : spec_float) :
  valid_binary x = true -> SFmul prec emax (Prim2SF 1%float) x = x.
Proof.
  intros Hv.
  change (Prim2SF 1%float) with (S754_finite false 4503599627370496 (-52)).
  destruct x as [s|s| |s m e]; try reflexivity.
  cbn [SFmul xorb].
  unfold SpecFloat.valid_binary, bounded, canonical_mantissa in Hv.
  apply andb_true_iff in Hv as [Hc He].
  apply Z.eqb_eq in Hc.
  unfold binary_round_aux.
  assert (Hd : Zdigits2 (Z.pos (4503599627370496 * m))
               = Z.pos (digits2_pos m) + 52).
  { cbv [Pos.mul]. cbn [Zdigits2 digits2_pos]. lia. }
  unfold shr_fexp at 1. rewrite Hd.
  replace (Z.pos (digits2_pos m) + 52 + (-52 + e))
    with (Z.pos (digits2_pos m) + e) by lia.
  rewrite Hc.
  replace (e - (-52 + e)) with 52 by lia.
  cbv [Pos.mul]. cbn [shr shr_record_of_loc].
  cbn [SpecFloat.iter_pos shr_1 orb].
  cbn [shr_m loc_of_shr_record shr_r shr_s round_nearest_even].
  replace (-52 + e + 52) with e by lia.
  unfold shr_fexp. cbn [Zdigits2]. rewrite Hc, Z.sub_diag.
  cbn [shr shr_record_of_loc shr_m].
  by rewrite He.
Qed.

Lemma f64_mul_one_l (x : float) : (1 * x)%float = x.
Proof.
  apply Prim2SF_inj. rewrite mul_spec. apply SFmul_one_l, Prim2SF_valid.
Qed.

Lemma SFadd_comm (x y : spec_float) :
  SFadd prec emax x y = SFadd prec emax y x.
Proof.
  destruct x as [s|s| |s m e], y as [s'|s'| |s' m' e']; simpl;
    try reflexivity; try (by destruct s, s').
  by rewrite Z.min_comm, Z.add_comm.
Qed.

Lemma f64_add_comm (x y : float) : (x + y)%float = (y + x)%float.
Proof. apply Prim2SF_inj. rewrite !add_spec. apply SFadd_comm. Qed.

(** Adding a zero returns the other operand, except that -0 + +0 is +0. *)
Lemma f64_add_zero_r (z s : float) :
  (s =? 0)%float = true ->
  (z + s)%float = z \/ (z = (-0)%float /\ s = 0%float).
Proof.
  intros Hs.
  destruct (Prim2SF z) as [b| | |] eqn:Hz.
  - destruct (f64_eq_zero s Hs) as [-> | ->]; destruct b.
    + right. split; [|done]. by apply Prim2SF_inj.
    + left. apply Prim2SF_inj. by rewrite add_spec, Hz.
    + left. apply Prim2SF_inj. by rewrite add_spec, Hz.
    + left. apply Prim2SF_inj. by rewrite add_spec, Hz.
  - left. apply Prim2SF_inj. rewrite add_spec, Hz.
    by destruct (f64_eq_zero s Hs) as [-> | ->].
  - left. apply Prim2SF_inj. rewrite add_spec, Hz.
    by destruct (f64_eq_zero s Hs) as [-> | ->].
  - left. apply Prim2SF_inj. rewrite add_spec, Hz.
    by destruct (f64_eq_zero s Hs) as [-> | ->].
Qed.

End Binary64Facts.

(** [c_pow] returns its base at the exponent 1 as soon as the
    approximation it completes does. *)
Lemma c_pow_one_exact (approx : float -> float -> float) :
  (forall x, approx x 1%float = x) -> pow_one_exact (libm_of approx).
Proof.
  intros Ha p x Hp. apply f64_eq_one in Hp as ->.
  cbn [pow libm_of]. unfold c_pow, pow_special.
  change (is_zero 1) with false. cbn match.
  destruct (x =? 1)%float eqn:H1; [by apply f64_eq_one in H1|].
  change (is_nan 1) with false. rewrite orb_false_r.
  destruct (is_nan x) eqn:Hn; [by apply f64_is_nan in Hn|].
  change (1 <? 0)%float with false.
  change (is_odd_integer 1) with true.
  change (is_infinity 1) with false.
  change (is_integer 1) with true.
  destruct (is_zero x); [done|]. cbn match.
  destruct (is_infinity x) eqn:Hi.
  - by destruct (f64_is_infinity x Hi) as [[-> ->]|[-> ->]].
  - rewrite andb_false_r. apply Ha.
Qed.

Lemma libm_f64_pow_one_exact : pow_one_exact libm_f64.
Proof. apply c_pow_one_exact. reflexivity. Qed.

(** ** The forward pipeline: [diff_scale_ != 0] *)

(** On binary64 the skipped multiply and the skipped pow never change an
    element; the skipped add changes it only where it would turn -0 into
    +0. *)
Lemma lookup_map {X Y} (f : X -> Y) (l : list X) (i : nat) :
  map f l !! i = f <$> l !! i.
Proof.
  revert i. induction l as [|x l IH]; intros [|i]; simpl; auto.
Qed.

Lemma forward_elem_f64 (P : Libm float) (L : PowerLayer float) (x : float) :
  pow_one_exact P ->
  ~ (shift_ L = 0%float /\ (scale_ L * x)%float = (-0)%float) ->
  forward_elem L x = pow (shift_ L + scale_ L * x)%float (power_ L).
Proof.
  intros Hpow Hz. unfold forward_elem.
  assert (Hs : scale_step L x = (scale_ L * x)%float).
  { unfold scale_step. cbn [meq mmul f64 M1].
    destruct (scale_ L =? 1)%float eqn:E; [|done].
    apply f64_eq_one in E as ->. by rewrite f64_mul_one_l. }
  assert (Hh : shift_step L (scale_ L * x)%float
               = (shift_ L + scale_ L * x)%float).
  { unfold shift_step. cbn [meq madd f64 M0].
    rewrite (f64_add_comm (shift_ L)).
    destruct (shift_ L =? 0)%float eqn:E; [|done]. cbn [negb].
    destruct (f64_add_zero_r (scale_ L * x) (shift_ L) E) as [->|[? ?]];
      [done|by destruct Hz]. }
  rewrite Hs, Hh. unfold pow_step.
  destruct (power_ L == M1)%M eqn:E; [|done]. cbn [negb].
  symmetry. by apply Hpow.
Qed.

(** The exceptional element: with [shift] = +0 the add is skipped and an
    element with [scale * x = -0] stays -0, where [shift + scale * x] is
    +0. *)
Lemma forward_elem_f64_signed_zero (P : Libm float) (L : PowerLayer float)
    (x : float) :
  pow_one_exact P ->
  shift_ L = 0%float -> (scale_ L * x)%float = (-0)%float ->
  forward_elem L x = pow (-0)%float (power_ L)
  /\ (shift_ L + scale_ L * x)%float = 0%float.
Proof.
  intros Hpow Hs Hz. split; [|by rewrite Hs, Hz].
  unfold forward_elem.
  assert (Hsc : scale_step L x = (-0)%float).
  { rewrite <- Hz. unfold scale_step. cbn [meq mmul f64 M1].
    destruct (scale_ L =? 1)%float eqn:E; [|done].
    apply f64_eq_one in E as ->. by rewrite f64_mul_one_l. }
  rewrite Hsc. unfold shift_step. cbn [meq madd f64 M0]. rewrite Hs.
  change (0 =? 0)%float with true. cbn [negb].
  unfold pow_step.
  destruct (power_ L == M1)%M eqn:E; [|done]. cbn [negb].
  symmetry. by apply Hpow.
Qed.

(** C1 (as amended).  On binary64, for every configuration with
    [diff_scale_ != 0] and every input, element by element ([pow]
    returning its base at the exponent 1): the unconditional
    copy-scale-shift-pow pipeline writes [pow(shift + scale * x, power)];
    [Forward_cpu] writes the same value to every element but the
    exceptional ones, those with [scale * x = -0] while [shift] is +0,
    where the skipped add leaves -0 in place of the sum +0 and
    [Forward_cpu] writes [pow(-0, power)].  On a tensor with no
    exceptional element the two pipelines leave the same blob. *)
Theorem Forward_cpu_f64 (P : Libm float) (p : PowerParameter float)
    (bottom top : Blob float) :
  let L := LayerSetUp p in
  pow_one_exact P ->
  (diff_scale_ L == M0)%M = false ->
  count top = count bottom ->
  (forall (i : nat) (x : float),
      cpu_data bottom !! i = Some x ->
      cpu_data (Forward_unconditional L bottom top) !! i
      = Some (pow (shift p + scale p * x)%float (power p))
      /\ (~ (shift p = 0%float /\ (scale p * x)%float = (-0)%float) ->
          cpu_data (Forward_cpu L bottom top) !! i
          = Some (pow (shift p + scale p * x)%float (power p)))
      /\ (shift p = 0%float -> (scale p * x)%float = (-0)%float ->
          cpu_data (Forward_cpu L bottom top) !! i
          = Some (pow (-0)%float (power p))
          /\ (shift p + scale p * x)%float = 0%float))
  /\ (Forall (fun x => ~ (shift p = 0%float /\ (scale p * x)%float = (-0)%float))
        (cpu_data bottom) ->
      Forward_cpu L bottom top = Forward_unconditional L bottom top).
Proof.
  intros L Hpow Hd Hc.
  assert (Hun : cpu_data (Forward_unconditional L bottom top) =
    map (fun x => pow (shift p + scale p * x)%float (power p)) (cpu_data bottom)).
  { rewrite Forward_unconditional_data by done.
    apply map_ext. intros x. cbn [madd mmul f64 L LayerSetUp scale_ shift_ power_].
    by rewrite f64_add_comm. }
  split.
  - intros i x Hi. split; [|split].
    + by rewrite Hun, lookup_map, Hi.
    + intros Hz. rewrite Forward_cpu_data by done.
      rewrite lookup_map, Hi. cbn [fmap option_fmap option_map]. f_equal.
      by apply (forward_elem_f64 P L x Hpow).
    + intros Hs Hz.
      destruct (forward_elem_f64_signed_zero P L x Hpow Hs Hz) as [He H0].
      split; [|exact H0].
      rewrite Forward_cpu_data by done.
      rewrite lookup_map, Hi. cbn [fmap option_fmap option_map]. f_equal.
      exact He.
  - intros Hz. apply Blob_eq.
    + rewrite Hun, Forward_cpu_data by done.
      apply map_ext_in. intros x Hx.
      apply (forward_elem_f64 P L x Hpow).
      rewrite Forall_forall in Hz. apply Hz. by apply list_elem_of_In.
    + by rewrite Forward_cpu_frame.
Qed.

(** C1 on binary64: [power = 3], [scale = -1], [shift = 0] on
    [[0; 1; 2]].  The first element is exceptional ([-1 * 0 = -0]) and
    becomes [pow(-0, 3) = -0]; the other two follow the formula. *)
Lemma Forward_cpu_f64_witness :
  let L := LayerSetUp {| power := 3%float; scale := (-1)%float; shift := 0%float |} in
  let bottom := {| cpu_data := [0; 1; 2]%float; cpu_diff := [0; 0; 0]%float |} in
  let top := {| cpu_data := [0; 0; 0]%float; cpu_diff := [0; 0; 0]%float |} in
  cpu_data (Forward_cpu L bottom top) !! 0%nat = Some (-0)%float
  /\ cpu_data (Forward_cpu L bottom top) !! 1%nat = Some (-1)%float
  /\ cpu_data (Forward_cpu L bottom top) !! 2%nat = Some (-8)%float.
Proof.
  intros L bottom top.
  destruct (Forward_cpu_f64 libm_f64
              {| power := 3%float; scale := (-1)%float; shift := 0%float |}
              bottom top libm_f64_pow_one_exact eq_refl eq_refl) as [Hel _].
  split; [|split].
  - destruct (Hel 0%nat 0%float eq_refl) as (_ & _ & H).
    exact (proj1 (H eq_refl eq_refl)).
  - destruct (Hel 1%nat 1%float eq_refl) as (_ & H & _).
    apply H. vm_compute. intros [_ E]. discriminate E.
  - destruct (Hel 2%nat 2%float eq_refl) as (_ & H & _).
    apply H. vm_compute. intros [_ E]. discriminate E.
Defined.

(** C1, as stated, fails on binary64: with [power = -1], [scale = 1],
    [shift = 0] and the input element -0, the skipped add leaves -0 in
    place and [Forward_cpu] writes [pow(-0, -1) = -inf], whereas
    [shift + scale * x] is +0 and both the formula and the unconditional
    pipeline give [pow(+0, -1) = +inf]. *)
Lemma Forward_cpu_signed_zero :
  let p := {| power := (-1)%float; scale := 1%float; shift := 0%float |} in
  let L := LayerSetUp p in
  let bottom := {| cpu_data := [(-0)%float]; cpu_diff := [0%float] |} in
  let top := {| cpu_data := [0%float]; cpu_diff := [0%float] |} in
  (diff_scale_ L == M0)%M = false
  /\ cpu_data (Forward_cpu L bottom top) = [neg_infinity]
  /\ map (fun x => pow (shift p + scale p * x)%float (power p)) (cpu_data bottom)
     = [infinity]
  /\ cpu_data (Forward_unconditional L bottom top) = [infinity]
  /\ Forward_cpu L bottom top <> Forward_unconditional L bottom top.
Proof.
  vm_compute. repeat split. intros H. discriminate H.
Qed.

(** ** Constant output: [diff_scale_ == 0] *)

(** C2.  For every configuration with [diff_scale_ == 0] and every input,
    [Forward_cpu] sets every output element to 1 if [power == 0] and to
    [pow(shift, power)] otherwise; the input data is not read: two inputs
    with the same element count give the same result (whatever they hold,
    NaN and Inf included, the arithmetic being arbitrary). *)
Theorem Forward_cpu_constant {M : Type} {A : Arith M} {P : Libm M}
    (p : PowerParameter M) (bottom bottom' top : Blob M) :
  let L := LayerSetUp p in
  (diff_scale_ L == M0)%M = true ->
  count top = count bottom ->
  count bottom' = count bottom ->
  cpu_data (Forward_cpu L bottom top) =
    replicate (count bottom)
      (if (power p == M0)%M then M1 else pow (shift p) (power p))
  /\ Forward_cpu L bottom' top = Forward_cpu L bottom top.
Proof.
  intros L Hd Hc Hc'. split.
  - by apply Forward_cpu_constant_data.
  - apply Blob_eq.
    + rewrite !Forward_cpu_constant_data by congruence. by rewrite Hc'.
    + by rewrite !Forward_cpu_frame.
Qed.

(** C2 on binary64: [power = 0], an input holding NaN and Inf against an
    ordinary one. *)
Lemma Forward_cpu_constant_witness :
  let L := LayerSetUp {| power := 0%float; scale := 2%float; shift := 3%float |} in
  let top := {| cpu_data := [7; 7]%float; cpu_diff := [0; 0]%float |} in
  let bottom := {| cpu_data := [nan; infinity]%float; cpu_diff := [0; 0]%float |} in
  let bottom' := {| cpu_data := [1; 2]%float; cpu_diff := [0; 0]%float |} in
  cpu_data (Forward_cpu L bottom top) = [1; 1]%float
  /\ Forward_cpu L bottom' top = Forward_cpu L bottom top.
Proof.
  intros L top bottom bottom'.
  exact (Forward_cpu_constant
           {| power := 0%float; scale := 2%float; shift := 3%float |}
           bottom bottom' top eq_refl eq_refl eq_refl).
Defined.

(** C6.  For every configuration with [diff_scale_ == 0], [Backward_cpu]
    (with [propagate_down[0]] true) fills [bottom_diff] with the constant
    [diff_scale_], which compares equal to 0, and does not multiply by
    [top_diff]: the result is the same for every top blob. *)
Theorem Backward_cpu_zero_diff_scale {M : Type} {A : Arith M}
    (p : PowerParameter M) (top top' bottom : Blob M) (propagate_down : list bool) :
  let L := LayerSetUp p in
  propagate_down !! 0%nat = Some true ->
  (diff_scale_ L == M0)%M = true ->
  blob_wf bottom ->
  cpu_diff (Backward_cpu L top propagate_down bottom) =
    replicate (count bottom) (diff_scale_ L)
  /\ Forall (fun d => (d == M0)%M = true)
       (cpu_diff (Backward_cpu L top propagate_down bottom))
  /\ Backward_cpu L top' propagate_down bottom =
     Backward_cpu L top propagate_down bottom.
Proof.
  intros L Hpd Hd Hwf. split; [|split].
  - by apply Backward_cpu_constant_diff.
  - rewrite Backward_cpu_constant_diff by done.
    apply Forall_forall. by intros d [-> _]%elem_of_replicate.
  - apply Blob_eq.
    + by rewrite !Backward_cpu_frame.
    + by rewrite !Backward_cpu_constant_diff.
Qed.

(** C6 on binary64: [power = 0], a top diff holding NaN and Inf against an
    ordinary one. *)
Lemma Backward_cpu_zero_diff_scale_witness :
  let L := LayerSetUp {| power := 0%float; scale := 2%float; shift := 3%float |} in
  let bottom := {| cpu_data := [1; 2]%float; cpu_diff := [7; 7]%float |} in
  let top := {| cpu_data := [1; 1]%float; cpu_diff := [nan; infinity]%float |} in
  let top' := {| cpu_data := [1; 1]%float; cpu_diff := [1; 1]%float |} in
  cpu_diff (Backward_cpu L top [true] bottom) = [0; 0]%float
  /\ Forall (fun d => (d == M0)%M = true) (cpu_diff (Backward_cpu L top [true] bottom))
  /\ Backward_cpu L top' [true] bottom = Backward_cpu L top [true] bottom.
Proof.
  intros L bottom top top'.
  exact (Backward_cpu_zero_diff_scale
           {| power := 0%float; scale := 2%float; shift := 3%float |}
           top top' bottom [true] eq_refl eq_refl eq_refl).
Defined.

(** ** The identity power: [power_ == 1] *)

(** C5.  For every configuration with [power == 1] and [diff_scale_ != 0],
    [Backward_cpu] (with [propagate_down[0]] true) sets [bottom_diff] to
    [top_diff * diff_scale_], element by element.  Scenario A on binary64:
    with [power = 1], [scale = 2], [shift = 3], [diff_scale_] is 2, the
    input [[1; 2; 3]] is mapped to [[5; 7; 9]] whatever [pow] is, and for
    any [top_diff] of three elements [bottom_diff] is [top_diff * 2]. *)
Theorem Backward_cpu_power_one :
  (forall (M : Type) (A : Arith M) (p : PowerParameter M) (top bottom : Blob M)
          (propagate_down : list bool),
      let L := LayerSetUp p in
      propagate_down !! 0%nat = Some true ->
      (power_ L == M1)%M = true ->
      (diff_scale_ L == M0)%M = false ->
      blob_wf bottom ->
      length (cpu_diff top) = count bottom ->
      cpu_diff (Backward_cpu L top propagate_down bottom) =
        map (fun t => (t * diff_scale_ L)%M) (cpu_diff top))
  /\ (let L := LayerSetUp {| power := 1%float; scale := 2%float; shift := 3%float |} in
      diff_scale_ L = 2%float
      /\ (forall (P : Libm float) (d : list float) (top : Blob float),
             count top = 3%nat ->
             cpu_data (Forward_cpu L {| cpu_data := [1; 2; 3]%float; cpu_diff := d |} top)
             = [5; 7; 9]%float)
      /\ (forall (d : list float) (top : Blob float) (propagate_down : list bool),
             propagate_down !! 0%nat = Some true ->
             length d = 3%nat ->
             length (cpu_diff top) = 3%nat ->
             cpu_diff (Backward_cpu L top propagate_down
                         {| cpu_data := [1; 2; 3]%float; cpu_diff := d |})
             = map (fun t => (t * 2)%float) (cpu_diff top))).
Proof.
  split; [|split; [|split]].
  - intros M A p top bottom pd L. apply Backward_cpu_power_one_diff.
  - reflexivity.
  - intros P d top Hc. by rewrite Forward_cpu_data.
  - intros d top pd Hpd Hd Ht.
    by rewrite Backward_cpu_power_one_diff.
Qed.

(** C5 on binary64: scenario A with [top_diff = [10; 20; 30]]. *)
Lemma Backward_cpu_power_one_witness :
  let L := LayerSetUp {| power := 1%float; scale := 2%float; shift := 3%float |} in
  let bottom := {| cpu_data := [1; 2; 3]%float; cpu_diff := [0; 0; 0]%float |} in
  let top := {| cpu_data := [5; 7; 9]%float; cpu_diff := [10; 20; 30]%float |} in
  cpu_diff (Backward_cpu L top [true] bottom) = [20; 40; 60]%float.
Proof.
  intros L bottom top.
  exact (proj1 Backward_cpu_power_one float f64
           {| power := 1%float; scale := 2%float; shift := 3%float |}
           top bottom [true] eq_refl eq_refl eq_refl eq_refl eq_refl).
Defined.

(** ** Ideal arithmetic: the gradient branches agree *)

Section Exact.
Context {M : Type} {A : Arith M} {E : ExactArith M}.
Local Open Scope mtype_scope.

Add Field exact_arith_field : exact_field.

Lemma exact_neq (x y : M) : (x == y) = false <-> x <> y.
Proof.
  rewrite <- exact_eq. by destruct (x == y).
Qed.

Lemma scale_step_exact (L : PowerLayer M) x : scale_step L x = scale_ L * x.
Proof.
  unfold scale_step. destruct (scale_ L == M1) eqn:Hs; [|done].
  apply exact_eq in Hs as ->. cbn [negb]. ring.
Qed.

Lemma shift_step_exact (L : PowerLayer M) z : shift_step L z = z + shift_ L.
Proof.
  unfold shift_step. destruct (shift_ L == M0) eqn:Hs; [|done].
  apply exact_eq in Hs as ->. cbn [negb]. ring.
Qed.

Lemma power2_elem_exact (L : PowerLayer M) x d :
  power2_elem L x d = diff_scale_ L * scale_ L * x + diff_scale_ L * shift_ L.
Proof.
  unfold power2_elem. destruct (shift_ L == M0) eqn:Hs; cbn [negb].
  - apply exact_eq in Hs as ->. ring.
  - ring.
Qed.

Lemma general_elem_exact (L : PowerLayer M) y x :
  general_elem L y x = diff_scale_ L * (y / (scale_ L * x + shift_ L)).
Proof.
  unfold general_elem. rewrite scale_step_exact, shift_step_exact.
  destruct (diff_scale_ L == M1) eqn:Hs; [|done].
  apply exact_eq in Hs as ->. cbn [negb]. ring.
Qed.

Lemma zip_with_ext_Forall_r (f g : M -> M -> M) a b :
  Forall (fun x => forall y, f y x = g y x) b ->
  zip_with f a b = zip_with g a b.
Proof.
  intros Hb. revert a.
  induction Hb as [|x b Hx Hb IH]; intros [|y a]; simpl; auto.
  by rewrite Hx, IH.
Qed.

Lemma zip_with_ignore_r (f : M -> M -> M) (g : M -> M) a b :
  length b = length a -> (forall x d, f x d = g x) ->
  zip_with f a b = map g a.
Proof.
  intros Hl Hf. revert b Hl.
  induction a as [|x a IH]; intros [|d b]; simpl; try done.
  intros [= Hl]. by rewrite Hf, IH.
Qed.

Lemma zip_with_map_diag (f : M -> M -> M) (h : M -> M) a :
  zip_with f (map h a) a = map (fun x => f (h x) x) a.
Proof. induction a as [|x a IH]; simpl; [done|]. by rewrite IH. Qed.

(** In ideal arithmetic, for [shift == 0], [diff_scale_ != 0] and nonzero
    input elements, the gradient of the [shift_ == 0] branch,
    [power * y / x], equals the gradient of the general branch,
    [diff_scale_ * y / (shift + scale * x)], element by element, for every
    [y] the top blob may hold (the forward output [(scale * x)^power] in
    particular) and every [power]. *)
Lemma shift0_branch_exact (p : PowerParameter M) (bottom top : Blob M) :
  let L := LayerSetUp p in
  (shift_ L == M0) = true ->
  (diff_scale_ L == M0) = false ->
  shaped_like top bottom ->
  Forall (fun x => x <> M0) (cpu_data bottom) ->
  dydx_shift0 L (count bottom) (cpu_data top) (cpu_data bottom) (cpu_diff bottom)
  = dydx_general L (count bottom) (cpu_data top) (cpu_data bottom) (cpu_diff bottom)
  /\ dydx_shift0 L (count bottom) (cpu_data top) (cpu_data bottom) (cpu_diff bottom)
     = zip_with (fun y x => power p * (y / x)) (cpu_data top) (cpu_data bottom)
  /\ dydx_general L (count bottom) (cpu_data top) (cpu_data bottom) (cpu_diff bottom)
     = zip_with (fun y x => diff_scale_ L * (y / (shift p + scale p * x)))
         (cpu_data top) (cpu_data bottom).
Proof.
  intros L Hs Hd Hwf Hx.
  rewrite dydx_shift0_data, dydx_general_data by buffer_length.
  apply exact_eq in Hs. apply exact_neq in Hd.
  subst L. cbn [LayerSetUp shift_ diff_scale_] in *.
  set (L := LayerSetUp p).
  assert (Hsc : scale p <> M0).
  { intros Hsc. apply Hd. rewrite Hsc. clearbody L. ring. }
  assert (Hg : zip_with (general_elem L) (cpu_data top) (cpu_data bottom)
    = zip_with (fun y x => power p * scale p * (y / (shift p + scale p * x)))
        (cpu_data top) (cpu_data bottom)).
  { apply zip_with_ext_Forall_r. apply Forall_forall. intros x _ y.
    rewrite general_elem_exact. subst L. cbn [LayerSetUp shift_ scale_ diff_scale_].
    f_equal. f_equal. ring. }
  split; [|split; [done|exact Hg]].
  rewrite Hg. apply zip_with_ext_Forall_r.
  eapply Forall_impl; [exact Hx|]. intros x Hx0 y.
  unfold shift0_elem. subst L. cbn [LayerSetUp shift_ scale_ power_ diff_scale_].
  rewrite Hs. field. by split.
Qed.


End Exact.

(** *** The rational instance is exact *)

Lemma Qc_field_theory :
  field_theory 0%Qc 1%Qc Qcplus Qcmult (fun x y => Qcplus x (Qcopp y))
    Qcopp Qcdiv (fun x => Qcdiv 1%Qc x) eq.
Proof.
  destruct Qcft as [HR H10 Hdiv Hinv].
  constructor.
  - exact HR.
  - exact H10.
  - intros x y. unfold Qcdiv. by rewrite Qcmult_1_l.
  - intros x Hx. unfold Qcdiv. rewrite Qcmult_1_l. by apply Hinv.
Qed.

Lemma Qc_eq_bool_iff (x y : Qc) : Qc_eq_bool x y = true <-> x = y.
Proof.
  split; [apply Qc_eq_bool_correct|].
  intros ->. unfold Qc_eq_bool. by destruct (Qc_eq_dec y y).
Qed.

#[export] Instance Qc_exact : ExactArith Qc := {|
  mopp := Qcopp;
  exact_field := Qc_field_theory;
  exact_two := eq_refl;
  exact_eq := Qc_eq_bool_iff;
|}.

Lemma libm_Qc_pow_two_exact : pow_two_exact libm_Qc.
Proof.
  intros p x Hp. apply Qc_eq_bool_iff in Hp as ->.
  cbn [pow libm_Qc mmul Qc_arith M2]. unfold Qc_pow.
  change (Qden (Q2Qc 2)) with 1%positive.
  change (Qnum (Q2Qc 2)) with 2%Z.
  cbv beta iota. change (Pos.to_nat 2) with 2%nat. cbn [Qcpower].
  by rewrite Qcmult_1_r.
Qed.

(** *** Binary64: the [shift_ == 0] branch when [scale == 1] *)

Lemma SFmul_comm (x y : spec_float) :
  SFmul prec emax x y = SFmul prec emax y x.
Proof.
  destruct x as [s|s| |s m e], y as [s'|s'| |s' m' e']; simpl;
    try reflexivity; try (by destruct s, s').
  by rewrite xorb_comm, Pos.mul_comm, Z.add_comm.
Qed.

Lemma f64_mul_one_r (x : float) : (x * 1)%float = x.
Proof.
  rewrite <- (f64_mul_one_l x) at 2.
  apply Prim2SF_inj. rewrite !mul_spec. apply SFmul_comm.
Qed.

(** With [scale == 1] and [shift == 0] the two branches run the same
    operations on every element: the division [y / x], then the multiply
    by [power] ([diff_scale_] is [power * 1]). *)
Lemma shift0_elem_f64 (L : PowerLayer float) (y x : float) :
  (shift_ L =? 0)%float = true ->
  (scale_ L =? 1)%float = true ->
  diff_scale_ L = (power_ L * scale_ L)%float ->
  shift0_elem L y x = general_elem L y x.
Proof.
  intros Hs Hc Hd.
  unfold shift0_elem, general_elem, shift_step, scale_step.
  cbn [meq mmul mdiv madd f64 M0 M1]. rewrite Hs, Hc. cbn [negb].
  rewrite Hd. apply f64_eq_one in Hc as ->. rewrite f64_mul_one_r.
  destruct (power_ L =? 1)%float eqn:Hp; [|done]. cbn [negb].
  apply f64_eq_one in Hp as ->. apply f64_mul_one_l.
Qed.






(** ** No propagation *)

(** C10.  If [propagate_down[0]] is false, [Backward_cpu] does nothing:
    the bottom blob, its diff buffer included, is returned as it was, for
    every configuration. *)
Theorem Backward_cpu_no_propagate {M : Type} {A : Arith M}
    (L : PowerLayer M) (top bottom : Blob M) (propagate_down : list bool) :
  propagate_down !! 0%nat = Some false ->
  Backward_cpu L top propagate_down bottom = bottom.
Proof. intros Hpd. unfold Backward_cpu. by rewrite Hpd. Qed.

(** C10 on binary64: a bottom diff holding NaN is left as it was. *)
Lemma Backward_cpu_no_propagate_witness :
  let L := LayerSetUp {| power := 3%float; scale := 2%float; shift := 1%float |} in
  let bottom := {| cpu_data := [1; 2]%float; cpu_diff := [7; nan]%float |} in
  let top := {| cpu_data := [27; 125]%float; cpu_diff := [1; 1]%float |} in
  Backward_cpu L top [false] bottom = bottom.
Proof.
  intros L bottom top. exact (Backward_cpu_no_propagate L top bottom [false] eq_refl).
Defined.

(* ===================================================================== *)
(** * PowerLayer: further properties of the two passes                    *)
(* ===================================================================== *)

Section Passes.
Context {M : Type} {A : Arith M}.
Local Open Scope mtype_scope.

Lemma caffe_set_length N (alpha : M) Y : length (caffe_set N alpha Y) = length Y.
Proof.
  revert Y. induction N as [|n IH]; intros [|y0 Y]; simpl; auto.
Qed.

Lemma dydx_power2_length (L : PowerLayer M) N x d :
  length (dydx_power2 L N x d) = length d.
Proof.
  unfold dydx_power2, caffe_cpu_axpby, caffe_add_scalar.
  destruct (shift_ L != M0);
    by rewrite ?vec_unary_length, ?vec_binary_length.
Qed.

Lemma dydx_shift0_length (L : PowerLayer M) N y x d :
  length (dydx_shift0 L N y x d) = length d.
Proof.
  unfold dydx_shift0, caffe_div, caffe_scal.
  by rewrite vec_unary_length, vec_binary_length.
Qed.

Lemma dydx_general_length (L : PowerLayer M) N y x d :
  length (dydx_general L N y x d) = length d.
Proof.
  unfold dydx_general, caffe_copy, caffe_scal, caffe_add_scalar, caffe_div.
  destruct (scale_ L != M1), (shift_ L != M0), (diff_scale_ L != M1);
    by rewrite ?vec_unary_length, ?vec_binary_length, ?vec_unary_length.
Qed.

(** X1.  [Forward_cpu] overwrites the top data: the data it leaves does not
    depend on what the top blob held before, only on the layer and the
    bottom data; the top diff is not touched and the element count is
    kept. *)
Theorem Forward_cpu_overwrites {P : Libm M} (L : PowerLayer M)
    (bottom top top' : Blob M) :
  count top = count bottom ->
  count top' = count bottom ->
  cpu_data (Forward_cpu L bottom top) = cpu_data (Forward_cpu L bottom top')
  /\ cpu_diff (Forward_cpu L bottom top) = cpu_diff top
  /\ count (Forward_cpu L bottom top) = count bottom.
Proof.
  intros Hc Hc'. split; [|split].
  - destruct (diff_scale_ L == M0) eqn:Hd.
    + by rewrite !Forward_cpu_constant_data.
    + by rewrite !Forward_cpu_data.
  - apply Forward_cpu_frame.
  - unfold count at 1. destruct (diff_scale_ L == M0) eqn:Hd.
    + rewrite Forward_cpu_constant_data by done. apply length_replicate.
    + rewrite Forward_cpu_data by done. apply List.length_map.
Qed.

(** X2.  [Backward_cpu] writes the bottom diff only: the bottom data is
    returned as it was and the diff buffer keeps its length, in every
    branch and for buffers of any size; a well-shaped bottom blob stays
    well-shaped. *)
Theorem Backward_cpu_keeps_shape (L : PowerLayer M) (top bottom : Blob M)
    (propagate_down : list bool) :
  cpu_data (Backward_cpu L top propagate_down bottom) = cpu_data bottom
  /\ length (cpu_diff (Backward_cpu L top propagate_down bottom))
     = length (cpu_diff bottom)
  /\ (blob_wf bottom -> blob_wf (Backward_cpu L top propagate_down bottom)).
Proof.
  assert (Hlen : length (cpu_diff (Backward_cpu L top propagate_down bottom))
                 = length (cpu_diff bottom)).
  { unfold Backward_cpu.
    destruct (propagate_down !! 0%nat) as [[]|]; [|done|done].
    cbn [cpu_diff set_cpu_diff]. unfold caffe_mul.
    destruct (diff_scale_ L == M0), (power_ L == M1), (power_ L == M2),
      (shift_ L == M0); cbn [orb negb];
      by rewrite ?vec_binary_length, ?caffe_set_length, ?dydx_power2_length,
        ?dydx_shift0_length, ?dydx_general_length. }
  split; [apply Backward_cpu_frame|]. split; [exact Hlen|].
  unfold blob_wf, count. by rewrite Hlen, Backward_cpu_frame.
Qed.

(** X3.  Outside the branch [power_ == 2], [Backward_cpu] overwrites the
    bottom diff: the gradient it leaves does not depend on what the diff
    buffer held before.  (In the branch [power_ == 2] the previous
    contents enter [caffe_cpu_axpby] with the factor 0.) *)
Theorem Backward_cpu_overwrites (L : PowerLayer M) (top bottom : Blob M)
    (propagate_down : list bool) (stale : list M) :
  propagate_down !! 0%nat = Some true ->
  (diff_scale_ L == M0) || (power_ L == M1) || (power_ L != M2) = true ->
  shaped_like top bottom ->
  length stale = count bottom ->
  Backward_cpu L top propagate_down (set_cpu_diff bottom stale)
  = Backward_cpu L top propagate_down bottom.
Proof.
  intros Hpd Hb (Hwt & Hwb & Hc) Hs.
  unfold Backward_cpu. rewrite Hpd.
  unfold set_cpu_diff. cbn [cpu_data cpu_diff]. f_equal.
  unfold count in *. unfold blob_wf, count in Hwt, Hwb.
  cbn [cpu_data cpu_diff].
  destruct (diff_scale_ L == M0) eqn:Hd; cbn [orb negb] in *.
  { by rewrite !caffe_set_replicate. }
  destruct (power_ L == M1) eqn:Hp1; cbn [orb negb] in *.
  { by rewrite !caffe_set_replicate. }
  destruct (power_ L == M2) eqn:Hp2; [done|].
  destruct (shift_ L == M0) eqn:Hs0.
  - by rewrite !dydx_shift0_data by lia.
  - by rewrite !dydx_general_data by lia.
Qed.

End Passes.

(** X1 on binary64: two top blobs holding different data. *)
Lemma Forward_cpu_overwrites_witness :
  let L := LayerSetUp {| power := 2%float; scale := 3%float; shift := 1%float |} in
  let bottom := {| cpu_data := [1; 2]%float; cpu_diff := [0; 0]%float |} in
  let top := {| cpu_data := [nan; 7]%float; cpu_diff := [5; 6]%float |} in
  let top' := {| cpu_data := [0; 0]%float; cpu_diff := [8; 9]%float |} in
  cpu_data (Forward_cpu L bottom top) = cpu_data (Forward_cpu L bottom top')
  /\ cpu_diff (Forward_cpu L bottom top) = cpu_diff top
  /\ count (Forward_cpu L bottom top) = count bottom.
Proof.
  intros L bottom top top'.
  exact (Forward_cpu_overwrites L bottom top top' eq_refl eq_refl).
Defined.

(** X3 on binary64: [power = 3], a stale diff holding NaN. *)
Lemma Backward_cpu_overwrites_witness :
  let L := LayerSetUp {| power := 3%float; scale := 2%float; shift := 1%float |} in
  let bottom := {| cpu_data := [1; 2]%float; cpu_diff := [0; 0]%float |} in
  let top := {| cpu_data := [27; 125]%float; cpu_diff := [1; 1]%float |} in
  Backward_cpu L top [true] (set_cpu_diff bottom [nan; infinity]%float)
  = Backward_cpu L top [true] bottom.
Proof.
  intros L bottom top.
  refine (Backward_cpu_overwrites L top bottom [true] [nan; infinity]%float
            eq_refl eq_refl _ eq_refl).
  repeat split.
Defined.

(** ** Ideal arithmetic: both passes compute the documented formulas *)

Section ExactPasses.
Context {M : Type} {A : Arith M} {E : ExactArith M}.
Local Open Scope mtype_scope.

Add Field exact_passes_field : exact_field.

(** A field has no zero divisors. *)
Lemma exact_integral (x y : M) : x * y = M0 -> x = M0 \/ y = M0.
Proof.
  intros H. destruct (x == M0) eqn:Hx.
  - left. by apply exact_eq.
  - right. apply exact_neq in Hx.
    transitivity (M1 / x * (x * y)); [by field|].
    rewrite H. by field.
Qed.

Lemma replicate_map (c : M) (a : list M) :
  replicate (length a) c = map (fun _ => c) a.
Proof. induction a as [|x a IH]; simpl; [|rewrite IH]; reflexivity. Qed.

Lemma map_zip_with_const (f : M -> M) (a b : list M) :
  length b = length a -> map f a = zip_with (fun t _ => f t) a b.
Proof.
  revert b. induction a as [|x a IH]; intros [|y b]; simpl; try done.
  intros [= Hl]. by rewrite <- IH.
Qed.

(** X4.  In ideal arithmetic, with [pow(x, 1) = x] and [pow(x, 0) = 1],
    [Forward_cpu] computes [pow(shift + scale * x, power)] for every
    configuration, and agrees with the pipeline that skips nothing.  This
    includes the shortcut that ignores the input, which is taken exactly
    when [power] or [scale] is 0. *)
Theorem Forward_cpu_ideal {P : Libm M} (p : PowerParameter M)
    (bottom top : Blob M) :
  let L := LayerSetUp p in
  pow_one_exact P ->
  pow_zero_exact P ->
  count top = count bottom ->
  ((diff_scale_ L == M0) = true <-> power p = M0 \/ scale p = M0)
  /\ cpu_data (Forward_cpu L bottom top)
     = map (fun x => pow (shift p + scale p * x) (power p)) (cpu_data bottom)
  /\ Forward_cpu L bottom top = Forward_unconditional L bottom top.
Proof.
  intros L H1 H0 Hc.
  assert (Hiff : (diff_scale_ L == M0) = true <-> power p = M0 \/ scale p = M0).
  { rewrite exact_eq. subst L. cbn [LayerSetUp diff_scale_]. split.
    - apply exact_integral.
    - intros [-> | ->]; ring. }
  assert (Hdata : cpu_data (Forward_cpu L bottom top)
     = map (fun x => pow (shift p + scale p * x) (power p)) (cpu_data bottom)).
  { destruct (diff_scale_ L == M0) eqn:Hd.
    - rewrite Forward_cpu_constant_data by done.
      unfold count. rewrite replicate_map. apply map_ext. intros x.
      subst L. cbn [LayerSetUp power_ shift_].
      destruct (power p == M0) eqn:Hp; [symmetry; by apply H0|].
      apply exact_neq in Hp.
      destruct (proj1 Hiff eq_refl) as [Hp0 | Hs0]; [done|].
      f_equal. rewrite Hs0. ring.
    - rewrite Forward_cpu_data by done. apply map_ext. intros x.
      unfold forward_elem, pow_step.
      rewrite scale_step_exact, shift_step_exact.
      subst L. cbn [LayerSetUp power_ shift_ scale_].
      replace (scale p * x + shift p) with (shift p + scale p * x) by ring.
      destruct (power p == M1) eqn:Hp; [|done]. cbn [negb].
      symmetry. by apply H1. }
  split; [exact Hiff|]. split; [exact Hdata|].
  apply Blob_eq.
  - rewrite Hdata, Forward_unconditional_data by done.
    apply map_ext. intros x. subst L. cbn [LayerSetUp power_ shift_ scale_].
    f_equal. ring.
  - by rewrite Forward_cpu_frame.
Qed.

(** X5.  In ideal arithmetic, whichever branch it takes, [Backward_cpu]
    leaves the gradient of the comment in the source,
    [top_diff * diff_scale * y / (shift + scale * x)] with [y] the forward
    output, for every configuration with [diff_scale_ != 0] and every
    input whose elements keep [shift + scale * x] away from 0 ([pow] being
    exact at the exponents 1 and 2). *)
Theorem Backward_cpu_gradient {P : Libm M} (p : PowerParameter M)
    (top bottom : Blob M) (propagate_down : list bool) :
  let L := LayerSetUp p in
  pow_one_exact P ->
  pow_two_exact P ->
  propagate_down !! 0%nat = Some true ->
  (diff_scale_ L == M0) = false ->
  shaped_like top bottom ->
  cpu_data top
  = map (fun x => pow (shift p + scale p * x) (power p)) (cpu_data bottom) ->
  Forall (fun x => shift p + scale p * x <> M0) (cpu_data bottom) ->
  cpu_diff (Backward_cpu L top propagate_down bottom)
  = zip_with
      (fun t x => t * (diff_scale_ L *
                       (pow (shift p + scale p * x) (power p)
                        / (shift p + scale p * x))))
      (cpu_diff top) (cpu_data bottom).
Proof.
  intros L H1 H2 Hpd Hd Hwf Hy Hz.
  pose proof Hwf as (Hwt & Hwb & Hc).
  unfold blob_wf, count in Hwt, Hwb, Hc.
  destruct (power_ L == M1) eqn:Hp1.
  { rewrite Backward_cpu_power_one_diff by (done || buffer_length).
    rewrite (map_zip_with_const _ _ (cpu_data bottom)) by lia.
    apply zip_with_ext_Forall_r.
    eapply Forall_impl; [exact Hz|]. intros x Hx t. cbn beta.
    rewrite (H1 _ _ Hp1). clearbody L. by field. }
  assert (Hg : exists g,
    (if power_ L == M2 then
       dydx_power2 L (count bottom) (cpu_data bottom) (cpu_diff bottom)
     else if shift_ L == M0 then
       dydx_shift0 L (count bottom) (cpu_data top) (cpu_data bottom)
         (cpu_diff bottom)
     else
       dydx_general L (count bottom) (cpu_data top) (cpu_data bottom)
         (cpu_diff bottom)) = map g (cpu_data bottom)
    /\ forall x, shift p + scale p * x <> M0 ->
         g x = diff_scale_ L * (pow (shift p + scale p * x) (power p)
                                / (shift p + scale p * x))).
  { destruct (power_ L == M2) eqn:Hp2; [|destruct (shift_ L == M0) eqn:Hs0].
    - eexists. split.
      + rewrite dydx_power2_data by buffer_length.
        apply zip_with_ignore_r; [buffer_length|].
        intros x d. apply power2_elem_exact.
      + intros x Hx. cbn beta. rewrite (H2 _ _ Hp2).
        subst L. cbn [LayerSetUp diff_scale_ scale_ shift_]. by field.
    - eexists. split.
      + rewrite dydx_shift0_data by buffer_length.
        rewrite Hy. apply zip_with_map_diag.
      + intros x Hx. cbn beta. unfold shift0_elem.
        apply exact_eq in Hs0. subst L.
        cbn [LayerSetUp diff_scale_ power_ shift_] in *.
        rewrite Hs0 in *.
        assert (scale p * x <> M0) as Hsx.
        { intros H. apply Hx. rewrite H. ring. }
        assert (scale p <> M0) as Hsc.
        { intros H. apply Hsx. rewrite H. ring. }
        assert (x <> M0) as Hx0.
        { intros H. apply Hsx. rewrite H. ring. }
        replace (M0 + scale p * x) with (scale p * x) by ring.
        field. by split.
    - eexists. split.
      + rewrite dydx_general_data by buffer_length.
        rewrite Hy. apply zip_with_map_diag.
      + intros x Hx. cbn beta. rewrite general_elem_exact.
        subst L. cbn [LayerSetUp diff_scale_ scale_ shift_ power_].
        replace (scale p * x + shift p) with (shift p + scale p * x) by ring.
        done. }
  destruct Hg as (g & Hg & Hgx).
  unfold Backward_cpu. rewrite Hpd, Hd, Hp1. cbn [orb negb].
  cbn [cpu_diff set_cpu_diff]. rewrite Hg.
  unfold caffe_mul. rewrite vec_binary_zip_with by buffer_length.
  rewrite zip_with_map_r.
  apply zip_with_ext_Forall_r.
  eapply Forall_impl; [exact Hz|]. intros x Hx t. cbn beta.
  by rewrite Hgx.
Qed.

End ExactPasses.

(** *** The rational [pow] is exact at the exponents 0 and 1 *)

Lemma libm_Qc_pow_one_exact : pow_one_exact libm_Qc.
Proof.
  intros p x Hp. apply Qc_eq_bool_iff in Hp as ->.
  cbn [pow libm_Qc M1 Qc_arith]. unfold Qc_pow.
  change (Qden 1%Qc) with 1%positive.
  change (Qnum 1%Qc) with 1%Z.
  cbv beta iota. change (Pos.to_nat 1) with 1%nat. cbn [Qcpower].
  by rewrite Qcmult_1_r.
Qed.

Lemma libm_Qc_pow_zero_exact : pow_zero_exact libm_Qc.
Proof.
  intros p x Hp. apply Qc_eq_bool_iff in Hp as ->. reflexivity.
Qed.

(** X4 on rationals: [power = 2], [scale = 3], [shift = 1]. *)
Lemma Forward_cpu_ideal_witness :
  let p := {| power := Q2Qc 2; scale := Q2Qc 3; shift := 1%Qc |} in
  let L := LayerSetUp p in
  let bottom := {| cpu_data := [Q2Qc 1; Q2Qc 2]; cpu_diff := [0%Qc; 0%Qc] |} in
  let top := {| cpu_data := [0%Qc; 0%Qc]; cpu_diff := [0%Qc; 0%Qc] |} in
  ((diff_scale_ L == M0)%M = true <-> power p = M0 \/ scale p = M0)
  /\ cpu_data (Forward_cpu L bottom top)
     = map (fun x => pow (shift p + scale p * x)%M (power p)) (cpu_data bottom)
  /\ Forward_cpu L bottom top = Forward_unconditional L bottom top.
Proof.
  intros p L bottom top.
  exact (Forward_cpu_ideal p bottom top
           libm_Qc_pow_one_exact libm_Qc_pow_zero_exact eq_refl).
Defined.

(** X5 on rationals: [power = 3], [scale = 2], [shift = 1], input
    [[1; 2]], forward output [[27; 125]]. *)
Lemma Backward_cpu_gradient_witness :
  let p := {| power := Q2Qc 3; scale := Q2Qc 2; shift := 1%Qc |} in
  let L := LayerSetUp p in
  let bottom := {| cpu_data := [Q2Qc 1; Q2Qc 2]; cpu_diff := [0%Qc; 0%Qc] |} in
  let top := {| cpu_data := [Q2Qc 27; Q2Qc 125]; cpu_diff := [1%Qc; Q2Qc 2] |} in
  cpu_diff (Backward_cpu L top [true] bottom)
  = zip_with
      (fun t x => (t * (diff_scale_ L *
                        (pow (shift p + scale p * x) (power p)
                         / (shift p + scale p * x))))%M)
      (cpu_diff top) (cpu_data bottom).
Proof.
  intros p L bottom top.
  refine (Backward_cpu_gradient p top bottom [true]
            libm_Qc_pow_one_exact libm_Qc_pow_two_exact eq_refl eq_refl _ _ _).
  - repeat split.
  - apply (f_equal2 cons); [|apply (f_equal2 cons); [|done]];
      by apply Qc_is_canon.
  - repeat constructor; intros H; discriminate H.
Defined.

(** ** Binary64: a NaN in the input *)

Lemma f64_mul_nan_r (x : float) : (x * nan)%float = nan.
Proof.
  apply Prim2SF_inj. rewrite mul_spec.
  change (Prim2SF nan) with S754_nan. by destruct (Prim2SF x).
Qed.

Lemma f64_add_nan_l (x : float) : (nan + x)%float = nan.
Proof.
  apply Prim2SF_inj. rewrite add_spec.
  change (Prim2SF nan) with S754_nan. by destruct (Prim2SF x).
Qed.

Lemma c_pow_nan (approx : float -> float -> float) (y : float) :
  (y =? 0)%float = false -> c_pow approx nan y = nan.
Proof.
  intros Hy. unfold c_pow, pow_special.
  change (is_zero y) with (y =? 0)%float. rewrite Hy.
  change (nan =? 1)%float with false.
  by change (is_nan nan) with true.
Qed.

(** X6.  On binary64, outside the constant path and for a nonzero
    [power], a NaN in the input gives a NaN at the same place of the
    output, whatever the library's [pow] answers on ordinary numbers: the
    scale multiply, the shift add and [pow] all propagate it, skipped or
    not. *)
Theorem Forward_cpu_nan (approx : float -> float -> float)
    (p : PowerParameter float) (bottom top : Blob float) (i : nat) :
  let L := LayerSetUp p in
  (diff_scale_ L == M0)%M = false ->
  (power p == M0)%M = false ->
  count top = count bottom ->
  cpu_data bottom !! i = Some nan ->
  cpu_data (Forward_cpu (P := libm_of approx) L bottom top) !! i = Some nan.
Proof.
  intros L Hd Hp Hc Hi.
  rewrite Forward_cpu_data by done.
  rewrite lookup_map, Hi. cbn [fmap option_fmap option_map]. f_equal.
  unfold forward_elem, pow_step, shift_step, scale_step.
  cbn [L LayerSetUp scale_ shift_ power_ mmul madd meq f64 M0 M1 pow libm_of] in *.
  assert ((if negb (scale p =? 1)%float then (scale p * nan)%float else nan)
          = nan) as ->.
  { destruct (negb _); [apply f64_mul_nan_r|done]. }
  assert ((if negb (shift p =? 0)%float then (nan + shift p)%float else nan)
          = nan) as ->.
  { destruct (negb _); [apply f64_add_nan_l|done]. }
  destruct (negb _); [by apply c_pow_nan|done].
Qed.

(** X6 on binary64: [power = 2], [scale = 3], [shift = 1], a NaN in second
    place. *)
Lemma Forward_cpu_nan_witness :
  let L := LayerSetUp {| power := 2%float; scale := 3%float; shift := 1%float |} in
  let bottom := {| cpu_data := [1; nan]%float; cpu_diff := [0; 0]%float |} in
  let top := {| cpu_data := [0; 0]%float; cpu_diff := [0; 0]%float |} in
  cpu_data (Forward_cpu (P := libm_of pow_finite) L bottom top) !! 1%nat = Some nan.
Proof.
  intros L bottom top.
  exact (Forward_cpu_nan pow_finite
           {| power := 2%float; scale := 3%float; shift := 1%float |}
           bottom top 1 eq_refl eq_refl eq_refl eq_refl).
Defined.

(** ** Binary64: a zero divisor in [Backward_cpu] *)

Lemma f64_div_zero_zero (y d : float) :
  (y =? 0)%float = true -> (d =? 0)%float = true -> (y / d)%float = nan.
Proof.
  intros Hy Hd.
  by destruct (f64_eq_zero y Hy) as [-> | ->],
              (f64_eq_zero d Hd) as [-> | ->].
Qed.

Lemma scale_step_f64 (L : PowerLayer float) (x : float) :
  scale_step L x = (scale_ L * x)%float.
Proof.
  unfold scale_step. cbn [meq mmul f64 M1].
  destruct (scale_ L =? 1)%float eqn:Hs; [|done]. cbn [negb].
  apply f64_eq_one in Hs as ->. symmetry. apply f64_mul_one_l.
Qed.

(** X7.  On binary64, in the two branches of [Backward_cpu] that divide
    ([power] neither 1 nor 2, [diff_scale_ != 0]), an element whose
    divisor is zero ([x] when [shift == 0], [scale * x + shift]
    otherwise) and whose forward output is zero gets the gradient NaN,
    whatever [top_diff] holds: the division 0 / 0 is not guarded. *)
Theorem Backward_cpu_zero_divisor (p : PowerParameter float)
    (top bottom : Blob float) (propagate_down : list bool)
    (i : nat) (x y : float) :
  let L := LayerSetUp p in
  propagate_down !! 0%nat = Some true ->
  (diff_scale_ L == M0)%M = false ->
  (power p == M1)%M = false ->
  (power p == M2)%M = false ->
  shaped_like top bottom ->
  cpu_data bottom !! i = Some x ->
  cpu_data top !! i = Some y ->
  (y =? 0)%float = true ->
  ((if (shift p =? 0)%float then x else (scale p * x + shift p)%float) =? 0)%float
  = true ->
  cpu_diff (Backward_cpu L top propagate_down bottom) !! i = Some nan.
Proof.
  intros L Hpd Hd Hp1 Hp2 Hwf Hx Hy Hy0 Hz.
  pose proof Hwf as (Hwt & Hwb & Hc). unfold blob_wf, count in Hwt, Hwb, Hc.
  assert (exists t, cpu_diff top !! i = Some t) as [t Ht].
  { apply lookup_lt_is_Some_2. apply lookup_lt_Some in Hy. lia. }
  subst L. unfold Backward_cpu. rewrite Hpd.
  cbn [LayerSetUp power_ diff_scale_ shift_ scale_] in *.
  rewrite Hd, Hp1, Hp2. cbn [orb negb cpu_diff set_cpu_diff].
  unfold caffe_mul.
  cbn [meq f64 M0] in *.
  destruct (shift p =? 0)%float eqn:Hs.
  - rewrite dydx_shift0_data by buffer_length.
    rewrite vec_binary_zip_with by buffer_length.
    rewrite !lookup_zip_with, Ht, Hy, Hx. cbn [mbind option_bind]. f_equal.
    unfold shift0_elem. cbn [mmul mdiv f64 power_ LayerSetUp].
    by rewrite (f64_div_zero_zero y x), !f64_mul_nan_r.
  - rewrite dydx_general_data by buffer_length.
    rewrite vec_binary_zip_with by buffer_length.
    rewrite !lookup_zip_with, Ht, Hy, Hx. cbn [mbind option_bind]. f_equal.
    unfold general_elem, shift_step. rewrite scale_step_f64.
    cbn [mmul mdiv madd meq f64 M0 M1 shift_ scale_ diff_scale_ LayerSetUp].
    rewrite Hs. cbn [negb].
    rewrite (f64_div_zero_zero y _ Hy0 Hz).
    destruct (negb _); by rewrite !f64_mul_nan_r.
Qed.

(** X7 on binary64: [power = 3], [scale = 1], [shift = -1] at [x = 1],
    where the derivative is 0. *)
Lemma Backward_cpu_zero_divisor_witness :
  let L := LayerSetUp {| power := 3%float; scale := 1%float; shift := (-1)%float |} in
  let bottom := {| cpu_data := [1; 2]%float; cpu_diff := [0; 0]%float |} in
  let top := {| cpu_data := [0; 1]%float; cpu_diff := [1; 1]%float |} in
  cpu_diff (Backward_cpu L top [true] bottom) !! 0%nat = Some nan.
Proof.
  intros L bottom top.
  refine (Backward_cpu_zero_divisor
            {| power := 3%float; scale := 1%float; shift := (-1)%float |}
            top bottom [true] 0 1%float 0%float
            eq_refl eq_refl eq_refl eq_refl _ eq_refl eq_refl eq_refl eq_refl).
  repeat split.
Defined.

End PowerTheory.

(* ===================================================================== *)
(** * CuDNNConvolutionLayer: properties                                   *)
(* ===================================================================== *)

Module CuDNNConvTheory.
Import CuDNNConv.

(** ** Reasoning about runs *)

Lemma bind_Done {X Y} (m : Run X) (f : X -> Run Y) w b w2 :
  bind m f w = Done b w2 ->
  exists a w1, m w = Done a w1 /\ f a w1 = Done b w2.
Proof. unfold bind. destruct (m w) as [a w1|]; [eauto|done]. Qed.

Lemma errors_ret {X} (E : Error -> Prop) (x : X) : errors_in E (ret x).
Proof. by intros w e w'. Qed.

Lemma errors_fatal {X} (E : Error -> Prop) (e : Error) :
  E e -> errors_in E (@fatal X e).
Proof. by intros He w e' w' [= <- _]. Qed.

Lemma errors_bind {X Y} (E : Error -> Prop) (m : Run X) (f : X -> Run Y) :
  errors_in E m -> (forall a, errors_in E (f a)) -> errors_in E (bind m f).
Proof.
  intros Hm Hf w e w'. unfold bind.
  destruct (m w) as [a w1|e1 w1] eqn:Em.
  - apply Hf.
  - intros [= <- _]. by eapply Hm.
Qed.

Lemma errors_for_each {S} (E : Error -> Prop) (body : nat -> S -> Run S)
    (indices : list nat) (s : S) :
  (forall i s, errors_in E (body i s)) ->
  errors_in E (for_each indices body s).
Proof.
  intros Hbody. revert s.
  induction indices as [|i rest IH]; intros s; simpl.
  - apply errors_ret.
  - apply errors_bind; auto.
Qed.

Lemma errors_at_index {X} (E : Error -> Prop) (v : list X) i :
  E Undefined -> errors_in E (at_index v i).
Proof.
  intros HE. unfold at_index.
  destruct (v !! i); [apply errors_ret|by apply errors_fatal].
Qed.

Lemma errors_deref {X} (E : Error -> Prop) (p : option X) :
  E Undefined -> errors_in E (deref p).
Proof.
  intros HE. destruct p; [apply errors_ret|by apply errors_fatal].
Qed.

Lemma errors_log (E : Error -> Prop) (e : Event) : errors_in E (log e).
Proof. by intros w e' w'. Qed.

Lemma errors_CUDNN_CHECK {P : Provider} {X} (E : Error -> Prop) (e : Event)
    (call : Run X) :
  E (ProviderFailed e) -> errors_in E call -> errors_in E (CUDNN_CHECK e call).
Proof.
  intros HE Hc w e' w'. unfold CUDNN_CHECK.
  destruct (cudnn_ok w); [apply Hc|]. by intros [= <- _].
Qed.

(** ** Handing out resources *)

Lemma grows_nil (w w' : World) :
  live w' = live w -> next w' = next w ->
  (exists evs, trace w' = trace w ++ evs /\ evs ≫= created = []) ->
  grows [] w w'.
Proof.
  intros Hl Hn Ht. repeat split; simpl; try done; try lia.
  - intros h k H. by apply elem_of_nil in H.
  - intros x _. by rewrite Hl.
Qed.

Lemma grows_refl (w : World) : grows [] w w.
Proof.
  apply grows_nil; try done. exists []. by rewrite app_nil_r.
Qed.

Lemma grows_app (rs1 rs2 : list (nat * Kind)) (w w1 w2 : World) :
  grows rs1 w w1 -> grows rs2 w1 w2 -> grows (rs1 ++ rs2) w w2.
Proof.
  intros (Hi1 & Hn1 & Hl1 & Hu1 & evs1 & Ht1 & Hc1)
         (Hi2 & Hn2 & Hl2 & Hu2 & evs2 & Ht2 & Hc2).
  repeat split.
  - rewrite fmap_app, length_app, seq_app, Hi1, Hi2, Hn1. done.
  - rewrite length_app. lia.
  - intros h k [H|H]%elem_of_app; [|by apply Hl2].
    rewrite Hu2; [by apply Hl1|].
    rewrite Hi2, elem_of_seq.
    assert (h ∈ rs1.*1) as Hh by (apply list_elem_of_fmap; by exists (h, k)).
    rewrite Hi1, elem_of_seq in Hh. lia.
  - intros x Hx. rewrite fmap_app, elem_of_app in Hx.
    rewrite Hu2, Hu1; tauto.
  - exists (evs1 ++ evs2). split.
    + by rewrite Ht2, Ht1, app_assoc.
    + by rewrite bind_app, Hc1, Hc2.
Qed.

Lemma grows_world_wf (rs : list (nat * Kind)) (w w' : World) :
  grows rs w w' -> world_wf w -> world_wf w'.
Proof.
  intros (Hi & Hn & Hl & Hu & _) Hwf h Hh.
  destruct (decide (h ∈ rs.*1)) as [Hin|Hin].
  - rewrite Hi, elem_of_seq in Hin. lia.
  - rewrite Hu in Hh by done. apply Hwf in Hh. lia.
Qed.

Lemma grows_fresh (rs : list (nat * Kind)) (w w' : World) h :
  grows rs w w' -> world_wf w -> h ∈ rs.*1 -> live w !! h = None.
Proof.
  intros (Hi & _) Hwf Hh. rewrite Hi, elem_of_seq in Hh.
  destruct (live w !! h) eqn:E; [|done].
  assert (h < next w)%nat by (apply Hwf; eauto). lia.
Qed.

Lemma grows_NoDup (rs : list (nat * Kind)) (w w' : World) :
  grows rs w w' -> NoDup rs.*1.
Proof. intros (Hi & _). rewrite Hi. apply NoDup_seq. Qed.

Lemma acquire_Done (k : Kind) (e : nat -> Event) (w : World) h w' :
  (forall h, created (e h) = [(h, k)]) ->
  acquire k e w = Done h w' ->
  h = next w /\ grows [(h, k)] w w'.
Proof.
  intros He [= <- <-]. split; [done|]. repeat split; simpl.
  - lia.
  - intros h k' [= -> ->]%list_elem_of_singleton. simpl. by rewrite lookup_insert_eq.
  - intros x Hx. rewrite list_elem_of_singleton in Hx.
    by rewrite lookup_insert_ne.
  - exists [e (next w)]. split; [done|]. simpl. by rewrite He.
Qed.

Lemma log_Done (e : Event) (w : World) u w' :
  created e = [] -> log e w = Done u w' -> grows [] w w'.
Proof.
  intros He [= _ <-]. apply grows_nil; simpl; try done.
  exists [e]. split; [done|]. simpl. by rewrite He.
Qed.

Section Provided.
Context {P : Provider} {B : Base}.

Lemma CUDNN_CHECK_Done {A} (e : Event) (call : Run A) w a w' :
  CUDNN_CHECK e call w = Done a w' -> call w = Done a w'.
Proof. unfold CUDNN_CHECK. by destruct (cudnn_ok w). Qed.

Lemma createTensor4dDesc_Done w h w' :
  createTensor4dDesc w = Done h w' ->
  h = next w /\ grows [(h, TensorDescriptor)] w w'.
Proof. intros H%CUDNN_CHECK_Done. by apply acquire_Done in H. Qed.

Lemma createConvolutionDesc_Done w h w' :
  createConvolutionDesc w = Done h w' ->
  h = next w /\ grows [(h, ConvolutionDescriptor)] w w'.
Proof. intros H%CUDNN_CHECK_Done. by apply acquire_Done in H. Qed.

Lemma createFilterDesc_Done n c kh kw w h w' :
  createFilterDesc n c kh kw w = Done h w' ->
  h = next w /\ grows [(h, FilterDescriptor)] w w'.
Proof. intros H%CUDNN_CHECK_Done. by apply acquire_Done in H. Qed.

Lemma new_array_Done {A} (n : nat) w (a : Array A) w' :
  new_array n w = Done a w' ->
  elems a = replicate n None /\ grows [(addr a, HostArray)] w w'.
Proof.
  intros (h & w1 & H1 & [= <- <-])%bind_Done.
  apply acquire_Done in H1 as [-> H1]; [|done]. done.
Qed.

(** Splitting a run at its first bind. *)
Ltac run_step H a w E :=
  apply bind_Done in H as (a & w & E & H); cbv beta zeta in H.

Lemma create_input_descs_Done i (d d' : Descs) w w' :
  create_input_descs i d w = Done d' w' ->
  exists b t f c,
    d' = {| bottom_descs := bottom_descs d ++ [b];
            top_descs := top_descs d ++ [t];
            fwd_conv_descs := fwd_conv_descs d ++ [f];
            bwd_conv_descs := bwd_conv_descs d ++ [c] |}
    /\ grows (input_descs [b] [t] [f] [c]) w w'.
Proof.
  intros H. unfold create_input_descs in H.
  run_step H b w1 Hb. run_step H t w2 Ht.
  run_step H f w3 Hf. run_step H c w4 Hc.
  injection H as <- <-.
  apply createTensor4dDesc_Done in Hb as [_ Hb].
  apply createTensor4dDesc_Done in Ht as [_ Ht].
  apply createConvolutionDesc_Done in Hf as [_ Hf].
  apply createConvolutionDesc_Done in Hc as [_ Hc].
  exists b, t, f, c. split; [done|].
  apply (grows_app [_] [_; _; _] _ w1); [done|].
  apply (grows_app [_] [_; _] _ w2); [done|].
  by apply (grows_app [_] [_] _ w3).
Qed.

Lemma input_descs_app bd td fc bc bd' td' fc' bc' :
  length td = length bd -> length fc = length bd -> length bc = length bd ->
  input_descs (bd ++ bd') (td ++ td') (fc ++ fc') (bc ++ bc')
  = input_descs bd td fc bc ++ input_descs bd' td' fc' bc'.
Proof.
  revert td fc bc.
  induction bd as [|b bd IH]; intros [|t td] [|f fc] [|c bc]; simpl;
    try done.
  intros [= Ht] [= Hf] [= Hc]. by rewrite IH.
Qed.

Lemma input_descs_length bd td fc bc :
  length td = length bd -> length fc = length bd -> length bc = length bd ->
  length (input_descs bd td fc bc) = (4 * length bd)%nat.
Proof.
  revert td fc bc.
  induction bd as [|b bd IH]; intros [|t td] [|f fc] [|c bc]; simpl;
    try done.
  intros [= Ht] [= Hf] [= Hc]. rewrite IH by done. lia.
Qed.

Lemma input_descs_kinds bd td fc bc :
  Forall (fun r => r.2 <> DeviceMemory) (input_descs bd td fc bc).
Proof.
  revert td fc bc.
  induction bd as [|b bd IH]; intros [|t td] [|f fc] [|c bc]; simpl;
    try by constructor.
  repeat (apply Forall_cons; split; [done|]). apply IH.
Qed.

Lemma create_loop_Done (indices : list nat) (d d' : Descs) w w' :
  for_each indices create_input_descs d w = Done d' w' ->
  exists nb nt nf nc,
    d' = {| bottom_descs := bottom_descs d ++ nb;
            top_descs := top_descs d ++ nt;
            fwd_conv_descs := fwd_conv_descs d ++ nf;
            bwd_conv_descs := bwd_conv_descs d ++ nc |}
    /\ length nb = length indices /\ length nt = length indices
    /\ length nf = length indices /\ length nc = length indices
    /\ grows (input_descs nb nt nf nc) w w'.
Proof.
  revert d w.
  induction indices as [|i rest IH]; intros d w H; simpl in H.
  - injection H as <- <-. exists [], [], [], [].
    rewrite !app_nil_r. destruct d. do 5 (split; [done|]). apply grows_refl.
  - run_step H d1 w1 H1.
    apply create_input_descs_Done in H1 as (b & t & f & c & -> & Hg1).
    apply IH in H as (nb & nt & nf & nc & -> & Hb & Ht & Hf & Hc & Hg).
    exists (b :: nb), (t :: nt), (f :: nf), (c :: nc). simpl.
    rewrite <- !app_assoc. do 5 (split; [simpl; congruence|]).
    by apply (grows_app (input_descs [b] [t] [f] [c]) _ _ w1).
Qed.

(** ** Giving resources back *)

Lemma bind_assoc {X Y Z} (m : Run X) (f : X -> Run Y) (g : Y -> Run Z) w :
  bind (bind m f) g w = bind m (fun a => bind (f a) g) w.
Proof. unfold bind. by destruct (m w). Qed.

Lemma bind_ext {X Y} (m : Run X) (f g : X -> Run Y) w :
  (forall a w', f a w' = g a w') -> bind m f w = bind m g w.
Proof. intros H. unfold bind. by destruct (m w). Qed.

Lemma bind_ret_r (m : Run unit) w : bind m (fun _ => ret tt) w = m w.
Proof. unfold bind, ret. by destruct (m w) as [[] ?|]. Qed.

Lemma release_all_app (rs1 rs2 : list (nat * Kind)) w :
  release_all (rs1 ++ rs2) w
  = bind (release_all rs1) (fun _ => release_all rs2) w.
Proof.
  revert w. induction rs1 as [|r rs1 IH]; intros w; simpl; [done|].
  rewrite bind_assoc. by apply bind_ext.
Qed.

Lemma release_Done (k : Kind) (h : nat) (e : Event) (w : World) :
  live w !! h = Some k ->
  release k h e w
  = Done tt {| live := delete h (live w); next := next w;
               trace := trace w ++ [e] |}.
Proof. intros H. unfold release. by rewrite decide_True. Qed.

Lemma release_all_Done (rs : list (nat * Kind)) (w : World) :
  NoDup rs.*1 ->
  (forall h k, (h, k) ∈ rs -> live w !! h = Some k) ->
  exists w',
    release_all rs w = Done tt w'
    /\ next w' = next w
    /\ trace w' = trace w ++ (release_event <$> rs)
    /\ (forall x, live w' !! x = if decide (x ∈ rs.*1) then None else live w !! x).
Proof.
  revert w. induction rs as [|[h k] rs IH]; intros w Hnd Hl;
    cbn [release_all fst snd].
  - exists w. split; [done|]. split; [done|]. split; [by rewrite app_nil_r|].
    intros x. by destruct (decide _) as [?%elem_of_nil|].
  - rewrite fmap_cons in Hnd. apply NoDup_cons in Hnd as [Hh Hnd].
    unfold bind. rewrite (release_Done k h) by (apply Hl; left).
    destruct (IH {| live := delete h (live w); next := next w;
                    trace := trace w ++ [release_event (h, k)] |})
      as (w' & Hr & Hn & Ht & Hx); [done| |].
    { intros h' k' Hin. simpl. rewrite lookup_delete_ne.
      - apply Hl. by right.
      - intros ->. apply Hh. apply list_elem_of_fmap. by exists (h', k'). }
    exists w'. split; [done|]. split; [done|]. split.
    { rewrite Ht. cbn [trace]. by rewrite fmap_cons, <- app_assoc. }
    intros x. rewrite Hx. cbn [live]. rewrite fmap_cons. cbn [fst].
    destruct (decide (x = h)) as [->|Hne].
    + rewrite (decide_True (P := h ∈ h :: rs.*1)) by left.
      rewrite lookup_delete_eq. by destruct (decide (h ∈ rs.*1)).
    + rewrite lookup_delete_ne by done.
      destruct (decide (x ∈ rs.*1)) as [Hin|Hin].
      * rewrite decide_True; [done|by right].
      * rewrite decide_False; [done|].
        intros [?|?]%elem_of_cons; done.
Qed.

Lemma at_index_Some {A} (v : list A) i x w :
  v !! i = Some x -> at_index v i w = ret x w.
Proof. unfold at_index. by intros ->. Qed.

(** The destructor's loop gives back the per-input descriptors, input by
    input. *)
Lemma destroy_loop (l : CuDNNConvolutionLayer) pb pt pf pc bd td fc bc w :
  bottom_descs_ l = pb ++ bd -> top_descs_ l = pt ++ td ->
  fwd_conv_descs_ l = pf ++ fc -> bwd_conv_descs_ l = pc ++ bc ->
  length pt = length pb -> length pf = length pb -> length pc = length pb ->
  length td = length bd -> length fc = length bd -> length bc = length bd ->
  for_each (seq (length pb) (length bd)) (destroy_input_descs l) tt w
  = release_all (input_descs bd td fc bc) w.
Proof.
  revert pb pt pf pc td fc bc w.
  induction bd as [|b bd IH]; intros pb pt pf pc [|t td] [|f fc] [|c bc] w
    Hb Ht Hf Hc Lt Lf Lc Ltd Lfc Lbc; try done.
  simpl in Ltd, Lfc, Lbc. cbn [length seq for_each input_descs release_all].
  unfold destroy_input_descs at 1.
  rewrite Hb, Ht, Hf, Hc.
  rewrite !bind_assoc. unfold bind at 1.
  rewrite (at_index_Some _ _ b) by (by apply list_lookup_middle).
  cbn [ret]. rewrite !bind_assoc. apply bind_ext. intros [] w1.
  rewrite !bind_assoc. unfold bind at 1.
  rewrite (at_index_Some _ _ t) by (by apply list_lookup_middle).
  cbn [ret]. rewrite !bind_assoc. apply bind_ext. intros [] w2.
  rewrite !bind_assoc. unfold bind at 1.
  rewrite (at_index_Some _ _ f) by (by apply list_lookup_middle).
  cbn [ret]. rewrite !bind_assoc. apply bind_ext. intros [] w3.
  rewrite !bind_assoc. unfold bind at 1.
  rewrite (at_index_Some _ _ c) by (by apply list_lookup_middle).
  cbn [ret]. apply bind_ext. intros [] w4.
  assert (HS : S (length pb) = length (pb ++ [b]))
    by (rewrite length_app; simpl; lia).
  rewrite HS.
  apply (IH (pb ++ [b]) (pt ++ [t]) (pf ++ [f]) (pc ++ [c]));
    rewrite <- ?app_assoc; try done; rewrite ?length_app; simpl; lia.
Qed.

Lemma bind_cong {X Y} (m m' : Run X) (f g : X -> Run Y) w :
  (forall w, m w = m' w) -> (forall a w', f a w' = g a w') ->
  bind m f w = bind m' g w.
Proof. intros Hm Hf. unfold bind. rewrite Hm. by destruct (m' w). Qed.

Lemma bind_release_all_app {X} (rs1 rs2 : list (nat * Kind))
    (k : unit -> Run X) w :
  bind (release_all (rs1 ++ rs2)) k w
  = bind (release_all rs1) (fun _ => bind (release_all rs2) k) w.
Proof.
  rewrite <- bind_assoc. apply bind_cong; [|done].
  intros w0. apply release_all_app.
Qed.

(** On a layer that is set up, the destructor gives back what the layer
    owns, in order, then the scratch buffer, and nulls it. *)
Lemma Destructor_run (l : CuDNNConvolutionLayer) (w : World) :
  handles_setup_ l = true -> complete l ->
  Destructor l w
  = bind (release_all (owned l))
      (fun _ => bind (deallocate (workspaceData l))
                  (fun _ => ret (set_workspaceData l None))) w.
Proof.
  intros Hs (Lt & Lf & Lc & Hbias & [ff Hff] & [bf Hbf] & [a1 H1] & [a2 H2]
             & [a3 H3] & [a4 H4] & [a5 H5] & [a6 H6]).
  unfold Destructor, owned. rewrite Hs. cbn [negb].
  rewrite Hff, Hbf, H1, H2, H3, H4, H5, H6.
  rewrite bind_release_all_app.
  apply bind_cong.
  { intros w0. unfold for_loop.
    by apply (destroy_loop l [] [] [] []). }
  intros [] w1.
  destruct (bias_term_ (conv l)) eqn:Hb.
  - destruct Hbias as [bias ->]; [done|].
    cbn. unfold cudnnDestroyTensorDescriptor, cudnnDestroyFilterDescriptor.
    unfold bind, delete_array, deref, ret, bind.
    repeat match goal with
           | |- context [release ?k ?h ?e ?w] =>
               destruct (release k h e w) as [[] ?|]
           end; reflexivity.
  - cbn. unfold cudnnDestroyTensorDescriptor, cudnnDestroyFilterDescriptor.
    unfold bind, delete_array, deref, ret, bind.
    repeat match goal with
           | |- context [release ?k ?h ?e ?w] =>
               destruct (release k h e w) as [[] ?|]
           end; reflexivity.
Qed.

Lemma deallocate_Done (p : option nat) (w : World) :
  (forall a, p = Some a -> live w !! a = Some DeviceMemory) ->
  deallocate p w
  = Done tt {| live := match p with Some a => delete a (live w) | None => live w end;
               next := next w;
               trace := trace w ++ [Deallocate p] |}.
Proof.
  intros H. destruct p as [a|]; simpl; [|done].
  by rewrite (release_Done DeviceMemory a) by auto.
Qed.

Lemma Destructor_Done (l : CuDNNConvolutionLayer) (w : World) :
  handles_setup_ l = true -> owns l w ->
  exists w',
    Destructor l w = Done (set_workspaceData l None) w'
    /\ next w' = next w
    /\ trace w' = trace w ++ (release_event <$> owned l)
                          ++ [Deallocate (workspaceData l)]
    /\ (forall x,
          live w' !! x =
            if decide (x ∈ (owned l ++ handle_of DeviceMemory (workspaceData l)).*1)
            then None else live w !! x).
Proof.
  intros Hs (Hc & Hnd & Hl).
  rewrite Destructor_run by done.
  rewrite fmap_app in Hnd. apply NoDup_app in Hnd as (Hnd & Hdisj & Hndw).
  destruct (release_all_Done (owned l) w) as (w1 & Hr & Hn1 & Ht1 & Hx1);
    [done| |].
  { intros h k Hin. apply Hl, elem_of_app. by left. }
  unfold bind at 1. rewrite Hr. unfold bind at 1.
  rewrite deallocate_Done.
  2:{ intros a Ha. rewrite Hx1, decide_False.
      - apply Hl, elem_of_app. right. rewrite Ha. by left.
      - intros Hin. apply (Hdisj a Hin). rewrite Ha. by left. }
  cbn [ret]. eexists. split; [done|]. cbn [next trace live].
  split; [done|]. split; [by rewrite Ht1, <- app_assoc|].
  intros x. rewrite fmap_app.
  destruct (workspaceData l) as [a|] eqn:Ha; cbn [handle_of fmap list_fmap fst].
  - destruct (decide (x = a)) as [->|Hne].
    + rewrite lookup_delete_eq, decide_True; [done|].
      apply elem_of_app. right. by left.
    + rewrite lookup_delete_ne, Hx1 by done.
      destruct (decide (x ∈ (owned l).*1)) as [Hin|Hin].
      * rewrite decide_True; [done|]. apply elem_of_app. by left.
      * rewrite decide_False; [done|].
        intros [?|?%list_elem_of_singleton]%elem_of_app; done.
  - rewrite Hx1, app_nil_r. done.
Qed.

(** ** [LayerSetUp] *)

Lemma store_lookup {A} (e : list (option A)) (i j : nat) (v : A) :
  (j < length e)%nat ->
  (i = j \/ e !! i = Some (Some v)) ->
  <[j := Some v]> e !! i = Some (Some v).
Proof.
  intros Hj [->|Hi].
  - by apply list_lookup_insert_eq.
  - destruct (decide (j = i)) as [->|Hne].
    + by apply list_lookup_insert_eq.
    + by rewrite list_lookup_insert_ne.
Qed.

Lemma init_inputs (a : PerInput) (n : nat) (indices : list nat) :
  sized a n ->
  (forall i, i ∈ indices -> (i < n)%nat) ->
  let a' := foldl init_input a indices in
  sized a' n /\ same_addrs a a'
  /\ forall i, i ∈ indices -> initialised a' i.
Proof.
  intros Hsz. induction indices as [|j indices IH] using rev_ind; intros Hn.
  - simpl. split; [done|]. split; [done|]. by intros i H%elem_of_nil.
  - cbn zeta. rewrite foldl_app. cbn [foldl].
    destruct IH as (Hs & Ha & Hi).
    { intros i Hin. apply Hn, elem_of_app. by left. }
    assert (j < n)%nat as Hj.
    { apply Hn, elem_of_app. right. by left. }
    set (a' := foldl init_input a indices) in *.
    destruct Hs as (S1 & S2 & S3 & S4 & S5 & S6).
    split; [|split].
    + unfold sized, init_input, store. cbn. by rewrite !length_insert.
    + exact Ha.
    + intros i Hin. unfold initialised, init_input, store. cbn.
      assert (i = j \/ initialised a' i) as Hc.
      { apply elem_of_app in Hin as [Hin|Hin%list_elem_of_singleton]; auto. }
      repeat split; apply store_lookup; try lia;
        destruct Hc as [->|(I1 & I2 & I3 & I4 & I5 & I6)]; auto.
Qed.

Lemma new_array_sized {A} (n : nat) w (a : Array A) w' :
  new_array n w = Done a w' -> length (elems a) = n.
Proof. intros [-> _]%new_array_Done. apply length_replicate. Qed.

Lemma at_index_Done {A} (v : list A) i w x w' :
  at_index v i w = Done x w' -> v !! i = Some x /\ w' = w.
Proof. unfold at_index. destruct (v !! i); [|done]. by intros [= -> ->]. Qed.

Lemma call_base_Done {A} (r : option A) w x w' :
  call_base r w = Done x w' -> r = Some x /\ w' = w.
Proof. destruct r; [|done]. by intros [= -> ->]. Qed.

(** What [LayerSetUp] has done when it reaches line 86. *)
Lemma LayerSetUp_resources_Done (l : CuDNNConvolutionLayer)
    (bottom top : list Shape) (w : World) l' w' :
  LayerSetUp_resources l bottom top w = Done l' w' ->
  handles_setup_ l' = handles_setup_ l
  /\ workspaceSizeInBytes l' = 0%N
  /\ workspaceData l' = None
  /\ (exists a,
        fwd_algo_ l' = Some (fwd_algo a)
        /\ bwd_filter_algo_ l' = Some (bwd_filter_algo a)
        /\ bwd_data_algo_ l' = Some (bwd_data_algo a)
        /\ workspace_fwd_sizes_ l' = Some (workspace_fwd_sizes a)
        /\ workspace_bwd_filter_sizes_ l' = Some (workspace_bwd_filter_sizes a)
        /\ workspace_bwd_data_sizes_ l' = Some (workspace_bwd_data_sizes a)
        /\ forall i, (i < length bottom)%nat -> initialised a i)
  /\ exists rs,
       grows rs w w'
       /\ Forall (fun r => r.2 <> DeviceMemory) rs
       /\ (constructed l ->
           rs ≡ₚ owned l' /\ complete l'
           /\ length (bottom_descs_ l') = length bottom
           /\ length (owned l')
              = (4 * length bottom
                 + (if bias_term_ (conv l') then 1 else 0) + 8)%nat).
Proof.
  intros H. unfold LayerSetUp_resources in H.
  run_step H b w0 Hbase. apply call_base_Done in Hbase as [Hbase ->].
  run_step H a1 w1 H1. run_step H a2 w2 H2. run_step H a3 w3 H3.
  run_step H a4 w4 H4. run_step H a5 w5 H5. run_step H a6 w6 H6.
  run_step H kh w7 Hkh. apply at_index_Done in Hkh as [_ ->].
  run_step H kw w7 Hkw. apply at_index_Done in Hkw as [_ ->].
  run_step H ff w7 Hff. run_step H bf w8 Hbf.
  run_step H d w9 Hd. run_step H bias w10 Hbias.
  injection H as <- <-. cbn.
  destruct (init_inputs
    {| fwd_algo := a1; bwd_filter_algo := a2; bwd_data_algo := a3;
       workspace_fwd_sizes := a4; workspace_bwd_filter_sizes := a5;
       workspace_bwd_data_sizes := a6 |} (length bottom) (seq 0 (length bottom)))
    as (_ & Haddr & Hinit).
  { repeat split; cbn; by eapply new_array_sized. }
  { intros i Hi%elem_of_seq. lia. }
  set (a := foldl init_input _ _) in *.
  do 3 (split; [done|]). split.
  { exists a. do 6 (split; [done|]). intros i Hi. apply Hinit, elem_of_seq. lia. }
  apply new_array_Done in H1 as [_ G1]. apply new_array_Done in H2 as [_ G2].
  apply new_array_Done in H3 as [_ G3]. apply new_array_Done in H4 as [_ G4].
  apply new_array_Done in H5 as [_ G5]. apply new_array_Done in H6 as [_ G6].
  apply createFilterDesc_Done in Hff as [_ Gff].
  apply createFilterDesc_Done in Hbf as [_ Gbf].
  apply create_loop_Done in Hd as (nb & nt & nf & nc & -> & Lb & Lt & Lf & Lc & Gd).
  rewrite length_seq in Lb, Lt, Lf, Lc.
  destruct Haddr as (A1 & A2 & A3 & A4 & A5 & A6). cbn in A1, A2, A3, A4, A5, A6.
  assert (exists rb, grows rb w9 w10
            /\ rb = (if bias_term_ b then handle_of TensorDescriptor bias else [])
            /\ (bias_term_ b = true -> is_Some bias)) as (rb & Gb & Hrb & Hsome).
  { destruct (bias_term_ b).
    - run_step Hbias h w11 Hh. injection Hbias as <- <-.
      apply createTensor4dDesc_Done in Hh as [_ Hh]. eauto.
    - injection Hbias as <- <-. exists []. split; [apply grows_refl|done]. }
  eexists. split.
  { eapply grows_app; [exact G1|]. eapply grows_app; [exact G2|].
    eapply grows_app; [exact G3|]. eapply grows_app; [exact G4|].
    eapply grows_app; [exact G5|]. eapply grows_app; [exact G6|].
    eapply grows_app; [exact Gff|]. eapply grows_app; [exact Gbf|].
    eapply grows_app; [exact Gd|]. exact Gb. }
  split.
  { cbn [app]. repeat (apply Forall_cons; split; [done|]).
    apply Forall_app. split; [apply input_descs_kinds|].
    rewrite Hrb. destruct (bias_term_ b), bias; cbn; by repeat constructor. }
  intros (_ & -> & -> & -> & ->). cbn [app].
  unfold owned. cbn. rewrite A1, A2, A3, A4, A5, A6, Hrb.
  split; [|split; [|split]].
  - set (X := input_descs nb nt nf nc).
    set (R := if bias_term_ b then handle_of TensorDescriptor bias else []).
    change (([(addr a1, HostArray); (addr a2, HostArray); (addr a3, HostArray);
              (addr a4, HostArray); (addr a5, HostArray); (addr a6, HostArray)]
             ++ [(ff, FilterDescriptor); (bf, FilterDescriptor)]) ++ (X ++ R)
            ≡ₚ X ++ R ++ [(ff, FilterDescriptor); (bf, FilterDescriptor)]
                 ++ [(addr a1, HostArray); (addr a2, HostArray);
                     (addr a3, HostArray); (addr a4, HostArray)]
                 ++ [(addr a6, HostArray); (addr a5, HostArray)]).
    rewrite (Permutation_app_comm _ (X ++ R)), <- app_assoc.
    do 2 apply Permutation_app_head.
    rewrite Permutation_app_comm.
    apply Permutation_app_head. cbn [app]. do 4 apply Permutation_skip.
    apply Permutation_swap.
  - unfold complete. cbn. repeat split; eauto; congruence.
  - done.
  - rewrite !length_app, input_descs_length by congruence. cbn.
    rewrite Lb. destruct (bias_term_ b); [|simpl; lia].
    destruct Hsome as [h ->]; [done|]. simpl. lia.
Qed.

Lemma initialised_array_get (a : PerInput) (i : nat) :
  initialised a i ->
  array_get (Some (fwd_algo a)) i = Some 0%nat
  /\ array_get (Some (bwd_filter_algo a)) i = Some 0%nat
  /\ array_get (Some (bwd_data_algo a)) i = Some 0%nat
  /\ array_get (Some (workspace_fwd_sizes a)) i = Some 0%N
  /\ array_get (Some (workspace_bwd_filter_sizes a)) i = Some 0%N
  /\ array_get (Some (workspace_bwd_data_sizes a)) i = Some 0%N.
Proof.
  intros (I1 & I2 & I3 & I4 & I5 & I6). unfold array_get.
  by rewrite I1, I2, I3, I4, I5, I6.
Qed.

Lemma LayerSetUp_Done (l : CuDNNConvolutionLayer) (bottom top : list Shape)
    (w : World) l' w' :
  LayerSetUp l bottom top w = Done l' w' ->
  exists l_r,
    LayerSetUp_resources l bottom top w = Done l_r w'
    /\ l' = set_handles_setup_ l_r true.
Proof.
  intros (l_r & w1 & Hr & [= <- <-])%bind_Done. eauto.
Qed.

(** C9.  After [LayerSetUp] returns, for every input index [i] below
    [bottom.size()] the three chosen algorithms are the default (0) and
    the three workspace sizes are 0; [workspaceSizeInBytes] is 0 and
    [workspaceData] is null, no device memory having been allocated; and
    [handles_setup_] is true, set by the last step: everything before it
    (all allocations and descriptor creations, which leave the world as
    [LayerSetUp] leaves it) keeps the flag as it was. *)
Theorem LayerSetUp_defaults (l : CuDNNConvolutionLayer)
    (bottom top : list Shape) (w : World) l' w' :
  LayerSetUp l bottom top w = Done l' w' ->
  (forall i, (i < length bottom)%nat ->
     array_get (fwd_algo_ l') i = Some 0%nat
     /\ array_get (bwd_filter_algo_ l') i = Some 0%nat
     /\ array_get (bwd_data_algo_ l') i = Some 0%nat
     /\ array_get (workspace_fwd_sizes_ l') i = Some 0%N
     /\ array_get (workspace_bwd_filter_sizes_ l') i = Some 0%N
     /\ array_get (workspace_bwd_data_sizes_ l') i = Some 0%N)
  /\ workspaceSizeInBytes l' = 0%N
  /\ workspaceData l' = None
  /\ (forall h, live w' !! h = Some DeviceMemory ->
                live w !! h = Some DeviceMemory)
  /\ handles_setup_ l' = true
  /\ exists l_r,
       LayerSetUp_resources l bottom top w = Done l_r w'
       /\ handles_setup_ l_r = handles_setup_ l
       /\ l' = set_handles_setup_ l_r true.
Proof.
  intros (l_r & Hr & ->)%LayerSetUp_Done.
  destruct (LayerSetUp_resources_Done _ _ _ _ _ _ Hr)
    as (Hflag & Hsize & Hdata & (a & F1 & F2 & F3 & F4 & F5 & F6 & Hinit)
        & rs & Hg & Hk & _).
  split; [|split; [done|split; [done|split; [|split; [done|eauto]]]]].
  - intros i Hi. cbn. rewrite F1, F2, F3, F4, F5, F6.
    by apply initialised_array_get, Hinit.
  - intros h Hh. destruct Hg as (_ & _ & Hl & Hu & _).
    destruct (decide (h ∈ rs.*1)) as [Hin|Hin]; [|by rewrite <- Hu].
    apply list_elem_of_fmap in Hin as ([h' k] & -> & Hin).
    rewrite Forall_forall in Hk. specialize (Hk _ Hin).
    apply Hl in Hin. cbn in *. congruence.
Qed.

Lemma release_event_destroyed (rs : list (nat * Kind)) :
  (release_event <$> rs) ≫= destroyed = rs.
Proof.
  induction rs as [|[h k] rs IH]; [done|].
  rewrite fmap_cons, bind_cons, IH. by destruct k.
Qed.

(** After [LayerSetUp] on a freshly constructed layer, the layer owns
    exactly what the call created. *)
Lemma LayerSetUp_owns (l : CuDNNConvolutionLayer) (bottom top : list Shape)
    (w : World) l' w' :
  constructed l -> world_wf w ->
  LayerSetUp l bottom top w = Done l' w' ->
  handles_setup_ l' = true
  /\ workspaceData l' = None
  /\ owns l' w'
  /\ (exists evs, trace w' = trace w ++ evs /\ evs ≫= created ≡ₚ owned l')
  /\ length (owned l')
     = (4 * length bottom + (if bias_term_ (conv l') then 1 else 0) + 8)%nat
  /\ (forall x, x ∈ (owned l').*1 -> live w !! x = None)
  /\ (forall x, x ∉ (owned l').*1 -> live w' !! x = live w !! x).
Proof.
  intros Hc Hwf (l_r & Hr & ->)%LayerSetUp_Done.
  destruct (LayerSetUp_resources_Done _ _ _ _ _ _ Hr)
    as (_ & _ & Hdata & _ & rs & Hg & _ & Hown).
  destruct (Hown Hc) as (Hperm & Hcomp & _ & Hlen).
  change (owned (set_handles_setup_ l_r true)) with (owned l_r).
  change (workspaceData (set_handles_setup_ l_r true)) with (workspaceData l_r).
  split; [done|]. split; [done|].
  assert (NoDup (owned l_r).*1) as Hnd.
  { rewrite <- Hperm. by eapply grows_NoDup. }
  split; [|split; [|split; [done|split]]].
  - split; [exact Hcomp|].
    change (workspaceData (set_handles_setup_ l_r true)) with (workspaceData l_r).
    change (owned (set_handles_setup_ l_r true)) with (owned l_r).
    rewrite Hdata. cbn [handle_of]. rewrite app_nil_r. split; [done|].
    intros h k Hin. rewrite <- Hperm in Hin.
    destruct Hg as (_ & _ & Hl & _). by apply Hl.
  - destruct Hg as (_ & _ & _ & _ & evs & Ht & He).
    exists evs. split; [done|]. by rewrite He.
  - intros x Hx. rewrite <- Hperm in Hx. by eapply grows_fresh.
  - intros x Hx. rewrite <- Hperm in Hx.
    destruct Hg as (_ & _ & _ & Hu & _). by apply Hu.
Qed.

(** C4.  Destroying a layer whose [handles_setup_] is false changes
    nothing.  Destroying a layer that is set up and owns its resources
    gives each of them back exactly once (the per-input tensor and
    convolution descriptors, the bias descriptor exactly when
    [bias_term_] is set, the two filter descriptors, the six arrays),
    deallocates the scratch buffer and nulls [workspaceData].  After
    [LayerSetUp] on a freshly constructed layer the resources owned are
    exactly those the call created, and the destructor leaves the live
    resources as they were before [LayerSetUp]. *)
Theorem Destructor_releases :
  (forall (l : CuDNNConvolutionLayer) (w : World),
      handles_setup_ l = false -> Destructor l w = Done l w)
  /\ (forall (l : CuDNNConvolutionLayer) (w : World),
        handles_setup_ l = true -> owns l w ->
        exists w',
          Destructor l w = Done (set_workspaceData l None) w'
          /\ workspaceData (set_workspaceData l None) = None
          /\ (exists evs,
                trace w' = trace w ++ evs
                /\ evs ≫= destroyed
                   = owned l ++ handle_of DeviceMemory (workspaceData l)
                /\ In (Deallocate (workspaceData l)) evs)
          /\ NoDup (owned l ++ handle_of DeviceMemory (workspaceData l))
          /\ (forall h k,
                (h, k) ∈ owned l ++ handle_of DeviceMemory (workspaceData l) ->
                live w !! h = Some k /\ live w' !! h = None)
          /\ (forall h,
                h ∉ (owned l ++ handle_of DeviceMemory (workspaceData l)).*1 ->
                live w' !! h = live w !! h))
  /\ (forall (l : CuDNNConvolutionLayer) (bottom top : list Shape)
             (w : World) l' w',
        constructed l -> world_wf w ->
        LayerSetUp l bottom top w = Done l' w' ->
        (exists evs,
            trace w' = trace w ++ evs /\ evs ≫= created ≡ₚ owned l')
        /\ length (owned l')
           = (4 * length bottom
              + (if bias_term_ (conv l') then 1 else 0) + 8)%nat
        /\ exists w'',
             Destructor l' w' = Done (set_workspaceData l' None) w''
             /\ live w'' = live w
             /\ exists evs,
                  trace w'' = trace w' ++ evs
                  /\ evs ≫= destroyed = owned l').
Proof.
  split; [|split].
  - intros l w Hs. unfold Destructor. by rewrite Hs.
  - intros l w Hs Ho.
    destruct (Destructor_Done l w Hs Ho) as (w' & Hd & _ & Ht & Hx).
    destruct Ho as (_ & Hnd & Hl).
    exists w'. split; [done|]. split; [done|]. split; [|split; [|split]].
    + exists ((release_event <$> owned l) ++ [Deallocate (workspaceData l)]).
      split; [done|]. split.
      * rewrite bind_app, release_event_destroyed.
        by destruct (workspaceData l).
      * apply in_or_app. right. by left.
    + by apply NoDup_fmap_1 in Hnd.
    + intros h k Hin. split; [by apply Hl|].
      rewrite Hx, decide_True; [done|].
      apply list_elem_of_fmap. by exists (h, k).
    + intros h Hh. by rewrite Hx, decide_False.
  - intros l bottom top w l' w' Hc Hwf Hsetup.
    destruct (LayerSetUp_owns _ _ _ _ _ _ Hc Hwf Hsetup)
      as (Hs & Hdata & Ho & Hcr & Hlen & Hfresh & Hkeep).
    split; [done|]. split; [done|].
    destruct (Destructor_Done l' w' Hs Ho) as (w'' & Hd & _ & Ht & Hx).
    exists w''. split; [done|]. split.
    + apply map_eq. intros x. rewrite Hx, Hdata. cbn [handle_of].
      rewrite app_nil_r.
      destruct (decide (x ∈ (owned l').*1)) as [Hin|Hin].
      * symmetry. by apply Hfresh.
      * by apply Hkeep.
    + exists ((release_event <$> owned l') ++ [Deallocate (workspaceData l')]).
      split; [done|].
      rewrite bind_app, release_event_destroyed, Hdata. cbn.
      by rewrite app_nil_r.
Qed.

(** ** [Reshape] *)

Lemma errors_Blob_shape (s : Shape) (index : Z) :
  errors_in not_check_failure (Blob_shape s index).
Proof.
  unfold Blob_shape. destruct (decide _).
  - by apply errors_at_index.
  - by apply errors_fatal.
Qed.

Lemma errors_cudnn_log {X} (e : Event) (x : X) :
  errors_in not_check_failure (CUDNN_CHECK e (bind (log e) (fun _ => ret x))).
Proof.
  apply errors_CUDNN_CHECK; [done|].
  apply errors_bind; [apply errors_log|]. intros _. apply errors_ret.
Qed.

Lemma errors_setTensor4dDesc h n c hh ww sn sc sh sw :
  errors_in not_check_failure (setTensor4dDesc h n c hh ww sn sc sh sw).
Proof. apply errors_CUDNN_CHECK; [done|apply errors_log]. Qed.

Lemma errors_setConvolutionDesc cv bt fl ph pw sh sw :
  errors_in not_check_failure (setConvolutionDesc cv bt fl ph pw sh sw).
Proof. apply errors_CUDNN_CHECK; [done|apply errors_log]. Qed.

Lemma errors_store_at {X} (p : option (Array X)) i (v : X) :
  errors_in not_check_failure (store_at p i v).
Proof.
  apply errors_bind; [by apply errors_deref|]. intros a. apply errors_ret.
Qed.

Lemma errors_query {X} (q : World -> X) (e : X -> Event) :
  errors_in not_check_failure
    (fun w => CUDNN_CHECK (e (q w)) (bind (log (e (q w))) (fun _ => ret (q w))) w).
Proof. intros w err w'. apply errors_cudnn_log. Qed.

Lemma errors_getInfo : errors_in not_check_failure getInfo.
Proof.
  intros w e w'. unfold getInfo. destruct (memory_info w) as [free total].
  revert w e w'. apply errors_bind; [apply errors_log|].
  intros _. apply errors_ret.
Qed.

(** Once the CHECK has passed, no failure of [Reshape] is a failed CHECK
    of this layer. *)
Lemma errors_Reshape_configure (l : CuDNNConvolutionLayer) (b : ConvolutionLayer)
    (bottom top : list Shape) :
  errors_in not_check_failure (Reshape_configure l b bottom top).
Proof.
  unfold Reshape_configure. cbv zeta.
  repeat first
    [ apply errors_ret
    | apply errors_getInfo
    | match goal with
      | |- errors_in _ (if ?c then _ else _) => destruct c
      end
    | apply errors_Blob_shape
    | apply errors_setTensor4dDesc
    | apply errors_setConvolutionDesc
    | apply errors_store_at
    | apply errors_at_index; [done]
    | apply errors_deref; [done]
    | apply errors_for_each; intros ? ?; unfold reshape_input
    | apply errors_bind; [|intros ?]
    | apply (errors_query (fun w => forward_algorithm w _ _)
               (fun a => GetConvolutionForwardAlgorithm _ _ a))
    | apply (errors_query (fun w => forward_workspace w _ _)
               (fun a => GetConvolutionForwardWorkspaceSize _ _ a))
    | apply (errors_query (fun w => backward_filter_algorithm w _ _)
               (fun a => GetConvolutionBackwardFilterAlgorithm _ _ a))
    | apply (errors_query (fun w => backward_filter_workspace w _ _)
               (fun a => GetConvolutionBackwardFilterWorkspaceSize _ _ a))
    | apply (errors_query (fun w => backward_data_algorithm w _ _)
               (fun a => GetConvolutionBackwardDataAlgorithm _ _ a))
    | apply (errors_query (fun w => backward_data_workspace w _ _)
               (fun a => GetConvolutionBackwardDataWorkspaceSize _ _ a)) ].
Qed.

(** C3.  [Reshape] is fatal whenever the number of spatial axes (as the
    base class's [Reshape] leaves it) is not 2: the error is the failed
    CHECK with the message naming the fallback engine, raised in the
    world the call started in, that is before any descriptor is
    configured and before any algorithm is selected.  (If the base class
    itself fails, that failure is the fatal error.)  With exactly 2
    spatial axes the CHECK passes: [Reshape] goes on to configure the
    descriptors, and whatever failure follows is not a failed CHECK of
    this layer. *)
Theorem Reshape_spatial_axes (l : CuDNNConvolutionLayer)
    (bottom top : list Shape) (w : World) :
  (base_Reshape (conv l) bottom top = None ->
     Reshape l bottom top w = Fatal BaseFailed w)
  /\ (forall b top',
        base_Reshape (conv l) bottom top = Some (b, top') ->
        num_spatial_axes_ b <> 2%Z ->
        Reshape l bottom top w = Fatal (CheckFailed spatial_axes_message) w)
  /\ (forall b top',
        base_Reshape (conv l) bottom top = Some (b, top') ->
        num_spatial_axes_ b = 2%Z ->
        Reshape l bottom top w
        = bind (Reshape_configure l b bottom top') (fun l' => ret (l', top')) w
        /\ forall e w', Reshape l bottom top w = Fatal e w' ->
                        forall msg, e <> CheckFailed msg).
Proof.
  split; [|split].
  - intros Hb. unfold Reshape, bind. by rewrite Hb.
  - intros b top' Hb Hn. unfold Reshape, bind. rewrite Hb. cbn.
    unfold CHECK_EQ. by rewrite decide_False by congruence.
  - intros b top' Hb Hn.
    assert (Reshape l bottom top w
            = bind (Reshape_configure l b bottom top')
                (fun l' => ret (l', top')) w) as Hrun.
    { unfold Reshape. unfold bind at 1. rewrite Hb. cbn [call_base ret fst snd].
      unfold bind at 1, CHECK_EQ. by rewrite decide_True by congruence. }
    split; [done|]. rewrite Hrun. intros e w'.
    apply (errors_bind not_check_failure).
    + apply errors_Reshape_configure.
    + intros l'. apply errors_ret.
Qed.

End Provided.

(** *** The layer on concrete inputs *)

(** C3 on a layer with three spatial axes. *)
Lemma Reshape_spatial_axes_witness :
  Reshape (P := steady_provider) (B := plain_base)
    (new_layer (example_conv 3 true))
    [[1; 3; 8; 8; 8]%Z] [[1; 8; 6; 6; 6]%Z] empty_world
  = Fatal (CheckFailed spatial_axes_message) empty_world.
Proof.
  exact (proj1 (proj2 (Reshape_spatial_axes (P := steady_provider)
                         (B := plain_base)
                         (new_layer (example_conv 3 true))
                         [[1; 3; 8; 8; 8]%Z] [[1; 8; 6; 6; 6]%Z] empty_world))
           (example_conv 3 true) [[1; 8; 6; 6; 6]%Z] eq_refl
           ltac:(discriminate)).
Defined.

(** C9 on a layer with two inputs. *)
Lemma LayerSetUp_defaults_witness :
  match LayerSetUp (P := steady_provider) (B := plain_base)
          (new_layer (example_conv 2 true))
          [[1; 3; 8; 8]%Z; [1; 3; 8; 8]%Z] [[1; 8; 6; 6]%Z; [1; 8; 6; 6]%Z]
          empty_world
  with
  | Done l' w' =>
      array_get (fwd_algo_ l') 1 = Some 0%nat
      /\ array_get (workspace_bwd_data_sizes_ l') 1 = Some 0%N
      /\ workspaceSizeInBytes l' = 0%N
      /\ workspaceData l' = None
      /\ handles_setup_ l' = true
  | Fatal _ _ => False
  end.
Proof.
  destruct (LayerSetUp _ _ _ _) as [l' w'|e w'] eqn:E;
    [|vm_compute in E; discriminate E].
  destruct (LayerSetUp_defaults (P := steady_provider) (B := plain_base)
              _ _ _ _ _ _ E) as (Ha & Hs & Hd & _ & Hf & _).
  destruct (Ha 1%nat) as (H1 & _ & _ & _ & _ & H6); [simpl; lia|].
  auto.
Defined.

Lemma world_wf_empty : world_wf empty_world.
Proof. intros h [k Hk]. cbn in Hk. by rewrite lookup_empty in Hk. Qed.

Lemma constructed_new_layer (b : ConvolutionLayer) : constructed (new_layer b).
Proof. by repeat split. Qed.

(** C4 on a layer with two inputs and a bias: set up in the empty world,
    then destroyed; seventeen resources are created and given back, and
    none is left. *)
Lemma Destructor_releases_witness :
  match LayerSetUp (P := steady_provider) (B := plain_base)
          (new_layer (example_conv 2 true))
          [[1; 3; 8; 8]%Z; [1; 3; 8; 8]%Z] [[1; 8; 6; 6]%Z; [1; 8; 6; 6]%Z]
          empty_world
  with
  | Done l' w' =>
      exists w'',
        Destructor l' w' = Done (set_workspaceData l' None) w''
        /\ live w'' = ∅
        /\ exists evs, trace w'' = trace w' ++ evs
                       /\ evs ≫= destroyed = owned l'
  | Fatal _ _ => False
  end.
Proof.
  destruct (LayerSetUp _ _ _ _) as [l' w'|e w'] eqn:E;
    [|vm_compute in E; discriminate E].
  destruct (proj2 (proj2 (Destructor_releases (P := steady_provider)
                            (B := plain_base)))
              _ _ _ _ _ _
              (constructed_new_layer _) world_wf_empty E)
    as (_ & _ & w'' & Hd & Hl & Ht).
  exists w''. split; [exact Hd|]. split; [exact Hl|exact Ht].
Defined.

(* ===================================================================== *)
(** * CuDNNConvolutionLayer: the layer over its life                      *)
(* ===================================================================== *)

(** ** Runs that leave the resources alone *)

Lemma same_resources_refl (w : World) : same_resources w w.
Proof.
  split; [done|]. split; [done|]. exists []. by rewrite app_nil_r.
Qed.

Lemma same_resources_trans (w1 w2 w3 : World) :
  same_resources w1 w2 -> same_resources w2 w3 -> same_resources w1 w3.
Proof.
  intros (Hl1 & Hn1 & evs1 & Ht1 & Hs1) (Hl2 & Hn2 & evs2 & Ht2 & Hs2).
  split; [congruence|]. split; [congruence|].
  exists (evs1 ++ evs2). split.
  - by rewrite Ht2, Ht1, app_assoc.
  - by apply Forall_app.
Qed.

Lemma quiet_ret {X} (x : X) : quiet (ret x).
Proof. intros w. apply same_resources_refl. Qed.

Lemma quiet_fatal {X} (e : Error) : quiet (@fatal X e).
Proof. intros w. apply same_resources_refl. Qed.

Lemma quiet_bind {X Y} (m : Run X) (f : X -> Run Y) :
  quiet m -> (forall a, quiet (f a)) -> quiet (bind m f).
Proof.
  intros Hm Hf w. specialize (Hm w). unfold bind.
  destruct (m w) as [a w1|e w1]; cbn [world_of] in *; [|done].
  eapply same_resources_trans; [exact Hm|apply Hf].
Qed.

Lemma quiet_for_each {S} (body : nat -> S -> Run S) (indices : list nat) (s : S) :
  (forall i s, quiet (body i s)) -> quiet (for_each indices body s).
Proof.
  intros Hbody. revert s.
  induction indices as [|i rest IH]; intros s; simpl.
  - apply quiet_ret.
  - apply quiet_bind; auto.
Qed.

Lemma quiet_at_index {X} (v : list X) i : quiet (at_index v i).
Proof. unfold at_index. destruct (v !! i); [apply quiet_ret|apply quiet_fatal]. Qed.

Lemma quiet_deref {X} (p : option X) : quiet (deref p).
Proof. destruct p; [apply quiet_ret|apply quiet_fatal]. Qed.

Lemma quiet_call_base {X} (r : option X) : quiet (call_base r).
Proof. destruct r; [apply quiet_ret|apply quiet_fatal]. Qed.

Lemma quiet_log (e : Event) : silent e -> quiet (log e).
Proof.
  intros He w. split; [done|]. split; [done|].
  exists [e]. split; [done|]. by apply Forall_singleton.
Qed.

Lemma quiet_CUDNN_CHECK {P : Provider} {X} (e : Event) (call : Run X) :
  quiet call -> quiet (CUDNN_CHECK e call).
Proof.
  intros Hc w. unfold CUDNN_CHECK.
  destruct (cudnn_ok w); [apply Hc|apply same_resources_refl].
Qed.

Lemma quiet_at_world {X} (m : World -> Run X) :
  (forall w0, quiet (m w0)) -> quiet (fun w => m w w).
Proof. intros H w. apply H. Qed.

Lemma quiet_Blob_shape (s : Shape) (index : Z) : quiet (Blob_shape s index).
Proof.
  unfold Blob_shape. destruct (decide _); [apply quiet_at_index|apply quiet_fatal].
Qed.

Lemma quiet_store_at {X} (p : option (Array X)) i (v : X) : quiet (store_at p i v).
Proof.
  apply quiet_bind; [apply quiet_deref|]. intros a. apply quiet_ret.
Qed.

Section Lifecycle.
Context {P : Provider} {B : Base}.

Lemma quiet_cudnn_log {X} (e : Event) (x : X) :
  silent e -> quiet (CUDNN_CHECK e (bind (log e) (fun _ => ret x))).
Proof.
  intros He. apply quiet_CUDNN_CHECK.
  apply quiet_bind; [by apply quiet_log|]. intros _. apply quiet_ret.
Qed.

Lemma quiet_setTensor4dDesc h n c hh ww sn sc sh sw :
  quiet (setTensor4dDesc h n c hh ww sn sc sh sw).
Proof. apply quiet_CUDNN_CHECK. by apply quiet_log. Qed.

Lemma quiet_setConvolutionDesc cv bt fl ph pw sh sw :
  quiet (setConvolutionDesc cv bt fl ph pw sh sw).
Proof. apply quiet_CUDNN_CHECK. by apply quiet_log. Qed.

Lemma quiet_getInfo : quiet getInfo.
Proof.
  intros w. unfold getInfo. destruct (memory_info w) as [free total].
  revert w. apply quiet_bind; [by apply quiet_log|].
  intros _. apply quiet_ret.
Qed.

Ltac quiet_steps :=
  repeat first
    [ apply quiet_ret
    | apply quiet_getInfo
    | match goal with
      | |- quiet (if ?c then _ else _) => destruct c
      end
    | apply quiet_Blob_shape
    | apply quiet_setTensor4dDesc
    | apply quiet_setConvolutionDesc
    | apply quiet_store_at
    | apply quiet_at_index
    | apply quiet_deref
    | apply quiet_call_base
    | apply quiet_for_each; intros ? ?; unfold reshape_input
    | apply quiet_bind; [|intros ?]
    | apply (quiet_at_world (fun w0 => CUDNN_CHECK _ (bind (log _) (fun _ => ret _))));
        intros ?; by apply quiet_cudnn_log ].

Lemma quiet_Reshape_configure (l : CuDNNConvolutionLayer) (b : ConvolutionLayer)
    (bottom top : list Shape) :
  quiet (Reshape_configure l b bottom top).
Proof. unfold Reshape_configure. cbv zeta. quiet_steps. Qed.

Lemma quiet_Reshape (l : CuDNNConvolutionLayer) (bottom top : list Shape) :
  quiet (Reshape l bottom top).
Proof.
  unfold Reshape. cbv zeta.
  apply quiet_bind; [apply quiet_call_base|]. intros r.
  apply quiet_bind.
  { unfold CHECK_EQ. destruct (decide _); [apply quiet_ret|apply quiet_fatal]. }
  intros _. apply quiet_bind; [apply quiet_Reshape_configure|].
  intros l'. apply quiet_ret.
Qed.


(** ** What one round of the loop of [Reshape] does *)

Ltac split_run H a w E :=
  apply bind_Done in H as (a & w & E & H); cbv beta zeta in H.

Lemma store_at_Done {X} (p : option (Array X)) i (v : X) w p' w' :
  store_at p i v w = Done p' w' ->
  exists a, p = Some a /\ p' = Some (store a i v) /\ w' = w.
Proof.
  unfold store_at. destruct p as [a|]; [|done].
  intros [= <- <-]. eauto.
Qed.

Lemma deref_Done {X} (p : option X) w x w' :
  deref p w = Done x w' -> p = Some x /\ w' = w.
Proof. destruct p; [|done]. by intros [= -> ->]. Qed.

Lemma cudnn_log_Done {X} (e : Event) (x : X) w a w' :
  CUDNN_CHECK e (bind (log e) (fun _ => ret x)) w = Done a w' ->
  a = x /\ trace w' = trace w ++ [e].
Proof.
  intros H%CUDNN_CHECK_Done. cbv [bind log ret] in H.
  by injection H as <- <-.
Qed.

Lemma setTensor4dDesc_Done h n c hh ww sn sc sh sw w u w' :
  setTensor4dDesc h n c hh ww sn sc sh sw w = Done u w' ->
  trace w' = trace w ++ [SetTensor4dDesc h n c hh ww sn sc sh sw].
Proof. by intros [= _ <-]%CUDNN_CHECK_Done. Qed.

Lemma setConvolutionDesc_Done cv bt fl ph pw sh sw w u w' :
  setConvolutionDesc cv bt fl ph pw sh sw w = Done u w' ->
  trace w' = trace w ++ [SetConvolutionDesc cv bt fl ph pw sh sw].
Proof. by intros [= _ <-]%CUDNN_CHECK_Done. Qed.

Lemma array_get_store_eq {X} (a : Array X) i (v : X) :
  (i < length (elems a))%nat -> array_get (Some (store a i v)) i = Some v.
Proof.
  intros Hi. unfold array_get, store. cbn [elems].
  by rewrite list_lookup_insert_eq.
Qed.

Lemma array_get_store_ne {X} (a : Array X) i j (v : X) :
  i <> j -> array_get (Some (store a j v)) i = array_get (Some a) i.
Proof.
  intros Hi. unfold array_get, store. cbn [elems].
  by rewrite list_lookup_insert_ne.
Qed.

Lemma allocated_store {X} (a : Array X) i (v : X) n :
  allocated (Some a) n -> allocated (Some (store a i v)) n.
Proof.
  intros (a0 & [= <-] & Hn). exists (store a i v). split; [done|].
  unfold store. cbn [elems]. by rewrite length_insert.
Qed.

Lemma reshape_input_Done (l : CuDNNConvolutionLayer) (b : ConvolutionLayer)
    height width height_out width_out pad_h pad_w stride_h stride_w
    (limit : N) (i : nat) (a a' : PerInputPtrs) (w w' : World) :
  reshape_input l b height width height_out width_out pad_h pad_w
    stride_h stride_w limit i a w = Done a' w' ->
  exists fa ws fa2 ws2 fa3 ws3 algo size algo_f size_f algo_d size_d evs,
    fwd_algo_p a = Some fa /\ workspace_fwd_sizes_p a = Some ws
    /\ bwd_filter_algo_p a = Some fa2
    /\ workspace_bwd_filter_sizes_p a = Some ws2
    /\ bwd_data_algo_p a = Some fa3
    /\ workspace_bwd_data_sizes_p a = Some ws3
    /\ a' = {| fwd_algo_p := Some (store fa i algo);
               bwd_filter_algo_p := Some (store fa2 i algo_f);
               bwd_data_algo_p := Some (store fa3 i algo_d);
               workspace_fwd_sizes_p := Some (store ws i size);
               workspace_bwd_filter_sizes_p := Some (store ws2 i size_f);
               workspace_bwd_data_sizes_p := Some (store ws3 i size_d) |}
    /\ trace w' = trace w ++ evs
    /\ In (GetConvolutionForwardAlgorithm i limit algo) evs
    /\ In (GetConvolutionForwardWorkspaceSize i algo size) evs
    /\ In (GetConvolutionBackwardFilterAlgorithm i limit algo_f) evs
    /\ In (GetConvolutionBackwardFilterWorkspaceSize i algo_f size_f) evs
    /\ In (GetConvolutionBackwardDataAlgorithm i limit algo_d) evs
    /\ In (GetConvolutionBackwardDataWorkspaceSize i algo_d size_d) evs.
Proof.
  intros H. unfold reshape_input in H.
  split_run H bd w1 E1. apply at_index_Done in E1 as [_ ->].
  split_run H u2 w2 E2. apply setTensor4dDesc_Done in E2.
  split_run H td w3 E3. apply at_index_Done in E3 as [_ ->].
  split_run H u4 w4 E4. apply setTensor4dDesc_Done in E4.
  split_run H fc w5 E5. apply at_index_Done in E5 as [_ ->].
  split_run H ff w6 E6. apply deref_Done in E6 as [_ ->].
  split_run H u7 w7 E7. apply setConvolutionDesc_Done in E7.
  split_run H algo w8 E8. apply cudnn_log_Done in E8 as [-> E8].
  split_run H p9 w9 E9. apply store_at_Done in E9 as (fa & Hfa & -> & ->).
  split_run H sz w10 E10. apply cudnn_log_Done in E10 as [-> E10].
  split_run H p11 w11 E11. apply store_at_Done in E11 as (ws & Hws & -> & ->).
  split_run H bc w12 E12. apply at_index_Done in E12 as [_ ->].
  split_run H bf w13 E13. apply deref_Done in E13 as [_ ->].
  split_run H u14 w14 E14. apply setConvolutionDesc_Done in E14.
  split_run H algo_f w15 E15. apply cudnn_log_Done in E15 as [-> E15].
  split_run H p16 w16 E16. apply store_at_Done in E16 as (fa2 & Hfa2 & -> & ->).
  split_run H sz_f w17 E17. apply cudnn_log_Done in E17 as [-> E17].
  split_run H p18 w18 E18. apply store_at_Done in E18 as (ws2 & Hws2 & -> & ->).
  split_run H algo_d w19 E19. apply cudnn_log_Done in E19 as [-> E19].
  split_run H p20 w20 E20. apply store_at_Done in E20 as (fa3 & Hfa3 & -> & ->).
  split_run H sz_d w21 E21. apply cudnn_log_Done in E21 as [-> E21].
  split_run H p22 w22 E22. apply store_at_Done in E22 as (ws3 & Hws3 & -> & ->).
  injection H as <- <-.
  do 12 eexists. eexists.
  do 6 (split; [eassumption|]). split; [reflexivity|].
  split.
  { rewrite E21, E19, E17, E15, E14, E10, E8, E7, E4, E2.
    rewrite <- !app_assoc. reflexivity. }
  cbn. tauto.
Qed.


Lemma chosen_app_l algos sizes ac sc evs1 evs2 i :
  chosen algos sizes ac sc evs1 i -> chosen algos sizes ac sc (evs1 ++ evs2) i.
Proof.
  intros (algo & sz & H1 & H2 & H3 & H4). exists algo, sz.
  do 2 (split; [done|]). split; apply in_or_app; by left.
Qed.

Lemma chosen_app_r algos sizes ac sc evs1 evs2 i :
  chosen algos sizes ac sc evs2 i -> chosen algos sizes ac sc (evs1 ++ evs2) i.
Proof.
  intros (algo & sz & H1 & H2 & H3 & H4). exists algo, sz.
  do 2 (split; [done|]). split; apply in_or_app; by right.
Qed.

Lemma same_arrays_refl (a : PerInputPtrs) : same_arrays a a.
Proof. by repeat split. Qed.

Lemma same_arrays_trans (a1 a2 a3 : PerInputPtrs) :
  same_arrays a1 a2 -> same_arrays a2 a3 -> same_arrays a1 a3.
Proof.
  intros (A1 & A2 & A3 & A4 & A5 & A6) (B1 & B2 & B3 & B4 & B5 & B6).
  repeat split; congruence.
Qed.

(** The loop of [Reshape] writes through the six pointers and moves none
    of them. *)
Lemma reshape_loop_arrays (l : CuDNNConvolutionLayer) (b : ConvolutionLayer)
    height width height_out width_out pad_h pad_w stride_h stride_w
    (limit : N) (indices : list nat) (a a' : PerInputPtrs) (w w' : World) :
  for_each indices
    (reshape_input l b height width height_out width_out pad_h pad_w
       stride_h stride_w limit) a w = Done a' w' ->
  same_arrays a a'.
Proof.
  revert a w. induction indices as [|j rest IH]; intros a w H; cbn [for_each] in H.
  - injection H as <- _. apply same_arrays_refl.
  - split_run H a1 w1 E1.
    apply reshape_input_Done in E1
      as (fa & ws & fa2 & ws2 & fa3 & ws3 & algo & sz & algo_f & sz_f
          & algo_d & sz_d & evs & F1 & F2 & F3 & F4 & F5 & F6 & -> & _).
    eapply same_arrays_trans; [|by eapply IH].
    unfold same_arrays. cbn. by rewrite F1, F2, F3, F4, F5, F6.
Qed.

(** Round [i] of the loop stores the provider's answers in element [i];
    the later rounds leave it alone. *)
Lemma reshape_loop_Done (l : CuDNNConvolutionLayer) (b : ConvolutionLayer)
    height width height_out width_out pad_h pad_w stride_h stride_w
    (limit : N) (n : nat) (indices : list nat) (a a' : PerInputPtrs)
    (w w' : World) :
  for_each indices
    (reshape_input l b height width height_out width_out pad_h pad_w
       stride_h stride_w limit) a w = Done a' w' ->
  exists evs,
    trace w' = trace w ++ evs
    /\ (NoDup indices ->
        (forall i, i ∈ indices -> (i < n)%nat) ->
        ptrs_allocated a n ->
        ptrs_allocated a' n
        /\ (forall i, i ∈ indices -> chosen_all a' limit evs i)
        /\ (forall i, i ∉ indices -> same_at a a' i)).
Proof.
  revert a w. induction indices as [|j rest IH]; intros a w H;
    cbn [for_each] in H.
  - injection H as <- <-. exists []. rewrite app_nil_r.
    split; [done|]. intros _ _ Ha. split; [done|].
    split; [by intros i Hi%elem_of_nil|].
    intros i _. by repeat split.
  - split_run H a1 w1 E1.
    apply reshape_input_Done in E1
      as (fa & ws & fa2 & ws2 & fa3 & ws3 & algo & sz & algo_f & sz_f
          & algo_d & sz_d & evs1 & F1 & F2 & F3 & F4 & F5 & F6 & -> & Ht1
          & I1 & I2 & I3 & I4 & I5 & I6).
    destruct (IH _ _ H) as (evs2 & Ht2 & IH').
    exists (evs1 ++ evs2). split; [by rewrite Ht2, Ht1, app_assoc|].
    intros Hnd Hn Ha.
    apply NoDup_cons in Hnd as [Hj Hnd].
    assert (j < n)%nat as Hjn by (apply Hn; left).
    destruct Ha as (A1 & A2 & A3 & A4 & A5 & A6).
    rewrite F1 in A1. rewrite F3 in A2. rewrite F5 in A3.
    rewrite F2 in A4. rewrite F4 in A5. rewrite F6 in A6.
    destruct (IH' Hnd) as (Ha' & Hch & Hsame).
    { intros i Hi. apply Hn. by right. }
    { repeat split; cbn; by apply allocated_store. }
    split; [exact Ha'|].
    assert (forall X (arr : Array X), allocated (Some arr) n ->
              (j < length (elems arr))%nat) as Hlt.
    { intros X arr (a0 & [= <-] & Hle). lia. }
    split.
    + intros i [->|Hi]%elem_of_cons.
      * destruct (Hsame j Hj) as (S1 & S2 & S3 & S4 & S5 & S6).
        cbn [fwd_algo_p bwd_filter_algo_p bwd_data_algo_p workspace_fwd_sizes_p workspace_bwd_filter_sizes_p workspace_bwd_data_sizes_p] in *.
        unfold chosen_all. split; [|split].
        -- exists algo, sz. rewrite S1, S4, !array_get_store_eq by auto.
           do 2 (split; [done|]). split; apply in_or_app; by left.
        -- exists algo_f, sz_f. rewrite S2, S5, !array_get_store_eq by auto.
           do 2 (split; [done|]). split; apply in_or_app; by left.
        -- exists algo_d, sz_d. rewrite S3, S6, !array_get_store_eq by auto.
           do 2 (split; [done|]). split; apply in_or_app; by left.
      * destruct (Hch i Hi) as (C1 & C2 & C3).
        split; [|split]; by apply chosen_app_r.
    + intros i Hi. rewrite not_elem_of_cons in Hi. destruct Hi as [Hij Hi].
      destruct (Hsame i Hi) as (S1 & S2 & S3 & S4 & S5 & S6).
      cbn [fwd_algo_p bwd_filter_algo_p bwd_data_algo_p workspace_fwd_sizes_p workspace_bwd_filter_sizes_p workspace_bwd_data_sizes_p] in *.
      unfold same_at. cbn [fwd_algo_p bwd_filter_algo_p bwd_data_algo_p workspace_fwd_sizes_p workspace_bwd_filter_sizes_p workspace_bwd_data_sizes_p].
      rewrite S1, S2, S3, S4, S5, S6, F1, F2, F3, F4, F5, F6.
      by rewrite !array_get_store_ne.
Qed.

Lemma getInfo_Done w info w' :
  getInfo w = Done info w' ->
  trace w' = trace w ++ [GetInfo info.1 info.2].
Proof.
  unfold getInfo. destruct (memory_info w) as [free total].
  cbv [bind log ret]. by intros [= <- <-].
Qed.


Lemma Blob_shape_Done (s : Shape) (index : Z) w v w' :
  Blob_shape s index w = Done v w' -> valid_axis s index /\ w' = w.
Proof.
  unfold Blob_shape, valid_axis. destruct (decide _) as [Hv|]; [|done].
  by intros [_ ->]%at_index_Done.
Qed.

(** ** What [Reshape] leaves behind when it returns *)

Lemma Reshape_configure_Done (l : CuDNNConvolutionLayer) (b : ConvolutionLayer)
    (bottom top : list Shape) (w : World) l' w' :
  Reshape_configure l b bottom top w = Done l' w' ->
  exists a' info evs,
    l' = {| conv := b;
            handles_setup_ := handles_setup_ l;
            fwd_algo_ := fwd_algo_p a';
            bwd_filter_algo_ := bwd_filter_algo_p a';
            bwd_data_algo_ := bwd_data_algo_p a';
            workspace_fwd_sizes_ := workspace_fwd_sizes_p a';
            workspace_bwd_filter_sizes_ := workspace_bwd_filter_sizes_p a';
            workspace_bwd_data_sizes_ := workspace_bwd_data_sizes_p a';
            workspaceSizeInBytes := workspaceSizeInBytes l;
            workspaceData := workspaceData l;
            bottom_descs_ := bottom_descs_ l;
            top_descs_ := top_descs_ l;
            fwd_conv_descs_ := fwd_conv_descs_ l;
            bwd_conv_descs_ := bwd_conv_descs_ l;
            fwd_filter_desc_ := fwd_filter_desc_ l;
            bwd_filter_desc_ := bwd_filter_desc_ l;
            bias_desc_ := bias_desc_ l;
            bias_offset_ := bias_offset_ l;
            bottom_offset_ := (bottom_dim_ b `quot` group_ b)%Z;
            top_offset_ := (top_dim_ b `quot` group_ b)%Z |}
    /\ same_arrays (ptrs_of l) a'
    /\ trace w' = trace w ++ GetInfo info.1 info.2 :: evs
    /\ (ptrs_allocated (ptrs_of l) (length bottom) ->
        ptrs_allocated a' (length bottom)
        /\ forall i, (i < length bottom)%nat -> chosen_all a' info.1 evs i).
Proof.
  intros H. unfold Reshape_configure in H. cbv zeta in H.
  split_run H bottom0 w1 E1. apply at_index_Done in E1 as [_ ->].
  split_run H height w1 E1. apply Blob_shape_Done in E1 as [_ ->].
  split_run H width w1 E1. apply Blob_shape_Done in E1 as [_ ->].
  split_run H top0 w1 E1. apply at_index_Done in E1 as [_ ->].
  split_run H height_out w1 E1. apply Blob_shape_Done in E1 as [_ ->].
  split_run H width_out w1 E1. apply Blob_shape_Done in E1 as [_ ->].
  split_run H pad_h w1 E1. apply at_index_Done in E1 as [_ ->].
  split_run H pad_w w1 E1. apply at_index_Done in E1 as [_ ->].
  split_run H stride_h w1 E1. apply at_index_Done in E1 as [_ ->].
  split_run H stride_w w1 E1. apply at_index_Done in E1 as [_ ->].
  split_run H info w1 Einfo. apply getInfo_Done in Einfo.
  split_run H a' w2 Eloop.
  split_run H u w3 Ebias.
  injection H as <- <-.
  assert (exists evs3, trace w3 = trace w2 ++ evs3) as (evs3 & Ht3).
  { destruct (bias_term_ b).
    - split_run Ebias h w4 Eh. apply deref_Done in Eh as [_ ->].
      apply setTensor4dDesc_Done in Ebias. eauto.
    - injection Ebias as _ <-. exists []. by rewrite app_nil_r. }
  unfold for_loop in Eloop.
  pose proof (reshape_loop_arrays _ _ _ _ _ _ _ _ _ _ _ _ _ _ _ _ Eloop) as Hsame.
  destruct (reshape_loop_Done _ _ _ _ _ _ _ _ _ _ _ (length bottom) _ _ _ _ _ Eloop)
    as (evs2 & Ht2 & Hloop).
  exists a', info, (evs2 ++ evs3).
  split; [done|]. split; [exact Hsame|]. split.
  { rewrite Ht3, Ht2, Einfo, <- !app_assoc. done. }
  intros Ha. destruct (Hloop (NoDup_seq _ _)) as (Ha' & Hch & _); [|exact Ha|].
  { intros i Hi%elem_of_seq. lia. }
  split; [exact Ha'|]. intros i Hi.
  destruct (Hch i) as (C1 & C2 & C3); [apply elem_of_seq; lia|].
  split; [|split]; by apply chosen_app_l.
Qed.

Lemma Reshape_Done (l : CuDNNConvolutionLayer) (bottom top : list Shape)
    (w : World) l' top' w' :
  Reshape l bottom top w = Done (l', top') w' ->
  exists b,
    base_Reshape (conv l) bottom top = Some (b, top')
    /\ num_spatial_axes_ b = 2%Z
    /\ Reshape_configure l b bottom top' w = Done l' w'.
Proof.
  intros H. unfold Reshape in H.
  split_run H r w1 E1. apply call_base_Done in E1 as [Hb ->].
  split_run H u w1 E1. unfold CHECK_EQ in E1.
  destruct (decide _) as [Hn|]; [|done]. injection E1 as _ <-.
  split_run H l1 w1 E1. injection H as <- <- <-.
  exists r.1. by destruct r.
Qed.


Lemma array_of_is_Some {X} (p p' : option (Array X)) :
  array_of p' = array_of p -> is_Some p -> is_Some p'.
Proof. intros H [a ->]. by destruct p'. Qed.

(** The members [Reshape] keeps, and with them what the layer owns. *)
Lemma Reshape_frame (l : CuDNNConvolutionLayer) (bottom top : list Shape)
    (w : World) l' top' w' :
  Reshape l bottom top w = Done (l', top') w' ->
  handles_setup_ l' = handles_setup_ l
  /\ workspaceData l' = workspaceData l
  /\ workspaceSizeInBytes l' = workspaceSizeInBytes l
  /\ bias_offset_ l' = bias_offset_ l
  /\ bottom_descs_ l' = bottom_descs_ l
  /\ top_descs_ l' = top_descs_ l
  /\ fwd_conv_descs_ l' = fwd_conv_descs_ l
  /\ bwd_conv_descs_ l' = bwd_conv_descs_ l
  /\ fwd_filter_desc_ l' = fwd_filter_desc_ l
  /\ bwd_filter_desc_ l' = bwd_filter_desc_ l
  /\ bias_desc_ l' = bias_desc_ l
  /\ same_arrays (ptrs_of l) (ptrs_of l')
  /\ (bias_term_ (conv l') = bias_term_ (conv l) ->
      owned l' = owned l /\ (owns l w -> owns l' w')).
Proof.
  intros H.
  pose proof (quiet_Reshape l bottom top w) as Hq. rewrite H in Hq.
  destruct Hq as (Hlive & _). cbn [world_of] in Hlive.
  apply Reshape_Done in H as (b & Hb & Hn & H).
  apply Reshape_configure_Done in H as (a' & info & evs & -> & Hsame & _).
  cbn. do 11 (split; [done|]). split; [exact Hsame|].
  intros Hbias.
  destruct Hsame as (A1 & A2 & A3 & A4 & A5 & A6). cbn in A1, A2, A3, A4, A5, A6.
  split.
  - unfold owned. cbn. by rewrite Hbias, A1, A2, A3, A4, A5, A6.
  - intros (Hc & Hnd & Hl).
    assert (Hown : owned
      {| conv := b; handles_setup_ := handles_setup_ l;
         fwd_algo_ := fwd_algo_p a'; bwd_filter_algo_ := bwd_filter_algo_p a';
         bwd_data_algo_ := bwd_data_algo_p a';
         workspace_fwd_sizes_ := workspace_fwd_sizes_p a';
         workspace_bwd_filter_sizes_ := workspace_bwd_filter_sizes_p a';
         workspace_bwd_data_sizes_ := workspace_bwd_data_sizes_p a';
         workspaceSizeInBytes := workspaceSizeInBytes l;
         workspaceData := workspaceData l;
         bottom_descs_ := bottom_descs_ l; top_descs_ := top_descs_ l;
         fwd_conv_descs_ := fwd_conv_descs_ l;
         bwd_conv_descs_ := bwd_conv_descs_ l;
         fwd_filter_desc_ := fwd_filter_desc_ l;
         bwd_filter_desc_ := bwd_filter_desc_ l;
         bias_desc_ := bias_desc_ l; bias_offset_ := bias_offset_ l;
         bottom_offset_ := (bottom_dim_ b `quot` group_ b)%Z;
         top_offset_ := (top_dim_ b `quot` group_ b)%Z |} = owned l).
    { unfold owned. cbn. by rewrite Hbias, A1, A2, A3, A4, A5, A6. }
    split; [|split].
    + destruct Hc as (L1 & L2 & L3 & Hbs & Hff & Hbf & S1 & S2 & S3 & S4 & S5 & S6).
      unfold complete. cbn.
      do 3 (split; [done|]). split; [by rewrite Hbias|].
      do 2 (split; [done|]).
      repeat split; eapply array_of_is_Some; eauto.
    + by rewrite Hown.
    + intros h k Hin. rewrite Hown in Hin. cbn [workspaceData] in Hin.
      rewrite Hlive. by apply Hl.
Qed.

(** X8.  [Reshape] creates and destroys nothing, whether it returns or
    fails: the live resources are the same before and after, and every
    call it made is silent.  When it returns, the layer keeps its flag,
    its scratch buffer, its descriptors and its arrays; if the base class
    kept [bias_term_], the layer owns what it owned. *)
Theorem Reshape_keeps_resources (l : CuDNNConvolutionLayer)
    (bottom top : list Shape) (w : World) :
  same_resources w (world_of (Reshape l bottom top w))
  /\ forall l' top' w',
       Reshape l bottom top w = Done (l', top') w' ->
       handles_setup_ l' = handles_setup_ l
       /\ workspaceData l' = workspaceData l
       /\ workspaceSizeInBytes l' = workspaceSizeInBytes l
       /\ bias_offset_ l' = bias_offset_ l
       /\ bottom_descs_ l' = bottom_descs_ l
       /\ top_descs_ l' = top_descs_ l
       /\ fwd_conv_descs_ l' = fwd_conv_descs_ l
       /\ bwd_conv_descs_ l' = bwd_conv_descs_ l
       /\ fwd_filter_desc_ l' = fwd_filter_desc_ l
       /\ bwd_filter_desc_ l' = bwd_filter_desc_ l
       /\ bias_desc_ l' = bias_desc_ l
       /\ same_arrays (ptrs_of l) (ptrs_of l')
       /\ (bias_term_ (conv l') = bias_term_ (conv l) ->
           owned l' = owned l /\ (owns l w -> owns l' w')).
Proof.
  split; [apply quiet_Reshape|]. intros l' top' w'. apply Reshape_frame.
Qed.

(** X9.  When [Reshape] returns on a layer whose arrays are allocated for
    the inputs, its first call asked the device for its free memory, and
    for every input [i] the three arrays of algorithms hold what the
    provider answered under that limit and the three arrays of sizes hold
    the workspace sizes it answered for those very algorithms; the base
    members are those the base class left and the two offsets are
    [bottom_dim_ / group_] and [top_dim_ / group_]. *)
Theorem Reshape_selects (l : CuDNNConvolutionLayer) (bottom top : list Shape)
    (w : World) l' top' w' :
  Reshape l bottom top w = Done (l', top') w' ->
  ptrs_allocated (ptrs_of l) (length bottom) ->
  exists b free total evs,
    base_Reshape (conv l) bottom top = Some (b, top')
    /\ conv l' = b
    /\ (group_ b <> 0%Z ->
        bottom_offset_ l' = (bottom_dim_ b `quot` group_ b)%Z
        /\ top_offset_ l' = (top_dim_ b `quot` group_ b)%Z)
    /\ trace w' = trace w ++ GetInfo free total :: evs
    /\ forall i, (i < length bottom)%nat -> chosen_all (ptrs_of l') free evs i.
Proof.
  intros H Ha.
  apply Reshape_Done in H as (b & Hb & Hn & H).
  apply Reshape_configure_Done in H as (a' & info & evs & -> & _ & Ht & Hch).
  destruct (Hch Ha) as (_ & Hsel).
  exists b, info.1, info.2, evs. cbn.
  split; [done|]. split; [done|]. split; [done|]. split; [done|].
  exact Hsel.
Qed.


(** ** When the calls return *)

Lemma bind_Done_intro {X Y} (m : Run X) (f : X -> Run Y) w a w1 :
  m w = Done a w1 -> bind m f w = f a w1.
Proof. intros H. unfold bind. by rewrite H. Qed.

Lemma returns_ret {X} (x : X) w : returns (ret x) w.
Proof. by exists x, w. Qed.

Lemma returns_bind {X Y} (m : Run X) (f : X -> Run Y) w :
  returns m w ->
  (forall a w1, m w = Done a w1 -> returns (f a) w1) ->
  returns (bind m f) w.
Proof.
  intros (a & w1 & E) Hf. unfold returns, bind. rewrite E. by apply Hf.
Qed.

Lemma returns_at_index {X} (v : list X) i w :
  (i < length v)%nat -> returns (at_index v i) w.
Proof.
  intros [x Hx]%lookup_lt_is_Some_2. exists x, w. by apply at_index_Some.
Qed.

Lemma returns_deref {X} (p : option X) w : is_Some p -> returns (deref p) w.
Proof. intros [x ->]. by exists x, w. Qed.

Lemma returns_store_at {X} (p : option (Array X)) i (v : X) w :
  is_Some p -> returns (store_at p i v) w.
Proof. intros [a ->]. by eexists _, w. Qed.

Lemma returns_log (e : Event) w : returns (log e) w.
Proof. by eexists _, _. Qed.

Lemma returns_Blob_shape (s : Shape) (index : Z) w :
  valid_axis s index -> returns (Blob_shape s index) w.
Proof.
  unfold valid_axis, Blob_shape. intros Hv. rewrite decide_True by done.
  apply returns_at_index. destruct (decide _); lia.
Qed.

Lemma allocated_is_Some {X} (p : option (Array X)) n :
  allocated p n -> is_Some p.
Proof. intros (a & -> & _). eauto. Qed.

Section Steady.
Hypothesis Hok : never_fails P.

Lemma returns_CUDNN_CHECK {X} (e : Event) (call : Run X) w :
  returns call w -> returns (CUDNN_CHECK e call) w.
Proof. unfold returns, CUDNN_CHECK. by rewrite Hok. Qed.

Lemma returns_cudnn_log {X} (e : Event) (x : X) w :
  returns (CUDNN_CHECK e (bind (log e) (fun _ => ret x))) w.
Proof. apply returns_CUDNN_CHECK. by eexists _, _. Qed.

Lemma returns_setTensor4dDesc h n c hh ww sn sc sh sw w :
  returns (setTensor4dDesc h n c hh ww sn sc sh sw) w.
Proof. apply returns_CUDNN_CHECK, returns_log. Qed.

Lemma returns_setConvolutionDesc cv bt fl ph pw sh sw w :
  returns (setConvolutionDesc cv bt fl ph pw sh sw) w.
Proof. apply returns_CUDNN_CHECK, returns_log. Qed.

Lemma returns_getInfo w : returns getInfo w.
Proof.
  unfold returns, getInfo. destruct (memory_info w). by eexists _, _.
Qed.

Lemma returns_acquire (k : Kind) (e : nat -> Event) w : returns (acquire k e) w.
Proof. by eexists _, _. Qed.

Lemma returns_new_array {X} (n : nat) w : returns (@new_array X n) w.
Proof. by eexists _, _. Qed.

Lemma reshape_input_returns (l : CuDNNConvolutionLayer) (b : ConvolutionLayer)
    height width height_out width_out pad_h pad_w stride_h stride_w
    (limit : N) (n i : nat) (a : PerInputPtrs) (w : World) :
  (i < length (bottom_descs_ l))%nat -> (i < length (top_descs_ l))%nat ->
  (i < length (fwd_conv_descs_ l))%nat -> (i < length (bwd_conv_descs_ l))%nat ->
  is_Some (fwd_filter_desc_ l) -> is_Some (bwd_filter_desc_ l) ->
  ptrs_allocated a n ->
  returns (reshape_input l b height width height_out width_out pad_h pad_w
             stride_h stride_w limit i a) w.
Proof.
  intros B1 B2 B3 B4 Hff Hbf (A1 & A2 & A3 & A4 & A5 & A6).
  apply allocated_is_Some in A1, A2, A3, A4, A5, A6.
  unfold reshape_input.
  repeat first
    [ apply returns_ret
    | apply returns_bind; [|intros ? ? _]
    | by apply returns_at_index
    | by apply returns_deref
    | by apply returns_store_at
    | apply returns_setTensor4dDesc
    | apply returns_setConvolutionDesc
    | apply returns_cudnn_log ].
Qed.

Lemma reshape_loop_returns (l : CuDNNConvolutionLayer) (b : ConvolutionLayer)
    height width height_out width_out pad_h pad_w stride_h stride_w
    (limit : N) (n : nat) (indices : list nat) (a : PerInputPtrs) (w : World) :
  (forall i, i ∈ indices ->
     (i < length (bottom_descs_ l))%nat /\ (i < length (top_descs_ l))%nat
     /\ (i < length (fwd_conv_descs_ l))%nat
     /\ (i < length (bwd_conv_descs_ l))%nat /\ (i < n)%nat) ->
  NoDup indices ->
  is_Some (fwd_filter_desc_ l) -> is_Some (bwd_filter_desc_ l) ->
  ptrs_allocated a n ->
  returns (for_each indices
             (reshape_input l b height width height_out width_out pad_h pad_w
                stride_h stride_w limit) a) w.
Proof.
  intros Hi Hnd Hff Hbf. revert a w.
  induction indices as [|j rest IH]; intros a w Ha; cbn [for_each].
  - apply returns_ret.
  - destruct (Hi j) as (B1 & B2 & B3 & B4 & B5); [left|].
    apply NoDup_cons in Hnd as [Hj Hnd].
    apply returns_bind; [by eapply reshape_input_returns|].
    intros a1 w1 E1. apply IH; [|done|].
    { intros i Hin. apply Hi. by right. }
    destruct (reshape_loop_Done l b height width height_out width_out pad_h
                pad_w stride_h stride_w limit n [j] a a1 w w1)
      as (evs & _ & Hl).
    { cbn [for_each]. by rewrite (bind_Done_intro _ _ _ _ _ E1). }
    destruct Hl as (Ha1 & _); try done.
    + apply NoDup_singleton.
    + by intros i ->%list_elem_of_singleton.
Qed.

Lemma Reshape_configure_returns (l : CuDNNConvolutionLayer)
    (b : ConvolutionLayer) (bottom top : list Shape) (w : World) s0 t0 :
  bottom !! 0%nat = Some s0 -> top !! 0%nat = Some t0 ->
  valid_axis s0 (channel_axis_ b + 1) -> valid_axis s0 (channel_axis_ b + 2) ->
  valid_axis t0 (channel_axis_ b + 1) -> valid_axis t0 (channel_axis_ b + 2) ->
  (2 <= length (pad_ b))%nat -> (2 <= length (stride_ b))%nat ->
  ready l (length bottom) ->
  (bias_term_ b = true -> is_Some (bias_desc_ l)) ->
  returns (Reshape_configure l b bottom top) w.
Proof.
  intros Hs0 Ht0 V1 V2 V3 V4 Hpad Hstride
    (R1 & R2 & R3 & R4 & Hff & Hbf & A1 & A2 & A3 & A4 & A5 & A6) Hbias.
  unfold Reshape_configure. cbv zeta.
  apply returns_bind; [apply returns_at_index; by eapply lookup_lt_Some|].
  intros s0' w1 [E1 ->]%at_index_Done. rewrite Hs0 in E1. injection E1 as <-.
  apply returns_bind; [by apply returns_Blob_shape|].
  intros height w1 [_ ->]%Blob_shape_Done.
  apply returns_bind; [by apply returns_Blob_shape|].
  intros width w1 [_ ->]%Blob_shape_Done.
  apply returns_bind; [apply returns_at_index; by eapply lookup_lt_Some|].
  intros t0' w1 [E1 ->]%at_index_Done. rewrite Ht0 in E1. injection E1 as <-.
  apply returns_bind; [by apply returns_Blob_shape|].
  intros height_out w1 [_ ->]%Blob_shape_Done.
  apply returns_bind; [by apply returns_Blob_shape|].
  intros width_out w1 [_ ->]%Blob_shape_Done.
  apply returns_bind; [apply returns_at_index; lia|]. intros pad_h w1 _.
  apply returns_bind; [apply returns_at_index; lia|]. intros pad_w w2 _.
  apply returns_bind; [apply returns_at_index; lia|]. intros stride_h w3 _.
  apply returns_bind; [apply returns_at_index; lia|]. intros stride_w w4 _.
  apply returns_bind; [apply returns_getInfo|]. intros info w5 _.
  apply returns_bind.
  { unfold for_loop.
    apply (reshape_loop_returns l b _ _ _ _ _ _ _ _ _ (length bottom));
      try done; [|apply NoDup_seq].
    intros i Hi%elem_of_seq. repeat split; lia. }
  intros a' w6 _.
  apply returns_bind; [|intros ? ? _; apply returns_ret].
  destruct (bias_term_ b); [|apply returns_ret].
  apply returns_bind; [by apply returns_deref, Hbias|].
  intros h w7 _. apply returns_setTensor4dDesc.
Qed.

Lemma Reshape_run_Done (l : CuDNNConvolutionLayer) (bottom top : list Shape)
    (w : World) (b : ConvolutionLayer) (top' : list Shape) (s0 t0 : Shape) :
  base_Reshape (conv l) bottom top = Some (b, top') ->
  num_spatial_axes_ b = 2%Z ->
  bottom !! 0%nat = Some s0 -> top' !! 0%nat = Some t0 ->
  valid_axis s0 (channel_axis_ b + 1) -> valid_axis s0 (channel_axis_ b + 2) ->
  valid_axis t0 (channel_axis_ b + 1) -> valid_axis t0 (channel_axis_ b + 2) ->
  (2 <= length (pad_ b))%nat -> (2 <= length (stride_ b))%nat ->
  ready l (length bottom) ->
  (bias_term_ b = true -> is_Some (bias_desc_ l)) ->
  exists l' w', Reshape l bottom top w = Done (l', top') w'.
Proof.
  intros Hb Hn Hs0 Ht0 V1 V2 V3 V4 Hpad Hstride Hr Hbias.
  destruct (Reshape_configure_returns l b bottom top' w s0 t0)
    as (l' & w' & E); try done.
  exists l', w'. unfold Reshape. rewrite Hb. cbn [call_base].
  unfold bind at 1. cbn [ret fst snd]. unfold CHECK_EQ.
  rewrite decide_True by done. unfold bind at 1. cbn [ret].
  by rewrite (bind_Done_intro _ _ _ _ _ E).
Qed.

(** X10.  With a provider that does not fail, [Reshape] returns as soon as
    the base class's [Reshape] succeeds with 2 spatial axes and a nonzero
    group count, the first bottom and top blobs have the two axes after
    the channel axis, [pad_] and [stride_] have two entries, and the layer
    has its descriptors and arrays for the inputs (and its bias
    descriptor, when the base class asks for a bias). *)
Theorem Reshape_returns (l : CuDNNConvolutionLayer) (bottom top : list Shape)
    (w : World) (b : ConvolutionLayer) (top' : list Shape) (s0 t0 : Shape) :
  base_Reshape (conv l) bottom top = Some (b, top') ->
  num_spatial_axes_ b = 2%Z ->
  group_ b <> 0%Z ->
  bottom !! 0%nat = Some s0 -> top' !! 0%nat = Some t0 ->
  valid_axis s0 (channel_axis_ b + 1) -> valid_axis s0 (channel_axis_ b + 2) ->
  valid_axis t0 (channel_axis_ b + 1) -> valid_axis t0 (channel_axis_ b + 2) ->
  (2 <= length (pad_ b))%nat -> (2 <= length (stride_ b))%nat ->
  ready l (length bottom) ->
  (bias_term_ b = true -> is_Some (bias_desc_ l)) ->
  exists l' w', Reshape l bottom top w = Done (l', top') w'.
Proof.
  intros Hb Hn Hg. by apply Reshape_run_Done.
Qed.

End Steady.


(** ** [LayerSetUp], member by member *)

Lemma grows_trace (rs : list (nat * Kind)) (w w' : World) :
  grows rs w w' -> exists evs, trace w' = trace w ++ evs.
Proof. intros (_ & _ & _ & _ & evs & Ht & _). eauto. Qed.

Lemma createFilterDesc_inv n c kh kw w h w' :
  createFilterDesc n c kh kw w = Done h w' ->
  h = next w /\ next w' = S (next w)
  /\ trace w' = trace w ++ [CreateFilterDesc h n c kh kw].
Proof. intros H%CUDNN_CHECK_Done. by injection H as <- <-. Qed.

Lemma LayerSetUp_resources_inv (l : CuDNNConvolutionLayer)
    (bottom top : list Shape) (w : World) l' w' :
  LayerSetUp_resources l bottom top w = Done l' w' ->
  exists b kh kw ff bf nb nt nf nc evs,
    base_LayerSetUp (conv l) bottom top = Some b
    /\ kernel_shape_ b !! 0%nat = Some kh /\ kernel_shape_ b !! 1%nat = Some kw
    /\ conv l'
       = set_weight_offset_ b
           ((num_output_ b `quot` group_ b) * (channels_ b `quot` group_ b)
            * kh * kw)%Z
    /\ bias_offset_ l' = (num_output_ b `quot` group_ b)%Z
    /\ bottom_offset_ l' = bottom_offset_ l /\ top_offset_ l' = top_offset_ l
    /\ fwd_filter_desc_ l' = Some ff /\ bwd_filter_desc_ l' = Some bf
    /\ ff <> bf
    /\ bottom_descs_ l' = bottom_descs_ l ++ nb
    /\ top_descs_ l' = top_descs_ l ++ nt
    /\ fwd_conv_descs_ l' = fwd_conv_descs_ l ++ nf
    /\ bwd_conv_descs_ l' = bwd_conv_descs_ l ++ nc
    /\ length nb = length bottom /\ length nt = length bottom
    /\ length nf = length bottom /\ length nc = length bottom
    /\ (if bias_term_ b then is_Some (bias_desc_ l')
        else bias_desc_ l' = bias_desc_ l)
    /\ trace w' = trace w ++ evs
    /\ In (CreateFilterDesc ff (num_output_ b `quot` group_ b)
             (channels_ b `quot` group_ b) kh kw) evs
    /\ In (CreateFilterDesc bf (num_output_ b `quot` group_ b)
             (channels_ b `quot` group_ b) kh kw) evs.
Proof.
  intros H. unfold LayerSetUp_resources in H.
  split_run H b w0 Hbase. apply call_base_Done in Hbase as [Hbase ->].
  split_run H a1 w1 H1. split_run H a2 w2 H2. split_run H a3 w3 H3.
  split_run H a4 w4 H4. split_run H a5 w5 H5. split_run H a6 w6 H6.
  split_run H kh w7 Hkh. apply at_index_Done in Hkh as [Hkh ->].
  split_run H kw w7 Hkw. apply at_index_Done in Hkw as [Hkw ->].
  split_run H ff w7 Hff. split_run H bf w8 Hbf.
  split_run H d w9 Hd. split_run H bias w10 Hbias.
  injection H as <- <-.
  apply new_array_Done in H1 as [_ (e1 & T1)%grows_trace].
  apply new_array_Done in H2 as [_ (e2 & T2)%grows_trace].
  apply new_array_Done in H3 as [_ (e3 & T3)%grows_trace].
  apply new_array_Done in H4 as [_ (e4 & T4)%grows_trace].
  apply new_array_Done in H5 as [_ (e5 & T5)%grows_trace].
  apply new_array_Done in H6 as [_ (e6 & T6)%grows_trace].
  apply createFilterDesc_inv in Hff as (Hff & Nff & Tff).
  apply createFilterDesc_inv in Hbf as (Hbf & Nbf & Tbf).
  apply create_loop_Done in Hd
    as (nb & nt & nf & nc & -> & Lb & Lt & Lf & Lc & (ed & Td)%grows_trace).
  rewrite length_seq in Lb, Lt, Lf, Lc.
  assert (exists eb, trace w10 = trace w9 ++ eb) as (eb & Tb).
  { destruct (bias_term_ b).
    - split_run Hbias h w11 Hh. injection Hbias as _ <-.
      apply createTensor4dDesc_Done in Hh as [_ Hh%grows_trace]. done.
    - injection Hbias as _ <-. exists []. by rewrite app_nil_r. }
  exists b, kh, kw, ff, bf, nb, nt, nf, nc.
  eexists. cbn.
  do 9 (split; [done|]). split; [lia|].
  do 8 (split; [done|]). split.
  { destruct (bias_term_ b).
    - split_run Hbias h w11 Hh. injection Hbias as <- _. eauto.
    - by injection Hbias as <- _. }
  split.
  { rewrite Tb, Td, Tbf, Tff, T6, T5, T4, T3, T2, T1, <- !app_assoc.
    reflexivity. }
  split.
  - do 6 (apply in_or_app; right). apply in_or_app. left. by left.
  - do 7 (apply in_or_app; right). apply in_or_app. left. by left.
Qed.

Lemma initialised_allocated (a : PerInput) (n : nat) :
  (forall i, (i < n)%nat -> initialised a i) ->
  ptrs_allocated
    {| fwd_algo_p := Some (fwd_algo a);
       bwd_filter_algo_p := Some (bwd_filter_algo a);
       bwd_data_algo_p := Some (bwd_data_algo a);
       workspace_fwd_sizes_p := Some (workspace_fwd_sizes a);
       workspace_bwd_filter_sizes_p := Some (workspace_bwd_filter_sizes a);
       workspace_bwd_data_sizes_p := Some (workspace_bwd_data_sizes a) |} n.
Proof.
  intros Hi.
  assert (forall X (arr : Array X) (v : X),
            (forall i, (i < n)%nat -> elems arr !! i = Some (Some v)) ->
            allocated (Some arr) n) as Hal.
  { intros X arr v Hv. exists arr. split; [done|].
    destruct n as [|m]; [lia|].
    specialize (Hv m (Nat.lt_succ_diag_r m)).
    apply lookup_lt_Some in Hv. lia. }
  repeat split; cbn; eapply Hal; intros i Hlt;
    destruct (Hi i Hlt) as (I1 & I2 & I3 & I4 & I5 & I6); eassumption.
Qed.

(** After [LayerSetUp] the layer is ready for as many inputs as it was set
    up with. *)
Lemma LayerSetUp_ready (l : CuDNNConvolutionLayer) (bottom top : list Shape)
    (w : World) l' w' :
  LayerSetUp l bottom top w = Done l' w' ->
  handles_setup_ l' = true /\ ready l' (length bottom).
Proof.
  intros (l_r & Hr & ->)%LayerSetUp_Done. split; [done|].
  destruct (LayerSetUp_resources_Done _ _ _ _ _ _ Hr)
    as (_ & _ & _ & (a & F1 & F2 & F3 & F4 & F5 & F6 & Hinit) & _).
  apply LayerSetUp_resources_inv in Hr
    as (b & kh & kw & ff & bf & nb & nt & nf & nc & evs & _ & _ & _ & _ & _
        & _ & _ & Hff & Hbf & _ & D1 & D2 & D3 & D4 & L1 & L2 & L3 & L4 & _).
  pose proof (initialised_allocated a (length bottom) Hinit)
    as (A1 & A2 & A3 & A4 & A5 & A6).
  unfold ready. cbn.
  rewrite D1, D2, D3, D4, Hff, Hbf, F1, F2, F3, F4, F5, F6, !length_app.
  repeat split; eauto; lia.
Qed.

(** X11.  After [LayerSetUp] returns, [bias_offset_] is
    [num_output_ / group_] and [weight_offset_] is the product of the
    outputs per group, the channels per group and the kernel's height and
    width (for a nonzero group count and products that fit an [int]: the
    integers of the model are unbounded); the two filter descriptors are
    distinct and were created with the same shape; each of the four
    descriptor vectors has gained one entry per input at its end;
    [bottom_offset_] and [top_offset_] are left to [Reshape]. *)
Theorem LayerSetUp_members (l : CuDNNConvolutionLayer)
    (bottom top : list Shape) (w : World) l' w' :
  LayerSetUp l bottom top w = Done l' w' ->
  exists b kh kw ff bf nb nt nf nc evs,
    base_LayerSetUp (conv l) bottom top = Some b
    /\ kernel_shape_ b !! 0%nat = Some kh /\ kernel_shape_ b !! 1%nat = Some kw
    /\ (group_ b <> 0%Z ->
        bias_offset_ l' = (num_output_ b `quot` group_ b)%Z
        /\ (fits_int ((num_output_ b `quot` group_ b)
                      * (channels_ b `quot` group_ b)) ->
            fits_int ((num_output_ b `quot` group_ b)
                      * (channels_ b `quot` group_ b) * kh) ->
            fits_int ((num_output_ b `quot` group_ b)
                      * (channels_ b `quot` group_ b) * kh * kw) ->
            weight_offset_ (conv l')
            = ((num_output_ b `quot` group_ b) * (channels_ b `quot` group_ b)
               * kh * kw)%Z))
    /\ bottom_offset_ l' = bottom_offset_ l /\ top_offset_ l' = top_offset_ l
    /\ fwd_filter_desc_ l' = Some ff /\ bwd_filter_desc_ l' = Some bf
    /\ ff <> bf
    /\ trace w' = trace w ++ evs
    /\ In (CreateFilterDesc ff (num_output_ b `quot` group_ b)
             (channels_ b `quot` group_ b) kh kw) evs
    /\ In (CreateFilterDesc bf (num_output_ b `quot` group_ b)
             (channels_ b `quot` group_ b) kh kw) evs
    /\ bottom_descs_ l' = bottom_descs_ l ++ nb
    /\ top_descs_ l' = top_descs_ l ++ nt
    /\ fwd_conv_descs_ l' = fwd_conv_descs_ l ++ nf
    /\ bwd_conv_descs_ l' = bwd_conv_descs_ l ++ nc
    /\ length nb = length bottom /\ length nt = length bottom
    /\ length nf = length bottom /\ length nc = length bottom.
Proof.
  intros (l_r & Hr & ->)%LayerSetUp_Done.
  apply LayerSetUp_resources_inv in Hr
    as (b & kh & kw & ff & bf & nb & nt & nf & nc & evs & Hb & Hkh & Hkw & Hc
        & Hbo & Ho1 & Ho2 & Hff & Hbf & Hne & D1 & D2 & D3 & D4
        & L1 & L2 & L3 & L4 & _ & Ht & I1 & I2).
  exists b, kh, kw, ff, bf, nb, nt, nf, nc, evs. cbn.
  do 3 (split; [done|]). split.
  { intros _. split; [done|]. intros _ _ _. by rewrite Hc. }
  by repeat (split; [done|]).
Qed.


(** ** [LayerSetUp] returns *)

Lemma create_loop_returns (Hok : never_fails P) (indices : list nat)
    (d : Descs) (w : World) :
  returns (for_each indices create_input_descs d) w.
Proof.
  revert d w. induction indices as [|i rest IH]; intros d w; cbn [for_each].
  - apply returns_ret.
  - apply returns_bind; [|intros ? ? _; apply IH].
    unfold create_input_descs, createTensor4dDesc, createConvolutionDesc.
    repeat first
      [ apply returns_ret
      | apply returns_bind; [|intros ? ? _]
      | apply (returns_CUDNN_CHECK Hok), returns_acquire ].
Qed.

Lemma LayerSetUp_resources_returns (Hok : never_fails P)
    (l : CuDNNConvolutionLayer) (bottom top : list Shape) (w : World) b :
  base_LayerSetUp (conv l) bottom top = Some b ->
  (2 <= length (kernel_shape_ b))%nat ->
  returns (LayerSetUp_resources l bottom top) w.
Proof.
  intros Hb Hk. unfold LayerSetUp_resources. rewrite Hb. cbn [call_base].
  apply returns_bind; [apply returns_ret|]. intros b' w0 [= <- <-].
  do 6 (apply returns_bind; [apply returns_new_array|intros ? ? _]).
  do 2 (apply returns_bind; [apply returns_at_index; lia|intros ? ? _]).
  do 2 (apply returns_bind;
          [apply (returns_CUDNN_CHECK Hok), returns_acquire|intros ? ? _]).
  apply returns_bind; [by apply create_loop_returns|intros ? ? _].
  apply returns_bind; [|intros ? ? _; apply returns_ret].
  destruct (bias_term_ b); [|apply returns_ret].
  apply returns_bind; [|intros ? ? _; apply returns_ret].
  apply (returns_CUDNN_CHECK Hok), returns_acquire.
Qed.

(** X12.  With a provider that does not fail, [LayerSetUp] returns as soon
    as the base class's [LayerSetUp] succeeds with a nonzero group count
    and a kernel shape of two entries; the layer it leaves has
    [handles_setup_] set and holds descriptors and arrays for every input,
    which is what [Reshape] needs. *)
Theorem LayerSetUp_returns (l : CuDNNConvolutionLayer)
    (bottom top : list Shape) (w : World) (b : ConvolutionLayer) :
  never_fails P ->
  base_LayerSetUp (conv l) bottom top = Some b ->
  group_ b <> 0%Z ->
  (2 <= length (kernel_shape_ b))%nat ->
  exists l' w',
    LayerSetUp l bottom top w = Done l' w'
    /\ handles_setup_ l' = true
    /\ ready l' (length bottom).
Proof.
  intros Hok Hb Hg Hk.
  destruct (LayerSetUp_resources_returns Hok l bottom top w b Hb Hk)
    as (l_r & w' & E).
  assert (LayerSetUp l bottom top w = Done (set_handles_setup_ l_r true) w')
    as Hrun.
  { unfold LayerSetUp. by rewrite (bind_Done_intro _ _ _ _ _ E). }
  exists (set_handles_setup_ l_r true), w'. split; [exact Hrun|].
  by apply LayerSetUp_ready in Hrun.
Qed.

(** ** The layer over its life *)

(** X13.  A freshly constructed layer that is set up, then reshaped (by a
    base class that keeps [bias_term_]), then destroyed, leaves no
    resource behind: the destructor returns, it gives back exactly what
    [LayerSetUp] created, and the live resources are those there were
    before [LayerSetUp]. *)
Theorem layer_life_cycle (l : CuDNNConvolutionLayer)
    (bottom top bottom' top' : list Shape) (w : World)
    l1 w1 l2 top2 w2 :
  constructed l -> world_wf w ->
  LayerSetUp l bottom top w = Done l1 w1 ->
  Reshape l1 bottom' top' w1 = Done (l2, top2) w2 ->
  bias_term_ (conv l2) = bias_term_ (conv l1) ->
  exists w3,
    Destructor l2 w2 = Done (set_workspaceData l2 None) w3
    /\ live w3 = live w
    /\ exists evs, trace w3 = trace w2 ++ evs /\ evs ≫= destroyed = owned l1.
Proof.
  intros Hc Hwf Hsetup Hreshape Hbias.
  destruct (LayerSetUp_owns _ _ _ _ _ _ Hc Hwf Hsetup)
    as (Hs & Hdata & Ho & _ & _ & Hfresh & Hkeep).
  pose proof (quiet_Reshape l1 bottom' top' w1) as (Hlive & _).
  rewrite Hreshape in Hlive. cbn [world_of] in Hlive.
  destruct (Reshape_frame _ _ _ _ _ _ _ Hreshape)
    as (Hs2 & Hdata2 & _ & _ & _ & _ & _ & _ & _ & _ & _ & _ & Hown).
  destruct (Hown Hbias) as (Hown2 & Ho2). specialize (Ho2 Ho).
  rewrite Hs in Hs2. rewrite Hdata in Hdata2.
  destruct (Destructor_Done l2 w2 Hs2 Ho2) as (w3 & Hd & _ & Ht & Hx).
  exists w3. split; [done|]. split.
  - apply map_eq. intros x. rewrite Hx, Hdata2, Hown2. cbn [handle_of].
    rewrite app_nil_r, Hlive.
    destruct (decide (x ∈ (owned l1).*1)) as [Hin|Hin].
    + symmetry. by apply Hfresh.
    + by apply Hkeep.
  - exists ((release_event <$> owned l2) ++ [Deallocate (workspaceData l2)]).
    split; [done|].
    rewrite bind_app, release_event_destroyed, Hdata2, Hown2. cbn.
    by rewrite app_nil_r.
Qed.

(** ** The descriptors [Reshape] configures *)

Lemma reshape_input_configures (l : CuDNNConvolutionLayer)
    (b : ConvolutionLayer)
    height width height_out width_out pad_h pad_w stride_h stride_w
    (limit : N) (i : nat) (a a' : PerInputPtrs) (w w' : World) :
  reshape_input l b height width height_out width_out pad_h pad_w
    stride_h stride_w limit i a w = Done a' w' ->
  exists evs,
    trace w' = trace w ++ evs
    /\ configured l b height width height_out width_out pad_h pad_w
         stride_h stride_w evs i
    /\ forall h n c hh ww sn sc sh sw,
         In (SetTensor4dDesc h n c hh ww sn sc sh sw) evs ->
         h ∈ bottom_descs_ l \/ h ∈ top_descs_ l.
Proof.
  intros H. unfold reshape_input in H.
  split_run H bd w1 E1. apply at_index_Done in E1 as [Hbd ->].
  split_run H u2 w2 E2. apply setTensor4dDesc_Done in E2.
  split_run H td w3 E3. apply at_index_Done in E3 as [Htd ->].
  split_run H u4 w4 E4. apply setTensor4dDesc_Done in E4.
  split_run H fc w5 E5. apply at_index_Done in E5 as [Hfc ->].
  split_run H ff w6 E6. apply deref_Done in E6 as [Hff ->].
  split_run H u7 w7 E7. apply setConvolutionDesc_Done in E7.
  split_run H algo w8 E8. apply cudnn_log_Done in E8 as [-> E8].
  split_run H p9 w9 E9. apply store_at_Done in E9 as (fa & Hfa & -> & ->).
  split_run H sz w10 E10. apply cudnn_log_Done in E10 as [-> E10].
  split_run H p11 w11 E11. apply store_at_Done in E11 as (ws & Hws & -> & ->).
  split_run H bc w12 E12. apply at_index_Done in E12 as [Hbc ->].
  split_run H bf w13 E13. apply deref_Done in E13 as [Hbf ->].
  split_run H u14 w14 E14. apply setConvolutionDesc_Done in E14.
  split_run H algo_f w15 E15. apply cudnn_log_Done in E15 as [-> E15].
  split_run H p16 w16 E16. apply store_at_Done in E16 as (fa2 & Hfa2 & -> & ->).
  split_run H sz_f w17 E17. apply cudnn_log_Done in E17 as [-> E17].
  split_run H p18 w18 E18. apply store_at_Done in E18 as (ws2 & Hws2 & -> & ->).
  split_run H algo_d w19 E19. apply cudnn_log_Done in E19 as [-> E19].
  split_run H p20 w20 E20. apply store_at_Done in E20 as (fa3 & Hfa3 & -> & ->).
  split_run H sz_d w21 E21. apply cudnn_log_Done in E21 as [-> E21].
  split_run H p22 w22 E22. apply store_at_Done in E22 as (ws3 & Hws3 & -> & ->).
  injection H as _ <-.
  eexists. split.
  { rewrite E21, E19, E17, E15, E14, E10, E8, E7, E4, E2.
    rewrite <- !app_assoc. reflexivity. }
  split.
  { exists bd, td, fc, bc, ff, bf. do 6 (split; [done|]). cbn. tauto. }
  intros h n c hh ww sn sc sh sw Hin. cbn in Hin.
  destruct Hin as [Hin|[Hin|Hin]].
  - injection Hin as <-. left. by eapply list_elem_of_lookup_2.
  - injection Hin as <-. right. by eapply list_elem_of_lookup_2.
  - repeat (destruct Hin as [Hin|Hin]; [discriminate Hin|]). done.
Qed.

Lemma configured_app_l l b h wd ho wo ph pw sh sw evs1 evs2 i :
  configured l b h wd ho wo ph pw sh sw evs1 i ->
  configured l b h wd ho wo ph pw sh sw (evs1 ++ evs2) i.
Proof.
  intros (bd & td & fc & bc & ff & bf & H1 & H2 & H3 & H4 & H5 & H6
          & I1 & I2 & I3 & I4).
  exists bd, td, fc, bc, ff, bf. do 6 (split; [done|]).
  repeat split; apply in_or_app; by left.
Qed.

Lemma configured_app_r l b h wd ho wo ph pw sh sw evs1 evs2 i :
  configured l b h wd ho wo ph pw sh sw evs2 i ->
  configured l b h wd ho wo ph pw sh sw (evs1 ++ evs2) i.
Proof.
  intros (bd & td & fc & bc & ff & bf & H1 & H2 & H3 & H4 & H5 & H6
          & I1 & I2 & I3 & I4).
  exists bd, td, fc, bc, ff, bf. do 6 (split; [done|]).
  repeat split; apply in_or_app; by right.
Qed.

Lemma reshape_loop_configures (l : CuDNNConvolutionLayer)
    (b : ConvolutionLayer)
    height width height_out width_out pad_h pad_w stride_h stride_w
    (limit : N) (indices : list nat) (a a' : PerInputPtrs) (w w' : World) :
  for_each indices
    (reshape_input l b height width height_out width_out pad_h pad_w
       stride_h stride_w limit) a w = Done a' w' ->
  exists evs,
    trace w' = trace w ++ evs
    /\ (forall i, i ∈ indices ->
          configured l b height width height_out width_out pad_h pad_w
            stride_h stride_w evs i)
    /\ forall h n c hh ww sn sc sh sw,
         In (SetTensor4dDesc h n c hh ww sn sc sh sw) evs ->
         h ∈ bottom_descs_ l \/ h ∈ top_descs_ l.
Proof.
  revert a w. induction indices as [|j rest IH]; intros a w H;
    cbn [for_each] in H.
  - injection H as _ <-. exists []. rewrite app_nil_r.
    split; [done|]. split; [by intros i Hi%elem_of_nil|].
    by intros h n c hh ww sn sc sh sw [].
  - split_run H a1 w1 E1.
    apply reshape_input_configures in E1 as (evs1 & Ht1 & Hc1 & Ho1).
    destruct (IH _ _ H) as (evs2 & Ht2 & Hc2 & Ho2).
    exists (evs1 ++ evs2). split; [by rewrite Ht2, Ht1, app_assoc|].
    split.
    + intros i [->|Hi]%elem_of_cons.
      * by apply configured_app_l.
      * by apply configured_app_r, Hc2.
    + intros h n c hh ww sn sc sh sw [Hin|Hin]%in_app_or; eauto.
Qed.

(** X14.  When [Reshape] returns, every input's descriptors were
    configured from the shapes of the first bottom and the first top blob
    alone: the bottom tensor descriptor with [num_], the channels per
    group, that height and width and the strides of the whole blob, the
    top tensor descriptor likewise, and both convolution descriptors with
    the first two entries of [pad_] and [stride_]; the bias descriptor is
    configured as a packed 1 x (outputs per group) x 1 x 1 tensor exactly
    when the base class has a bias. *)
Theorem Reshape_configures (l : CuDNNConvolutionLayer)
    (bottom top : list Shape) (w : World) l' top' w' :
  Reshape l bottom top w = Done (l', top') w' ->
  exists b s0 t0 height width height_out width_out
         pad_h pad_w stride_h stride_w evs,
    base_Reshape (conv l) bottom top = Some (b, top')
    /\ bottom !! 0%nat = Some s0 /\ top' !! 0%nat = Some t0
    /\ Blob_shape s0 (channel_axis_ b + 1) w = Done height w
    /\ Blob_shape s0 (channel_axis_ b + 2) w = Done width w
    /\ Blob_shape t0 (channel_axis_ b + 1) w = Done height_out w
    /\ Blob_shape t0 (channel_axis_ b + 2) w = Done width_out w
    /\ pad_ b !! 0%nat = Some pad_h /\ pad_ b !! 1%nat = Some pad_w
    /\ stride_ b !! 0%nat = Some stride_h /\ stride_ b !! 1%nat = Some stride_w
    /\ trace w' = trace w ++ evs
    /\ (forall i, (i < length bottom)%nat ->
          configured l b height width height_out width_out pad_h pad_w
            stride_h stride_w evs i)
    /\ (if bias_term_ b
        then exists bias,
               bias_desc_ l = Some bias
               /\ In (SetTensor4dDesc bias 1 (num_output_ b `quot` group_ b)
                        1 1 (num_output_ b `quot` group_ b) 1 1 1) evs
        else forall h n c hh ww sn sc sh sw,
               In (SetTensor4dDesc h n c hh ww sn sc sh sw) evs ->
               h ∈ bottom_descs_ l \/ h ∈ top_descs_ l).
Proof.
  intros H.
  apply Reshape_Done in H as (b & Hb & Hn & H).
  unfold Reshape_configure in H. cbv zeta in H.
  split_run H s0 w1 E1. apply at_index_Done in E1 as [Hs0 ->].
  split_run H height w1 Eh.
  pose proof (Blob_shape_Done _ _ _ _ _ Eh) as [_ ->].
  split_run H width w1 Ew.
  pose proof (Blob_shape_Done _ _ _ _ _ Ew) as [_ ->].
  split_run H t0 w1 E1. apply at_index_Done in E1 as [Ht0 ->].
  split_run H height_out w1 Eho.
  pose proof (Blob_shape_Done _ _ _ _ _ Eho) as [_ ->].
  split_run H width_out w1 Ewo.
  pose proof (Blob_shape_Done _ _ _ _ _ Ewo) as [_ ->].
  split_run H pad_h w1 E1. apply at_index_Done in E1 as [Hph ->].
  split_run H pad_w w1 E1. apply at_index_Done in E1 as [Hpw ->].
  split_run H stride_h w1 E1. apply at_index_Done in E1 as [Hsh ->].
  split_run H stride_w w1 E1. apply at_index_Done in E1 as [Hsw ->].
  split_run H info w1 Einfo. apply getInfo_Done in Einfo.
  split_run H a' w2 Eloop.
  split_run H u w3 Ebias.
  injection H as _ <-.
  unfold for_loop in Eloop.
  apply reshape_loop_configures in Eloop as (evs2 & Ht2 & Hconf & Honly).
  exists b, s0, t0, height, width, height_out, width_out,
    pad_h, pad_w, stride_h, stride_w.
  destruct (bias_term_ b) eqn:Hbias.
  - split_run Ebias bias w4 Ed. apply deref_Done in Ed as [Hd ->].
    apply setTensor4dDesc_Done in Ebias.
    exists ([GetInfo info.1 info.2] ++ evs2
            ++ [SetTensor4dDesc bias 1 (num_output_ b `quot` group_ b) 1 1
                  (num_output_ b `quot` group_ b * 1 * 1) (1 * 1) 1 1]).
    do 11 (split; [done|]). split.
    { by rewrite Ebias, Ht2, Einfo, <- !app_assoc. }
    split.
    + intros i Hi. apply configured_app_r, configured_app_l, Hconf.
      apply elem_of_seq. lia.
    + exists bias. split; [done|].
      apply in_or_app. right. apply in_or_app. right.
      rewrite !Z.mul_1_r. by left.
  - injection Ebias as _ <-.
    exists ([GetInfo info.1 info.2] ++ evs2).
    do 11 (split; [done|]). split.
    { by rewrite Ht2, Einfo, <- !app_assoc. }
    split.
    + intros i Hi. apply configured_app_r, Hconf. apply elem_of_seq. lia.
    + intros h n c hh ww sn sc sh sw [Hin|Hin]; [discriminate Hin|eauto].
Qed.

(** ** The failures of [Reshape] *)

Lemma pure_ret {X} (x : X) : pure (ret x).
Proof. by intros w. Qed.

Lemma pure_fatal {X} (e : Error) : pure (@fatal X e).
Proof. by intros w. Qed.

Lemma pure_at_index {X} (v : list X) i : pure (at_index v i).
Proof. unfold at_index. destruct (v !! i); [apply pure_ret|apply pure_fatal]. Qed.

Lemma pure_Blob_shape (s : Shape) (index : Z) : pure (Blob_shape s index).
Proof.
  unfold Blob_shape. destruct (decide _); [apply pure_at_index|apply pure_fatal].
Qed.

Lemma pure_call_base {X} (r : option X) : pure (call_base r).
Proof. destruct r; [apply pure_ret|apply pure_fatal]. Qed.

Lemma classified_ret {X} (x : X) : classified (ret x).
Proof. by intros w e w'. Qed.

Lemma classified_late {X} (m : Run X) :
  errors_in late_failure m -> classified m.
Proof. intros H w e w' Hf. right. by eapply H. Qed.

Lemma classified_bind_pure {X Y} (m : Run X) (f : X -> Run Y) :
  pure m ->
  (forall w e w', m w = Fatal e w' -> argument_check e \/ late_failure e) ->
  (forall a, classified (f a)) ->
  classified (bind m f).
Proof.
  intros Hp Hm Hf w e w'. specialize (Hp w). unfold bind.
  destruct (m w) as [a w1|e1 w1] eqn:Em; cbn [world_of] in Hp; subst w1.
  - apply Hf.
  - intros [= <- <-]. destruct (Hm _ _ _ Em); auto.
Qed.

Lemma late_Undefined : late_failure Undefined.
Proof. by right. Qed.

Lemma late_ProviderFailed (ev : Event) : late_failure (ProviderFailed ev).
Proof. left. by exists ev. Qed.

Lemma at_index_Fatal {X} (v : list X) i w e w' :
  at_index v i w = Fatal e w' -> argument_check e \/ late_failure e.
Proof.
  unfold at_index. destruct (v !! i); [done|].
  intros [= <- _]. right. apply late_Undefined.
Qed.

Lemma Blob_shape_Fatal (s : Shape) (index : Z) w e w' :
  Blob_shape s index w = Fatal e w' -> argument_check e \/ late_failure e.
Proof.
  unfold Blob_shape. destruct (decide _); [apply at_index_Fatal|].
  intros [= <- _]. left. by right; right.
Qed.

Lemma late_cudnn_log {X} (e : Event) (x : X) :
  errors_in late_failure (CUDNN_CHECK e (bind (log e) (fun _ => ret x))).
Proof.
  apply errors_CUDNN_CHECK; [apply late_ProviderFailed|].
  apply errors_bind; [apply errors_log|]. intros _. apply errors_ret.
Qed.

Lemma late_query {X} (q : World -> X) (e : X -> Event) :
  errors_in late_failure
    (fun w => CUDNN_CHECK (e (q w)) (bind (log (e (q w))) (fun _ => ret (q w))) w).
Proof. intros w err w'. apply late_cudnn_log. Qed.

Lemma late_getInfo : errors_in late_failure getInfo.
Proof.
  intros w e w'. unfold getInfo. destruct (memory_info w) as [free total].
  revert w e w'. apply errors_bind; [apply errors_log|].
  intros _. apply errors_ret.
Qed.

Ltac late_steps :=
  repeat first
    [ apply errors_ret
    | apply late_getInfo
    | match goal with
      | |- errors_in _ (if ?c then _ else _) => destruct c
      end
    | apply errors_CUDNN_CHECK; [apply late_ProviderFailed|apply errors_log]
    | apply errors_at_index; [apply late_Undefined]
    | apply errors_deref; [apply late_Undefined]
    | apply errors_for_each; intros ? ?; unfold reshape_input
    | apply errors_bind; [|intros ?]
    | apply (late_query (fun w => forward_algorithm w _ _)
               (fun a => GetConvolutionForwardAlgorithm _ _ a))
    | apply (late_query (fun w => forward_workspace w _ _)
               (fun a => GetConvolutionForwardWorkspaceSize _ _ a))
    | apply (late_query (fun w => backward_filter_algorithm w _ _)
               (fun a => GetConvolutionBackwardFilterAlgorithm _ _ a))
    | apply (late_query (fun w => backward_filter_workspace w _ _)
               (fun a => GetConvolutionBackwardFilterWorkspaceSize _ _ a))
    | apply (late_query (fun w => backward_data_algorithm w _ _)
               (fun a => GetConvolutionBackwardDataAlgorithm _ _ a))
    | apply (late_query (fun w => backward_data_workspace w _ _)
               (fun a => GetConvolutionBackwardDataWorkspaceSize _ _ a)) ].

Lemma classified_Reshape_configure (l : CuDNNConvolutionLayer)
    (b : ConvolutionLayer) (bottom top : list Shape) :
  classified (Reshape_configure l b bottom top).
Proof.
  unfold Reshape_configure. cbv zeta.
  apply classified_bind_pure; [apply pure_at_index|apply at_index_Fatal|intros bottom0].
  apply classified_bind_pure; [apply pure_Blob_shape|apply Blob_shape_Fatal|intros height].
  apply classified_bind_pure; [apply pure_Blob_shape|apply Blob_shape_Fatal|intros width].
  apply classified_bind_pure; [apply pure_at_index|apply at_index_Fatal|intros top0].
  apply classified_bind_pure; [apply pure_Blob_shape|apply Blob_shape_Fatal|intros height_out].
  apply classified_bind_pure; [apply pure_Blob_shape|apply Blob_shape_Fatal|intros width_out].
  apply classified_bind_pure; [apply pure_at_index|apply at_index_Fatal|intros pad_h].
  apply classified_bind_pure; [apply pure_at_index|apply at_index_Fatal|intros pad_w].
  apply classified_bind_pure; [apply pure_at_index|apply at_index_Fatal|intros stride_h].
  apply classified_bind_pure; [apply pure_at_index|apply at_index_Fatal|intros stride_w].
  apply classified_late.
  unfold store_at, setTensor4dDesc_packed, setTensor4dDesc, setConvolutionDesc.
  late_steps.
Qed.

(** X15.  A failure of [Reshape] is of one of two kinds.  A CHECK on the
    arguments (of the base class, the CHECK on the spatial axes, a CHECK
    of [Blob::shape] on a missing axis) is raised in the world the call
    started in: no provider call has been made and no descriptor
    configured.  Every other failure is a failed provider call or a stray
    index or pointer. *)
Theorem Reshape_failures (l : CuDNNConvolutionLayer) (bottom top : list Shape)
    (w : World) (e : Error) (w' : World) :
  Reshape l bottom top w = Fatal e w' ->
  (argument_check e /\ w' = w) \/ late_failure e.
Proof.
  revert w e w'. change (classified (Reshape l bottom top)).
  unfold Reshape. cbv zeta.
  apply classified_bind_pure; [apply pure_call_base| |intros r].
  { intros w e w'. destruct (base_Reshape _ _ _); [done|].
    intros [= <- _]. left. by left. }
  apply classified_bind_pure.
  { unfold CHECK_EQ. destruct (decide _); [apply pure_ret|apply pure_fatal]. }
  { intros w e w'. unfold CHECK_EQ. destruct (decide _); [done|].
    intros [= <- _]. left. right; left. eauto. }
  intros _ w e w'. unfold bind.
  destruct (Reshape_configure l r.1 bottom r.2 w) as [l1 w1|e1 w1] eqn:E;
    [done|].
  intros [= <- <-]. by eapply classified_Reshape_configure.
Qed.

End Lifecycle.

(** *** The layer on concrete inputs, over its life *)

Lemma never_fails_steady : never_fails steady_provider.
Proof. by intros w. Qed.

(** X12 on a layer with two inputs and a bias. *)
Lemma LayerSetUp_returns_witness :
  exists l' w',
    LayerSetUp (P := steady_provider) (B := plain_base)
      (new_layer (example_conv 2 true))
      [[1; 3; 8; 8]%Z; [1; 3; 8; 8]%Z] [[1; 8; 6; 6]%Z; [1; 8; 6; 6]%Z]
      empty_world = Done l' w'
    /\ handles_setup_ l' = true
    /\ ready l' 2.
Proof.
  refine (LayerSetUp_returns (P := steady_provider) (B := plain_base)
            (new_layer (example_conv 2 true))
            [[1; 3; 8; 8]%Z; [1; 3; 8; 8]%Z] [[1; 8; 6; 6]%Z; [1; 8; 6; 6]%Z]
            empty_world (example_conv 2 true)
            never_fails_steady eq_refl _ _).
  - discriminate.
  - simpl. lia.
Defined.

(** X11 on a layer with two inputs and a bias. *)
Lemma LayerSetUp_members_witness :
  match LayerSetUp (P := steady_provider) (B := plain_base)
          (new_layer (example_conv 2 true))
          [[1; 3; 8; 8]%Z; [1; 3; 8; 8]%Z] [[1; 8; 6; 6]%Z; [1; 8; 6; 6]%Z]
          empty_world
  with
  | Done l' w' =>
      bias_offset_ l' = 8%Z
      /\ weight_offset_ (conv l') = 216%Z
      /\ length (bottom_descs_ l') = 2%nat
      /\ fwd_filter_desc_ l' <> bwd_filter_desc_ l'
  | Fatal _ _ => False
  end.
Proof.
  destruct (LayerSetUp _ _ _ _) as [l' w'|e w'] eqn:E;
    [|vm_compute in E; discriminate E].
  destruct (LayerSetUp_members (P := steady_provider) (B := plain_base)
              _ _ _ _ _ _ E)
    as (b & kh & kw & ff & bf & nb & nt & nf & nc & evs & Hb & Hkh & Hkw
        & Hoff & _ & _ & Hff & Hbf & Hne & _ & _ & _ & D1 & _ & _ & _
        & L1 & _).
  injection Hb as <-. injection Hkh as <-. injection Hkw as <-.
  destruct Hoff as (Hbo & Hwo); [done|].
  split; [exact Hbo|]. split.
  { apply Hwo; (split; [apply Z.leb_le|apply Z.ltb_lt]; reflexivity). }
  split; [by rewrite D1|].
  rewrite Hff, Hbf. congruence.
Defined.

(** X10 on a layer with two inputs and a bias, once set up. *)
Lemma Reshape_returns_witness :
  match LayerSetUp (P := steady_provider) (B := plain_base)
          (new_layer (example_conv 2 true))
          [[1; 3; 8; 8]%Z; [1; 3; 8; 8]%Z] [[1; 8; 6; 6]%Z; [1; 8; 6; 6]%Z]
          empty_world
  with
  | Done l1 w1 =>
      exists l2 w2,
        Reshape (P := steady_provider) (B := plain_base) l1
          [[1; 3; 8; 8]%Z; [1; 3; 8; 8]%Z] [[1; 8; 6; 6]%Z; [1; 8; 6; 6]%Z] w1
        = Done (l2, [[1; 8; 6; 6]%Z; [1; 8; 6; 6]%Z]) w2
  | Fatal _ _ => False
  end.
Proof.
  destruct (LayerSetUp _ _ _ _) as [l1 w1|e w1] eqn:E;
    [|vm_compute in E; discriminate E].
  pose proof (LayerSetUp_ready _ _ _ _ _ _ E) as [_ Hready].
  apply LayerSetUp_Done in E as (l_r & E & ->).
  apply LayerSetUp_resources_inv in E
    as (b & kh & kw & ff & bf & nb & nt & nf & nc & evs & Hb & _ & _ & Hc
        & _ & _ & _ & _ & _ & _ & _ & _ & _ & _ & _ & _ & _ & _ & Hbias & _).
  injection Hb as <-.
  apply (Reshape_returns (P := steady_provider) (B := plain_base)
           never_fails_steady (set_handles_setup_ l_r true)
           [[1; 3; 8; 8]%Z; [1; 3; 8; 8]%Z] [[1; 8; 6; 6]%Z; [1; 8; 6; 6]%Z]
           w1 (conv l_r) [[1; 8; 6; 6]%Z; [1; 8; 6; 6]%Z]
           [1; 3; 8; 8]%Z [1; 8; 6; 6]%Z);
    try reflexivity; rewrite ?Hc; try done;
    try (unfold valid_axis; cbn; lia); cbn; try lia.
Defined.

(** The example layer, once set up, is reshaped without failure. *)
Lemma example_Reshape_run l1 w1 :
  LayerSetUp (P := steady_provider) (B := plain_base)
    (new_layer (example_conv 2 true))
    [[1; 3; 8; 8]%Z; [1; 3; 8; 8]%Z] [[1; 8; 6; 6]%Z; [1; 8; 6; 6]%Z]
    empty_world = Done l1 w1 ->
  exists l2 w2,
    Reshape (P := steady_provider) (B := plain_base) l1
      [[1; 3; 8; 8]%Z; [1; 3; 8; 8]%Z] [[1; 8; 6; 6]%Z; [1; 8; 6; 6]%Z] w1
    = Done (l2, [[1; 8; 6; 6]%Z; [1; 8; 6; 6]%Z]) w2.
Proof.
  intros E.
  pose proof (LayerSetUp_ready _ _ _ _ _ _ E) as [_ Hready].
  apply LayerSetUp_Done in E as (l_r & E & ->).
  apply LayerSetUp_resources_inv in E
    as (b & kh & kw & ff & bf & nb & nt & nf & nc & evs & Hb & _ & _ & Hc
        & _ & _ & _ & _ & _ & _ & _ & _ & _ & _ & _ & _ & _ & _ & Hbias & _).
  injection Hb as <-.
  apply (Reshape_run_Done (P := steady_provider) (B := plain_base)
           never_fails_steady (set_handles_setup_ l_r true)
           [[1; 3; 8; 8]%Z; [1; 3; 8; 8]%Z] [[1; 8; 6; 6]%Z; [1; 8; 6; 6]%Z]
           w1 (conv l_r) [[1; 8; 6; 6]%Z; [1; 8; 6; 6]%Z]
           [1; 3; 8; 8]%Z [1; 8; 6; 6]%Z);
    try reflexivity; rewrite ?Hc; try done;
    try (unfold valid_axis; cbn; lia); cbn; try lia.
Qed.

(** X9 on the same layer: the choices stored for the second input. *)
Lemma Reshape_selects_witness :
  match LayerSetUp (P := steady_provider) (B := plain_base)
          (new_layer (example_conv 2 true))
          [[1; 3; 8; 8]%Z; [1; 3; 8; 8]%Z] [[1; 8; 6; 6]%Z; [1; 8; 6; 6]%Z]
          empty_world
  with
  | Done l1 w1 =>
      match Reshape (P := steady_provider) (B := plain_base) l1
              [[1; 3; 8; 8]%Z; [1; 3; 8; 8]%Z] [[1; 8; 6; 6]%Z; [1; 8; 6; 6]%Z]
              w1
      with
      | Done r w2 =>
          exists free total evs,
            trace w2 = trace w1 ++ GetInfo free total :: evs
            /\ chosen_all (ptrs_of r.1) free evs 1
      | Fatal _ _ => False
      end
  | Fatal _ _ => False
  end.
Proof.
  destruct (LayerSetUp _ _ _ _) as [l1 w1|e w1] eqn:E;
    [|vm_compute in E; discriminate E].
  pose proof (LayerSetUp_ready _ _ _ _ _ _ E)
    as (_ & _ & _ & _ & _ & _ & _ & A1 & A2 & A3 & A4 & A5 & A6).
  destruct (example_Reshape_run l1 w1 E) as (l2 & w2 & E2).
  rewrite E2. cbn [fst].
  destruct (Reshape_selects (P := steady_provider) (B := plain_base)
              _ _ _ _ _ _ _ E2)
    as (b & free & total & evs & _ & _ & _ & Ht & Hch).
  { by repeat split. }
  exists free, total, evs. split; [exact Ht|]. apply Hch. simpl. lia.
Defined.

(** X13 on the same layer: set up, reshaped, destroyed. *)
Lemma layer_life_cycle_witness :
  match LayerSetUp (P := steady_provider) (B := plain_base)
          (new_layer (example_conv 2 true))
          [[1; 3; 8; 8]%Z; [1; 3; 8; 8]%Z] [[1; 8; 6; 6]%Z; [1; 8; 6; 6]%Z]
          empty_world
  with
  | Done l1 w1 =>
      match Reshape (P := steady_provider) (B := plain_base) l1
              [[1; 3; 8; 8]%Z; [1; 3; 8; 8]%Z] [[1; 8; 6; 6]%Z; [1; 8; 6; 6]%Z]
              w1
      with
      | Done r w2 =>
          exists w3,
            Destructor r.1 w2 = Done (set_workspaceData r.1 None) w3
            /\ live w3 = ∅
      | Fatal _ _ => False
      end
  | Fatal _ _ => False
  end.
Proof.
  destruct (LayerSetUp _ _ _ _) as [l1 w1|e w1] eqn:E;
    [|vm_compute in E; discriminate E].
  destruct (example_Reshape_run l1 w1 E) as (l2 & w2 & E2).
  rewrite E2. cbn [fst].
  destruct (layer_life_cycle (P := steady_provider) (B := plain_base)
              _ _ _ _ _ _ _ _ _ _ _
              (constructed_new_layer _) world_wf_empty E E2)
    as (w3 & Hd & Hl & _).
  { apply Reshape_Done in E2 as (b & [= <-] & _ & E2).
    by apply Reshape_configure_Done in E2 as (a' & info & evs & -> & _). }
  eauto.
Defined.

(** X15 on a bottom blob with two axes only: the CHECK of [Blob::shape]
    fails before anything is configured. *)
Lemma Reshape_failures_witness :
  match Reshape (P := steady_provider) (B := plain_base)
          (new_layer (example_conv 2 true))
          [[1; 3]%Z] [[1; 8; 6; 6]%Z] empty_world
  with
  | Done _ _ => False
  | Fatal e w' => (argument_check e /\ w' = empty_world) \/ late_failure e
  end.
Proof.
  destruct (Reshape _ _ _ _) as [r w'|e w'] eqn:E;
    [vm_compute in E; discriminate E|].
  exact (Reshape_failures (P := steady_provider) (B := plain_base) _ _ _ _ _ _ E).
Defined.

(** X14 on the same layer: the descriptors of the second input. *)
Lemma Reshape_configures_witness :
  match LayerSetUp (P := steady_provider) (B := plain_base)
          (new_layer (example_conv 2 true))
          [[1; 3; 8; 8]%Z; [1; 3; 8; 8]%Z] [[1; 8; 6; 6]%Z; [1; 8; 6; 6]%Z]
          empty_world
  with
  | Done l1 w1 =>
      match Reshape (P := steady_provider) (B := plain_base) l1
              [[1; 3; 8; 8]%Z; [1; 3; 8; 8]%Z] [[1; 8; 6; 6]%Z; [1; 8; 6; 6]%Z]
              w1
      with
      | Done r w2 =>
          exists evs,
            trace w2 = trace w1 ++ evs
            /\ configured l1 (conv l1) 8 8 6 6 0 0 1 1 evs 1
      | Fatal _ _ => False
      end
  | Fatal _ _ => False
  end.
Proof.
  destruct (LayerSetUp _ _ _ _) as [l1 w1|e w1] eqn:E;
    [|vm_compute in E; discriminate E].
  destruct (example_Reshape_run l1 w1 E) as (l2 & w2 & E2).
  rewrite E2.
  destruct (Reshape_configures (P := steady_provider) (B := plain_base)
              _ _ _ _ _ _ _ E2)
    as (b & s0 & t0 & height & width & height_out & width_out & pad_h & pad_w
        & stride_h & stride_w & evs & Hb & Hs0 & Ht0 & Hh & Hw & Hho & Hwo
        & Hph & Hpw & Hsh & Hsw & Ht & Hconf & _).
  injection Hb as <-. injection Hs0 as <-. injection Ht0 as <-.
  apply LayerSetUp_Done in E as (l_r & E & ->).
  apply LayerSetUp_resources_inv in E
    as (b & kh & kw & ff & bf & nb & nt & nf & nc & evs0 & Hb & _ & _ & Hc & _).
  injection Hb as <-. cbn [conv set_handles_setup_] in *. rewrite Hc in *.
  injection Hh as <-. injection Hw as <-.
  injection Hho as <-. injection Hwo as <-.
  injection Hph as <-. injection Hpw as <-.
  injection Hsh as <-. injection Hsw as <-.
  exists evs. split; [exact Ht|]. apply Hconf. simpl. lia.
Defined.

End CuDNNConvTheory.
